(** * Enclave breakout bot: trading decision and position lifecycle engine

    A shallow embedding of
      - [TechnicalIndicators] (indicator library and momentum scorer),
      - [EnclaveClient] (order-status mapping, the list of open orders,
        reconnection and the market-data cache fed by the WebSocket),
      - [BreakoutStrategy] (signal generator and position lifecycle),
      - [RiskManager] (position sizing and the emergency stop),
    followed by the properties of the engine's specification and by further
    properties of the code.

    Conventions.
      - decimal.js values are [Dec.t]: a rational, [NaN], or a signed
        infinity.  Finite arithmetic is exact; decimal.js rounds every
        operation to 20 significant digits, and zero is unsigned here.
      - a JavaScript exception is the [Throw] of [Result]; the state reached
        before the exception is kept, as in JavaScript.
      - the exchange gateway, the clock and the file system answer through an
        oracle [Env] indexed by the number of effects performed so far.
      - JavaScript number arithmetic ([1 - pct / 100], [qty / increment],
        [toNumber()]) is computed on rationals.
      - an [async] method runs as one step of the monad; two calls of
        [updateTrailingStops] that overlap at its first [await] are
        [overlappingTicks]. *)

From Stdlib Require Import ZArith QArith Qabs Qround Lia Lqa List String Ascii.
From stdpp Require Import base option list gmap strings.

Open Scope Q_scope.

(** ** Exceptions *)

Inductive JsError :=
  | InsufficientData (what : string)
  | InvalidArgument
  | TypeError
  | GatewayError.

Inductive Result (A : Type) :=
  | Ok (a : A)
  | Throw (e : JsError).
Arguments Ok {A} a.
Arguments Throw {A} e.

#[global] Instance Result_ret : MRet Result := fun A a => Ok a.
#[global] Instance Result_bind : MBind Result := fun A B f r =>
  match r with
  | Ok a => f a
  | Throw e => Throw e
  end.

Definition isOk {A} (r : Result A) : bool :=
  match r with Ok _ => true | Throw _ => false end.

(** [for (const x of xs) ys.push(f(x))], stopping at the first exception. *)
Fixpoint mapR {A B} (f : A -> Result B) (xs : list A) : Result (list B) :=
  match xs with
  | [] => Ok []
  | x :: xs' => y ← f x; ys ← mapR f xs'; Ok (y :: ys)
  end.

(** ** Array slices *)

(** [xs.slice(-n)]; [slice(-0)] is [slice(0)], the whole array. *)
Definition slice_last {A} (n : nat) (xs : list A) : list A :=
  match n with
  | O => xs
  | _ => drop (length xs - n) xs
  end.

(** [xs.slice(a, b)] for [0 <= a], [0 <= b]. *)
Definition slice {A} (a b : nat) (xs : list A) : list A :=
  take (b - a) (drop a xs).

(** [xs.slice(0, -1)]. *)
Definition slice_init {A} (xs : list A) : list A :=
  take (length xs - 1) xs.

(** [xs[i]]; [undefined] outside the array. *)
Definition arrayGet {A} (xs : list A) (i : Z) : option A :=
  if (i <? 0)%Z then None else xs !! Z.to_nat i.

(** ** decimal.js *)

Definition Qltb (x y : Q) : bool := negb (Qle_bool y x).
Definition Qzerob (x : Q) : bool := Qeq_bool x 0.

Module Dec.

Inductive t :=
  | Fin (q : Q)
  | NaN
  | Inf (negative : bool).

Definition ofNat (n : nat) : t := Fin (inject_Z (Z.of_nat n)).
Definition ofZ (z : Z) : t := Fin (inject_Z z).

Definition plus (x y : t) : t :=
  match x, y with
  | NaN, _ | _, NaN => NaN
  | Fin a, Fin b => Fin (Qred (a + b))
  | Fin _, Inf s | Inf s, Fin _ => Inf s
  | Inf s, Inf s' => if Bool.eqb s s' then Inf s else NaN
  end.

Definition negated (x : t) : t :=
  match x with
  | Fin a => Fin (Qred (- a))
  | NaN => NaN
  | Inf s => Inf (negb s)
  end.

Definition minus (x y : t) : t := plus x (negated y).

Definition times (x y : t) : t :=
  match x, y with
  | NaN, _ | _, NaN => NaN
  | Fin a, Fin b => Fin (Qred (a * b))
  | Fin a, Inf s | Inf s, Fin a =>
      if Qzerob a then NaN else Inf (xorb (Qltb a 0) s)
  | Inf s, Inf s' => Inf (xorb s s')
  end.

Definition dividedBy (x y : t) : t :=
  match x, y with
  | NaN, _ | _, NaN => NaN
  | Fin a, Fin b =>
      if Qzerob b
      then (if Qzerob a then NaN else Inf (Qltb a 0))
      else Fin (Qred (a / b))
  | Fin _, Inf _ => Fin 0
  | Inf s, Fin b => Inf (xorb s (Qltb b 0))
  | Inf _, Inf _ => NaN
  end.

Definition abs (x : t) : t :=
  match x with
  | Fin a => Fin (Qred (Qabs a))
  | NaN => NaN
  | Inf _ => Inf false
  end.

(** [x.pow(2)] *)
Definition pow2 (x : t) : t := times x x.

(** Square root of a rational, truncated at 20 decimal places
    (decimal.js keeps 20 significant digits). *)
Definition Qsqrt (q : Q) : Q :=
  let scale := (10 ^ 20)%Z in
  Qred (Z.sqrt (Qfloor (q * inject_Z (scale * scale))) # Z.to_pos scale).

Definition sqrt (x : t) : t :=
  match x with
  | Fin a => if Qltb a 0 then NaN else Fin (Qsqrt a)
  | NaN => NaN
  | Inf false => Inf false
  | Inf true => NaN
  end.

Definition isZero (x : t) : bool :=
  match x with
  | Fin a => Qzerob a
  | _ => false
  end.

(** Comparisons: every comparison with [NaN] is false. *)
Definition lessThan (x y : t) : bool :=
  match x, y with
  | NaN, _ | _, NaN => false
  | Fin a, Fin b => Qltb a b
  | Fin _, Inf s => negb s
  | Inf s, Fin _ => s
  | Inf s, Inf s' => s && negb s'
  end.

Definition equals (x y : t) : bool :=
  match x, y with
  | Fin a, Fin b => Qeq_bool a b
  | Inf s, Inf s' => Bool.eqb s s'
  | _, _ => false
  end.

Definition greaterThan (x y : t) : bool := lessThan y x.
Definition lessThanOrEqualTo (x y : t) : bool := lessThan x y || equals x y.
Definition greaterThanOrEqualTo (x y : t) : bool := lessThan y x || equals x y.

(** [Decimal.max(...xs)] and [Decimal.min(...xs)]: no argument is an
    invalid argument; a [NaN] argument gives [NaN]. *)
Definition pick (keep_left : t -> t -> bool) (x y : t) : t :=
  match x, y with
  | NaN, _ | _, NaN => NaN
  | _, _ => if keep_left x y then x else y
  end.

Definition max (xs : list t) : Result t :=
  match xs with
  | [] => Throw InvalidArgument
  | x :: xs' => Ok (fold_left (pick (fun a b => negb (lessThan a b))) xs' x)
  end.

Definition min (xs : list t) : Result t :=
  match xs with
  | [] => Throw InvalidArgument
  | x :: xs' => Ok (fold_left (pick (fun a b => negb (lessThan b a))) xs' x)
  end.

(** [xs.reduce((sum, x) => sum.plus(x), new Decimal(0))] *)
Definition sum (xs : list t) : t := fold_left plus xs (Fin 0).

End Dec.

Abbreviation Decimal := Dec.t.
Coercion Dec.Fin : Q >-> Dec.t.

(** ** TechnicalIndicators *)

Record PriceData := {
  high : Decimal;
  low : Decimal;
  close : Decimal;
  volume : Decimal;
  timestamp : Z
}.

Inductive Direction := LONG | SHORT.
Inductive EMAStack := BULLISH | BEARISH | SIDEWAYS.
Inductive PriceStructure := HIGHER_HIGHS | LOWER_LOWS | CHOPPY.

Module TechnicalIndicators.

Definition calculateAverageVolume (prices : list PriceData) (periods : nat)
  : Result Decimal :=
  if (length prices <? periods)%nat
  then Throw (InsufficientData "periods")
  else
    let recentPrices := slice_last periods prices in
    let totalVolume :=
      fold_left (fun sum p => Dec.plus sum (volume p)) recentPrices (Dec.Fin 0) in
    Ok (Dec.dividedBy totalVolume (Dec.ofNat periods)).

Definition isVolumeSpike (currentVolume averageVolume multiplier : Decimal) : bool :=
  Dec.greaterThan currentVolume (Dec.times averageVolume multiplier).

(** [changes[i-1] = prices[i].close - prices[i-1].close] for [1 <= i < length]. *)
Fixpoint closeChanges (prices : list PriceData) : list Decimal :=
  match prices with
  | p :: (p' :: _) as rest => Dec.minus (close p') (close p) :: closeChanges rest
  | _ => []
  end.

Definition calculateRSI (prices : list PriceData) (periods : nat) : Result Decimal :=
  if (length prices <? periods + 1)%nat
  then Throw (InsufficientData "RSI")
  else
    let changes := closeChanges prices in
    let recentChanges := slice_last periods changes in
    let gains := filter (fun c => Dec.greaterThan c (Dec.Fin 0) = true) recentChanges in
    let losses :=
      map Dec.abs (filter (fun c => Dec.lessThan c (Dec.Fin 0) = true) recentChanges) in
    let totalGain := Dec.sum gains in
    let totalLoss := Dec.sum losses in
    let avgGain := Dec.dividedBy totalGain (Dec.ofNat periods) in
    let avgLoss := Dec.dividedBy totalLoss (Dec.ofNat periods) in
    if Dec.isZero avgLoss
    then Ok (Dec.Fin 100)
    else
      let rs := Dec.dividedBy avgGain avgLoss in
      Ok (Dec.minus (Dec.Fin 100)
            (Dec.dividedBy (Dec.Fin 100) (Dec.plus rs (Dec.Fin 1)))).

Definition calculateSMA (prices : list Decimal) (periods : nat) : Result Decimal :=
  if (length prices <? periods)%nat
  then Throw (InsufficientData "SMA")
  else
    let recentPrices := slice_last periods prices in
    Ok (Dec.dividedBy (Dec.sum recentPrices) (Dec.ofNat periods)).

Definition calculateEMA (prices : list Decimal) (periods : nat) : Result Decimal :=
  if (length prices <? periods)%nat
  then Throw (InsufficientData "EMA")
  else
    let multiplier := Dec.dividedBy (Dec.Fin 2) (Dec.ofNat (periods + 1)) in
    ema0 ← calculateSMA (slice 0 periods prices) periods;
    Ok (fold_left
          (fun ema p =>
             Dec.plus (Dec.times p multiplier)
                      (Dec.times ema (Dec.minus (Dec.Fin 1) multiplier)))
          (drop periods prices) ema0).

Record BollingerBands := {
  upper : Decimal;
  middle : Decimal;
  lower : Decimal
}.

Definition calculateBollingerBands (prices : list Decimal) (periods : nat)
    (stdDev : Decimal) : Result BollingerBands :=
  if (length prices <? periods)%nat
  then Throw (InsufficientData "Bollinger Bands")
  else
    sma ← calculateSMA prices periods;
    let recentPrices := slice_last periods prices in
    let squaredDiffs := map (fun p => Dec.pow2 (Dec.minus p sma)) recentPrices in
    let variance := Dec.dividedBy (Dec.sum squaredDiffs) (Dec.ofNat periods) in
    let standardDeviation := Dec.sqrt variance in
    Ok {| upper := Dec.plus sma (Dec.times standardDeviation stdDev);
          middle := sma;
          lower := Dec.minus sma (Dec.times standardDeviation stdDev) |}.

Definition detectPriceStructure (prices : list PriceData) (lookback : nat)
  : Result PriceStructure :=
  if (length prices <? lookback * 2)%nat
  then Ok CHOPPY
  else
    let recentPrices := slice_last (lookback * 2) prices in
    let firstHalf := slice 0 lookback recentPrices in
    let secondHalf := drop lookback recentPrices in
    firstHigh ← Dec.max (map high firstHalf);
    firstLow ← Dec.min (map low firstHalf);
    secondHigh ← Dec.max (map high secondHalf);
    secondLow ← Dec.min (map low secondHalf);
    if Dec.greaterThan secondHigh firstHigh && Dec.greaterThan secondLow firstLow
    then Ok HIGHER_HIGHS
    else if Dec.lessThan secondHigh firstHigh && Dec.lessThan secondLow firstLow
    then Ok LOWER_LOWS
    else Ok CHOPPY.

Record MACD := {
  macd : Decimal;
  signal : Decimal;
  histogram : Decimal
}.

Definition calculateMACD (prices : list Decimal)
    (fastPeriod slowPeriod signalPeriod : nat) : Result MACD :=
  if (length prices <? slowPeriod + signalPeriod)%nat
  then Throw (InsufficientData "MACD")
  else
    fastEMA ← calculateEMA prices fastPeriod;
    slowEMA ← calculateEMA prices slowPeriod;
    let macdLine := Dec.minus fastEMA slowEMA in
    macdValues ←
      mapR (fun i =>
              let subPrices := slice 0 i prices in
              fast ← calculateEMA subPrices fastPeriod;
              slow ← calculateEMA subPrices slowPeriod;
              Ok (Dec.minus fast slow))
           (seq slowPeriod (length prices + 1 - slowPeriod));
    signalLine ←
      (if (signalPeriod <=? length macdValues)%nat
       then calculateEMA macdValues signalPeriod
       else Ok macdLine);
    Ok {| macd := macdLine;
          signal := signalLine;
          histogram := Dec.minus macdLine signalLine |}.

Record Stochastic := {
  k : Decimal;
  d : Decimal
}.

(** The loop starts at [i = kPeriod - 1]; with [kPeriod = 0] its first
    window [prices.slice(0, 0)] is empty and [Decimal.max()] throws. *)
Definition calculateStochastic (prices : list PriceData) (kPeriod dPeriod : nat)
  : Result Stochastic :=
  if (length prices <? kPeriod + dPeriod)%nat
  then Throw (InsufficientData "Stochastic")
  else
    match kPeriod with
    | O => Throw InvalidArgument
    | S k0 =>
        kValues ←
          mapR (fun i =>
                  let periodPrices := slice (i - k0) (i + 1) prices in
                  highest ← Dec.max (map high periodPrices);
                  lowest ← Dec.min (map low periodPrices);
                  match last periodPrices with
                  | None => Throw TypeError
                  | Some lastPrice =>
                      let currentClose := close lastPrice in
                      let range := Dec.minus highest lowest in
                      Ok (if Dec.isZero range
                          then Dec.Fin 50
                          else Dec.times
                                 (Dec.dividedBy (Dec.minus currentClose lowest) range)
                                 (Dec.Fin 100))
                  end)
               (seq k0 (length prices - k0));
        match last kValues with
        | None => Throw TypeError
        | Some currentK =>
            let recentKs := slice_last dPeriod kValues in
            Ok {| k := currentK;
                  d := Dec.dividedBy (Dec.sum recentKs) (Dec.ofNat dPeriod) |}
        end
    end.

Definition detectEMAStack (prices : list Decimal) : Result EMAStack :=
  if (length prices <? 200)%nat
  then Ok SIDEWAYS
  else
    ema20 ← calculateEMA prices 20;
    ema50 ← calculateEMA prices 50;
    ema200 ← calculateEMA prices 200;
    if Dec.greaterThan ema20 ema50 && Dec.greaterThan ema50 ema200
    then Ok BULLISH
    else if Dec.lessThan ema20 ema50 && Dec.lessThan ema50 ema200
    then Ok BEARISH
    else Ok SIDEWAYS.


(** *** Momentum scorer

    The five sub-scores are the [let xScore = 0; if ... else if ...] blocks of
    [calculateMomentumScore]; each is a JavaScript number literal, added to
    the running [Decimal] total and stored in [components]. *)

Definition rsiScore (direction : Direction) (rsi : Decimal) : Q :=
  match direction with
  | LONG =>
      if Dec.greaterThanOrEqualTo rsi 30 && Dec.lessThanOrEqualTo rsi 50 then 0.20
      else if Dec.greaterThan rsi 50 && Dec.lessThanOrEqualTo rsi 60 then 0.15
      else if Dec.greaterThan rsi 60 && Dec.lessThanOrEqualTo rsi 70 then 0.08
      else if Dec.lessThan rsi 30 then 0.12
      else 0
  | SHORT =>
      if Dec.greaterThanOrEqualTo rsi 50 && Dec.lessThanOrEqualTo rsi 70 then 0.20
      else if Dec.greaterThanOrEqualTo rsi 40 && Dec.lessThan rsi 50 then 0.15
      else if Dec.greaterThanOrEqualTo rsi 30 && Dec.lessThan rsi 40 then 0.08
      else if Dec.greaterThan rsi 70 then 0.12
      else 0
  end.

Definition macdScore (direction : Direction) (m : MACD) : Q :=
  match direction with
  | LONG =>
      if Dec.greaterThan (macd m) (signal m) && Dec.greaterThan (histogram m) 0 then 0.20
      else if Dec.greaterThan (macd m) (signal m) then 0.12
      else if Dec.greaterThan (histogram m) 0 then 0.08
      else 0
  | SHORT =>
      if Dec.lessThan (macd m) (signal m) && Dec.lessThan (histogram m) 0 then 0.20
      else if Dec.lessThan (macd m) (signal m) then 0.12
      else if Dec.lessThan (histogram m) 0 then 0.08
      else 0
  end.

Definition emaScore (direction : Direction)
    (currentPrice ema20 ema50 ema200 : Decimal) : Q :=
  match direction with
  | LONG =>
      let priceAboveEma20 := Dec.greaterThan currentPrice ema20 in
      let ema20AboveEma50 := Dec.greaterThan ema20 ema50 in
      let ema50AboveEma200 := Dec.greaterThan ema50 ema200 in
      if priceAboveEma20 && ema20AboveEma50 && ema50AboveEma200 then 0.25
      else if priceAboveEma20 && ema20AboveEma50 then 0.18
      else if priceAboveEma20 then 0.10
      else 0
  | SHORT =>
      let priceBelowEma20 := Dec.lessThan currentPrice ema20 in
      let ema20BelowEma50 := Dec.lessThan ema20 ema50 in
      let ema50BelowEma200 := Dec.lessThan ema50 ema200 in
      if priceBelowEma20 && ema20BelowEma50 && ema50BelowEma200 then 0.25
      else if priceBelowEma20 && ema20BelowEma50 then 0.18
      else if priceBelowEma20 then 0.10
      else 0
  end.

Definition bbScore (direction : Direction) (pricePosition : Decimal) : Q :=
  match direction with
  | LONG =>
      if Dec.lessThanOrEqualTo pricePosition 0.3 then 0.15
      else if Dec.lessThanOrEqualTo pricePosition 0.5 then 0.10
      else if Dec.lessThanOrEqualTo pricePosition 0.7 then 0.05
      else 0
  | SHORT =>
      if Dec.greaterThanOrEqualTo pricePosition 0.7 then 0.15
      else if Dec.greaterThanOrEqualTo pricePosition 0.5 then 0.10
      else if Dec.greaterThanOrEqualTo pricePosition 0.3 then 0.05
      else 0
  end.

Definition stochScore (direction : Direction) (s : Stochastic) : Q :=
  match direction with
  | LONG =>
      if Dec.greaterThan (k s) (d s) && Dec.lessThan (k s) 80 then
        if Dec.lessThan (k s) 30 then 0.20
        else if Dec.lessThan (k s) 50 then 0.15
        else 0.08
      else if Dec.lessThan (k s) 30 then 0.10
      else 0
  | SHORT =>
      if Dec.lessThan (k s) (d s) && Dec.greaterThan (k s) 20 then
        if Dec.greaterThan (k s) 70 then 0.20
        else if Dec.greaterThan (k s) 50 then 0.15
        else 0.08
      else if Dec.greaterThan (k s) 70 then 0.10
      else 0
  end.

Record MomentumScore := {
  score : Decimal;
  components : list (string * Q)
}.

(** [closePrices[closePrices.length - 1]] may be [undefined]; calling a
    method on it is a [TypeError]. *)
Definition defined {A} (x : option A) : Result A :=
  match x with
  | Some a => Ok a
  | None => Throw TypeError
  end.

Definition calculateMomentumScore (prices : list PriceData) (direction : Direction)
  : Result MomentumScore :=
  if (length prices <? 200)%nat
  then Ok {| score := Dec.Fin 0; components := [] |}
  else
    let closePrices := map close prices in
    let currentPrice := last closePrices in
    let totalScore := Dec.Fin 0 in
    (* 1. RSI position *)
    rsi ← calculateRSI prices 14;
    let rsiS := rsiScore direction rsi in
    let totalScore := Dec.plus totalScore (Dec.Fin rsiS) in
    (* 2. MACD alignment *)
    m ← calculateMACD closePrices 12 26 9;
    let macdS := macdScore direction m in
    let totalScore := Dec.plus totalScore (Dec.Fin macdS) in
    (* 3. EMA alignment *)
    ema20 ← calculateEMA closePrices 20;
    ema50 ← calculateEMA closePrices 50;
    ema200 ← calculateEMA closePrices 200;
    price ← defined currentPrice;
    let emaS := emaScore direction price ema20 ema50 ema200 in
    let totalScore := Dec.plus totalScore (Dec.Fin emaS) in
    (* 4. Bollinger band position *)
    bollinger ← calculateBollingerBands closePrices 20 (Dec.Fin 2);
    let bbRange := Dec.minus (upper bollinger) (lower bollinger) in
    let pricePosition := Dec.dividedBy (Dec.minus price (lower bollinger)) bbRange in
    let bbS := bbScore direction pricePosition in
    let totalScore := Dec.plus totalScore (Dec.Fin bbS) in
    (* 5. Stochastic momentum *)
    stochastic ← calculateStochastic prices 14 3;
    let stochS := stochScore direction stochastic in
    let totalScore := Dec.plus totalScore (Dec.Fin stochS) in
    Ok {| score := totalScore;
          components := [("rsi", rsiS); ("macd", macdS); ("ema", emaS);
                         ("bollinger", bbS); ("stochastic", stochS)] |}.


(** *** Support, resistance, true range and the moving-average trend *)

Definition calculateResistance (prices : list PriceData) (lookbackPeriod : nat)
  : Result Decimal :=
  if (length prices <? lookbackPeriod)%nat
  then Throw (InsufficientData "periods")
  else
    let recentPrices := slice_last lookbackPeriod prices in
    let highs := map high recentPrices in
    Dec.max highs.

Definition calculateSupport (prices : list PriceData) (lookbackPeriod : nat)
  : Result Decimal :=
  if (length prices <? lookbackPeriod)%nat
  then Throw (InsufficientData "periods")
  else
    let recentPrices := slice_last lookbackPeriod prices in
    let lows := map low recentPrices in
    Dec.min lows.

(** [trueRanges[i-1] = max(high - low, |high - prevClose|, |low - prevClose|)]
    for [1 <= i < length]. *)
Fixpoint trueRanges (prices : list PriceData) : Result (list Decimal) :=
  match prices with
  | prev :: (cur :: _) as rest =>
      let prevClose := close prev in
      let tr1 := Dec.minus (high cur) (low cur) in
      let tr2 := Dec.abs (Dec.minus (high cur) prevClose) in
      let tr3 := Dec.abs (Dec.minus (low cur) prevClose) in
      tr ← Dec.max [tr1; tr2; tr3];
      trs ← trueRanges rest;
      Ok (tr :: trs)
  | _ => Ok []
  end.

Definition calculateATR (prices : list PriceData) (periods : nat) : Result Decimal :=
  if (length prices <? periods + 1)%nat
  then Throw (InsufficientData "ATR")
  else
    trs ← trueRanges prices;
    let recentTRs := slice_last periods trs in
    Ok (Dec.dividedBy (Dec.sum recentTRs) (Dec.ofNat periods)).

Module Breakout.
Inductive t := BULLISH | BEARISH.
End Breakout.

(** [1 + buffer] and [1 - buffer] are JavaScript number arithmetic, computed
    on rationals here; for the default buffer 0.001 the doubles print as
    1.001 and 0.999. *)
Definition detectBreakout (currentPrice resistance support : Decimal) (buffer : Q)
  : option Breakout.t :=
  let resistanceWithBuffer := Dec.times resistance (Dec.Fin (Qred (1 + buffer))) in
  let supportWithBuffer := Dec.times support (Dec.Fin (Qred (1 - buffer))) in
  if Dec.greaterThan currentPrice resistanceWithBuffer then Some Breakout.BULLISH
  else if Dec.lessThan currentPrice supportWithBuffer then Some Breakout.BEARISH
  else None.

Module Trend.
Inductive t := UPTREND | DOWNTREND | SIDEWAYS.
End Trend.

Definition detectTrend (prices : list PriceData) (shortPeriod longPeriod : nat)
  : Result Trend.t :=
  if (length prices <? longPeriod)%nat
  then Ok Trend.SIDEWAYS
  else
    let closePrices := map close prices in
    ma20 ← calculateSMA (slice_last shortPeriod closePrices) shortPeriod;
    ma50 ← calculateSMA (slice_last longPeriod closePrices) longPeriod;
    (* hysteresis to avoid flip-flopping (0.2% threshold) *)
    let threshold := Dec.times ma50 (Dec.Fin 0.002) in
    if Dec.greaterThan ma20 (Dec.plus ma50 threshold) then Ok Trend.UPTREND
    else if Dec.lessThan ma20 (Dec.minus ma50 threshold) then Ok Trend.DOWNTREND
    else Ok Trend.SIDEWAYS.

(** [detectTrend(prices)] and [detectPriceStructure(prices)] with their
    default periods 20, 50 and 10. *)
Definition isTrendConfirmed (prices : list PriceData) (expectedTrend : Trend.t)
  : Result bool :=
  maTrend ← detectTrend prices 20 50;
  structure ← detectPriceStructure prices 10;
  match expectedTrend with
  | Trend.UPTREND =>
      Ok (match maTrend, structure with
          | Trend.UPTREND, HIGHER_HIGHS => true
          | _, _ => false
          end)
  | _ =>
      Ok (match maTrend, structure with
          | Trend.DOWNTREND, LOWER_LOWS => true
          | _, _ => false
          end)
  end.

End TechnicalIndicators.

(** ** EnclaveClient: order-status mapping *)

Inductive OrderSide := BUY | SELL.
Inductive OrderType := MARKET | LIMIT | STOP | STOP_LIMIT.
Inductive OrderStatus :=
  | PENDING | OPEN | FILLED | PARTIALLY_FILLED | CANCELLED | REJECTED.

Module MarketData.
Record t := {
  symbol : string;
  bid : Decimal;
  ask : Decimal;
  last : Decimal;
  volume24h : Decimal;
  high24h : Decimal;
  low24h : Decimal;
  timestamp : Z
}.
End MarketData.

Module EnclaveClient.

(** [String.prototype.toLowerCase] on the ASCII letters; every recognised
    status is an ASCII word without [k], so no other code point can lower
    to one of them. *)
Definition lowerAscii (c : ascii) : ascii :=
  let n := nat_of_ascii c in
  if ((65 <=? n) && (n <=? 90))%nat then ascii_of_nat (n + 32) else c.

Fixpoint toLowerCase (s : string) : string :=
  match s with
  | EmptyString => EmptyString
  | String c s' => String (lowerAscii c) (toLowerCase s')
  end.

Definition isOneOf (s : string) (cases : list string) : bool :=
  existsb (String.eqb s) cases.

Definition statusOpen : list string := ["open"; "new"; "pending"].
Definition statusFilled : list string :=
  ["filled"; "fullyfilled"; "fully_filled"; "complete"; "completed"; "executed"].
Definition statusPartiallyFilled : list string :=
  ["partiallyfilled"; "partially_filled"; "partial"].
Definition statusCancelled : list string := ["cancelled"; "canceled"].
Definition statusRejected : list string := ["rejected"; "failed"].

(** [status?.toLowerCase() || ''] *)
Definition normalizeStatus (status : option string) : string :=
  match status with
  | Some s => toLowerCase s
  | None => ""
  end.

(** Returns the mapped status and whether the
    [Unknown order status ... treating as FILLED] warning was logged. *)
Definition mapOrderStatus (status : option string) : OrderStatus * bool :=
  let normalizedStatus := normalizeStatus status in
  if isOneOf normalizedStatus statusOpen then (OPEN, false)
  else if isOneOf normalizedStatus statusFilled then (FILLED, false)
  else if isOneOf normalizedStatus statusPartiallyFilled then (PARTIALLY_FILLED, false)
  else if isOneOf normalizedStatus statusCancelled then (CANCELLED, false)
  else if isOneOf normalizedStatus statusRejected then (REJECTED, false)
  else (FILLED, true).


(** *** Orders as the gateway reports them *)

(** One element of the [/v1/perps/orders] answer.  A numeric field is [None]
    when it is missing or falsy, and otherwise what [new Decimal] makes of
    it: a decimal, or the exception it throws on a malformed value.  A
    missing [market], [side] or [type] is the empty string, which equals no
    market and no keyword. *)
Module RawOrder.
Record t := {
  orderId : string;
  market : string;
  side : string;
  type : string;
  price : option (Result Decimal);
  size : option (Result Decimal);
  status : option string;
  filledSize : option (Result Decimal);
  averagePrice : option (Result Decimal)
}.
End RawOrder.

(** The [Order] of [types.ts], without its timestamp. *)
Module Parsed.
Record t := {
  id : string;
  symbol : string;
  side : OrderSide;
  type : OrderType;
  price : option Decimal;
  quantity : Decimal;
  status : OrderStatus;
  filledQuantity : option Decimal;
  averagePrice : option Decimal
}.
End Parsed.

(** [field ? new Decimal(field) : undefined] *)
Definition optionalDecimal (field : option (Result Decimal)) : Result (option Decimal) :=
  match field with
  | Some parsed => value ← parsed; Ok (Some value)
  | None => Ok None
  end.

Definition parseOrder (data : RawOrder.t) : Result Parsed.t :=
  price ← optionalDecimal (RawOrder.price data);
  quantity ← match RawOrder.size data with
             | Some parsed => parsed
             | None => Ok (Dec.Fin 0)
             end;
  filledQuantity ← optionalDecimal (RawOrder.filledSize data);
  averagePrice ← optionalDecimal (RawOrder.averagePrice data);
  Ok {| Parsed.id := RawOrder.orderId data;
        Parsed.symbol := RawOrder.market data;
        Parsed.side := if String.eqb (RawOrder.side data) "buy" then BUY else SELL;
        Parsed.type := if String.eqb (RawOrder.type data) "limit" then LIMIT else MARKET;
        Parsed.price := price;
        Parsed.quantity := quantity;
        Parsed.status := fst (mapOrderStatus (RawOrder.status data));
        Parsed.filledQuantity := filledQuantity;
        Parsed.averagePrice := averagePrice |}.

(** [order.status === 'OPEN' || ... 'PENDING' || ... 'PARTIALLY_FILLED'] *)
Definition trulyOpen (order : Parsed.t) : bool :=
  match Parsed.status order with
  | OPEN | PENDING | PARTIALLY_FILLED => true
  | _ => false
  end.

(** [response] is the outcome of the HTTP request: an exception, or
    [response.data.result] when [success] is set and the result is an array
    ([None] otherwise).  An empty [symbol] is falsy and filters nothing. *)
Definition getOpenOrders (response : Result (option (list RawOrder.t)))
    (symbol : option string) : Result (list Parsed.t) :=
  data ← response;
  orders ← match data with
           | Some result => mapR parseOrder result
           | None => Ok []
           end;
  let orders :=
    match symbol with
    | Some symbol =>
        if String.eqb symbol "" then orders
        else List.filter (fun order => String.eqb (Parsed.symbol order) symbol) orders
    | None => orders
    end in
  Ok (List.filter trulyOpen orders).

(** *** Reconnection *)

Definition maxReconnectAttempts : nat := 100.

(** [reconnect()]: the new value of [reconnectAttempts] and the delay of the
    timer it sets, if it sets one.  [1000 * Math.pow(2, n)] is exact for
    [n <= 100]. *)
Definition reconnect (reconnectAttempts : nat) : nat * option Z :=
  if (maxReconnectAttempts <=? reconnectAttempts)%nat
  then (reconnectAttempts, None)
  else
    let reconnectAttempts := S reconnectAttempts in
    let delay := Z.min (1000 * 2 ^ Z.of_nat reconnectAttempts) 30000 in
    (reconnectAttempts, Some delay).

(** The two socket events that touch [reconnectAttempts]: ['open'] resets
    it, ['close'] calls [reconnect]. *)
Inductive SocketEvent := SocketOpen | SocketClose.

Definition onSocketEvent (reconnectAttempts : nat) (event : SocketEvent)
  : nat * option Z :=
  match event with
  | SocketOpen => (0%nat, None)
  | SocketClose => reconnect reconnectAttempts
  end.

(** *** The market-data cache fed by the WebSocket *)

(** One element of a [topOfBooksPerps] update: the best bid and ask are
    [None] when [item.bids?.[0]] (resp. asks) is missing, and otherwise what
    [new Decimal] makes of the price. *)
Record TopOfBookItem := {
  itemMarket : string;
  bestBid : option (Result Decimal);
  bestAsk : option (Result Decimal);
  time : Z
}.

(** One element of a [tradesPerps] update. *)
Record TradeItem := {
  tradeMarket : string;
  tradePrice : Result Decimal;
  tradeSize : Result Decimal
}.

Inductive Message :=
  | Pong
  | TopOfBooksUpdate (data : list TopOfBookItem)
  | TradesUpdate (data : list TradeItem)
  | OtherMessage.

Definition MarketDataCache := gmap string MarketData.t.

(** [item.bids?.[0] ? new Decimal(item.bids[0][0]) : new Decimal('0')] *)
Definition bestOrZero (best : option (Result Decimal)) : Result Decimal :=
  match best with
  | Some parsed => parsed
  | None => Ok (Dec.Fin 0)
  end.

(** The loops below stop at the first exception, which the ['message']
    handler catches; the cache keeps what was written before it. *)
Fixpoint handleTopOfBookUpdate (data : list TopOfBookItem) (cache : MarketDataCache)
  : MarketDataCache :=
  match data with
  | [] => cache
  | item :: rest =>
      let existing := cache !! itemMarket item in
      let entry :=
        bid ← bestOrZero (bestBid item);
        ask ← bestOrZero (bestAsk item);
        last ← match existing with
               | Some md => Ok (MarketData.last md)
               | None => bestOrZero (bestBid item)
               end;
        Ok {| MarketData.symbol := itemMarket item;
              MarketData.bid := bid;
              MarketData.ask := ask;
              MarketData.last := last;
              MarketData.volume24h :=
                from_option MarketData.volume24h (Dec.Fin 0) existing;
              MarketData.high24h :=
                from_option MarketData.high24h (Dec.Fin 0) existing;
              MarketData.low24h :=
                from_option MarketData.low24h (Dec.Fin 0) existing;
              MarketData.timestamp := time item |} in
      match entry with
      | Ok md => handleTopOfBookUpdate rest (<[itemMarket item := md]> cache)
      | Throw _ => cache
      end
  end.

Definition withLast (last : Decimal) (md : MarketData.t) : MarketData.t :=
  {| MarketData.symbol := MarketData.symbol md;
     MarketData.bid := MarketData.bid md;
     MarketData.ask := MarketData.ask md;
     MarketData.last := last;
     MarketData.volume24h := MarketData.volume24h md;
     MarketData.high24h := MarketData.high24h md;
     MarketData.low24h := MarketData.low24h md;
     MarketData.timestamp := MarketData.timestamp md |}.

Definition withVolume24h (volume24h : Decimal) (md : MarketData.t) : MarketData.t :=
  {| MarketData.symbol := MarketData.symbol md;
     MarketData.bid := MarketData.bid md;
     MarketData.ask := MarketData.ask md;
     MarketData.last := MarketData.last md;
     MarketData.volume24h := volume24h;
     MarketData.high24h := MarketData.high24h md;
     MarketData.low24h := MarketData.low24h md;
     MarketData.timestamp := MarketData.timestamp md |}.

(** The cached object is updated in place: [last] first, then
    [volume24h]. *)
Fixpoint handleTradesUpdate (data : list TradeItem) (cache : MarketDataCache)
  : MarketDataCache :=
  match data with
  | [] => cache
  | trade :: rest =>
      match cache !! tradeMarket trade with
      | Some existing =>
          match tradePrice trade with
          | Ok price =>
              let existing := withLast price existing in
              match tradeSize trade with
              | Ok size =>
                  let existing :=
                    withVolume24h (Dec.plus (MarketData.volume24h existing) size)
                                  existing in
                  handleTradesUpdate rest (<[tradeMarket trade := existing]> cache)
              | Throw _ => <[tradeMarket trade := existing]> cache
              end
          | Throw _ => cache
          end
      | None => handleTradesUpdate rest cache
      end
  end.

Definition handleMessage (message : Message) (cache : MarketDataCache)
  : MarketDataCache :=
  match message with
  | Pong => cache
  | TopOfBooksUpdate data => handleTopOfBookUpdate data cache
  | TradesUpdate data => handleTradesUpdate data cache
  | OtherMessage => cache
  end.

(** [getMarketData] as far as the cache answers it: the entry, unless its
    last price is zero. *)
Definition cachedMarketData (cache : MarketDataCache) (symbol : string)
  : option MarketData.t :=
  match cache !! symbol with
  | Some cached => if negb (Dec.isZero (MarketData.last cached)) then Some cached else None
  | None => None
  end.

End EnclaveClient.

(** ** Exchange types *)

Module Position.
Record t := {
  symbol : string;
  side : OrderSide;
  quantity : Decimal;
  entryPrice : Decimal;
  markPrice : Decimal
}.
End Position.

Module Order.
Record t := {
  id : string;
  symbol : string;
  side : OrderSide;
  type : OrderType
}.
End Order.

(** ** BreakoutStrategy: data *)

Inductive SignalReason :=
  | Momentum (direction : Direction) (score : Decimal) (trend : EMAStack)
             (volumeRatio : Decimal) (structure : PriceStructure)
  | ExistingPositionOnRestart.

Module Signal.
Record t := {
  symbol : string;
  side : OrderSide;
  entryPrice : Decimal;
  stopLoss : Decimal;
  takeProfit : option Decimal;
  confidence : Decimal;
  reason : SignalReason
}.

(** [signal.stopLoss = v] *)
Definition setStopLoss (v : Decimal) (s : t) : t :=
  {| symbol := symbol s; side := side s; entryPrice := entryPrice s;
     stopLoss := v; takeProfit := takeProfit s; confidence := confidence s;
     reason := reason s |}.
End Signal.

Module TrailingStop.
Record t := {
  high : Decimal;
  stop : Decimal
}.
End TrailingStop.

(** One record of [data/trailing_stops.json].  [high] and [stop] are the
    decimals the stored strings denote, [None] for a string [new Decimal]
    rejects; [updatedAt] is written and never read back. *)
Module Persisted.
Record t := {
  high : option Decimal;
  stop : option Decimal;
  partialProfitTaken : bool
}.
End Persisted.

Inductive TrailingStopsFile :=
  | NoFile
  | Unreadable
  | Contents (state : list (string * Persisted.t)).

Record BreakoutConfig := {
  positionSize : Decimal;
  takeProfitPercent : option Q
}.

Record Strategy := {
  config : BreakoutConfig;
  priceHistory : gmap string (list PriceData);
  activeSignals : gmap string Signal.t;
  trailingStops : gmap string TrailingStop.t;
  lossCooldowns : gmap string Z;
  failedSignalCooldowns : gmap string Z;
  lastTrailingStopCheck : gmap string Z;
  positionOpenedAt : gmap string Z;
  partialProfitTaken : gmap string bool
}.

(** What the bot did to the outside world, oldest first. *)
Inductive Event :=
  | OrderPlaced (symbol : string) (side : OrderSide) (quantity : Decimal)
                (type : OrderType) (price : option Decimal)
  | OrderCancelled (id : string)
  | PositionClosed (symbol : string) (reason : string).

Record World := {
  bot : Strategy;
  disk : TrailingStopsFile;
  effects : nat;
  journal : list Event
}.

(** Answers of the gateway, the clock and the file system to the [n]-th
    effect of an operation. *)
Record Env := {
  dateNow : nat -> Z;
  getPositions : nat -> Result (list Position.t);
  getOpenOrders : nat -> Result (list Order.t);
  addOrder : nat -> Result string;
  cancelOrder : nat -> bool;
  writeFileSync : nat -> bool
}.

(** ** The effect monad *)

Definition M (A : Type) : Type := World -> Result A * World.

#[global] Instance M_ret : MRet M := fun A a w => (Ok a, w).
#[global] Instance M_bind : MBind M := fun A B f m w =>
  match m w with
  | (Ok a, w') => f a w'
  | (Throw e, w') => (Throw e, w')
  end.

(** [try { m } catch { handler }] *)
Definition tryCatch {A} (m : M A) (handler : M A) : M A := fun w =>
  match m w with
  | (Ok a, w') => (Ok a, w')
  | (Throw _, w') => handler w'
  end.

Definition liftR {A} (r : Result A) : M A := fun w => (r, w).

Definition getBot : M Strategy := fun w => (Ok (bot w), w).

Definition modifyBot (f : Strategy -> Strategy) : M unit := fun w =>
  (Ok tt, {| bot := f (bot w); disk := disk w;
             effects := effects w; journal := journal w |}).

Definition setDisk (f : TrailingStopsFile) : M unit := fun w =>
  (Ok tt, {| bot := bot w; disk := f;
             effects := effects w; journal := journal w |}).

Definition emit (e : Event) : M unit := fun w =>
  (Ok tt, {| bot := bot w; disk := disk w;
             effects := effects w; journal := journal w ++ [e] |}).

(** The index of the next effect. *)
Definition nextEffect : M nat := fun w =>
  (Ok (effects w), {| bot := bot w; disk := disk w;
                      effects := S (effects w); journal := journal w |}).

Fixpoint forEach {A} (xs : list A) (body : A -> M unit) : M unit :=
  match xs with
  | [] => mret tt
  | x :: xs' => _ ← body x; forEach xs' body
  end.

Definition when (b : bool) (m : M unit) : M unit := if b then m else mret tt.

(** Field updates of [Strategy]. *)
Definition withActiveSignals (f : gmap string Signal.t -> gmap string Signal.t)
    (s : Strategy) : Strategy :=
  {| config := config s; priceHistory := priceHistory s;
     activeSignals := f (activeSignals s); trailingStops := trailingStops s;
     lossCooldowns := lossCooldowns s;
     failedSignalCooldowns := failedSignalCooldowns s;
     lastTrailingStopCheck := lastTrailingStopCheck s;
     positionOpenedAt := positionOpenedAt s;
     partialProfitTaken := partialProfitTaken s |}.

Definition withTrailingStops (f : gmap string TrailingStop.t -> gmap string TrailingStop.t)
    (s : Strategy) : Strategy :=
  {| config := config s; priceHistory := priceHistory s;
     activeSignals := activeSignals s; trailingStops := f (trailingStops s);
     lossCooldowns := lossCooldowns s;
     failedSignalCooldowns := failedSignalCooldowns s;
     lastTrailingStopCheck := lastTrailingStopCheck s;
     positionOpenedAt := positionOpenedAt s;
     partialProfitTaken := partialProfitTaken s |}.

Definition withLossCooldowns (f : gmap string Z -> gmap string Z)
    (s : Strategy) : Strategy :=
  {| config := config s; priceHistory := priceHistory s;
     activeSignals := activeSignals s; trailingStops := trailingStops s;
     lossCooldowns := f (lossCooldowns s);
     failedSignalCooldowns := failedSignalCooldowns s;
     lastTrailingStopCheck := lastTrailingStopCheck s;
     positionOpenedAt := positionOpenedAt s;
     partialProfitTaken := partialProfitTaken s |}.

Definition withFailedSignalCooldowns (f : gmap string Z -> gmap string Z)
    (s : Strategy) : Strategy :=
  {| config := config s; priceHistory := priceHistory s;
     activeSignals := activeSignals s; trailingStops := trailingStops s;
     lossCooldowns := lossCooldowns s;
     failedSignalCooldowns := f (failedSignalCooldowns s);
     lastTrailingStopCheck := lastTrailingStopCheck s;
     positionOpenedAt := positionOpenedAt s;
     partialProfitTaken := partialProfitTaken s |}.

Definition withLastTrailingStopCheck (f : gmap string Z -> gmap string Z)
    (s : Strategy) : Strategy :=
  {| config := config s; priceHistory := priceHistory s;
     activeSignals := activeSignals s; trailingStops := trailingStops s;
     lossCooldowns := lossCooldowns s;
     failedSignalCooldowns := failedSignalCooldowns s;
     lastTrailingStopCheck := f (lastTrailingStopCheck s);
     positionOpenedAt := positionOpenedAt s;
     partialProfitTaken := partialProfitTaken s |}.

Definition withPositionOpenedAt (f : gmap string Z -> gmap string Z)
    (s : Strategy) : Strategy :=
  {| config := config s; priceHistory := priceHistory s;
     activeSignals := activeSignals s; trailingStops := trailingStops s;
     lossCooldowns := lossCooldowns s;
     failedSignalCooldowns := failedSignalCooldowns s;
     lastTrailingStopCheck := lastTrailingStopCheck s;
     positionOpenedAt := f (positionOpenedAt s);
     partialProfitTaken := partialProfitTaken s |}.

Definition withPartialProfitTaken (f : gmap string bool -> gmap string bool)
    (s : Strategy) : Strategy :=
  {| config := config s; priceHistory := priceHistory s;
     activeSignals := activeSignals s; trailingStops := trailingStops s;
     lossCooldowns := lossCooldowns s;
     failedSignalCooldowns := failedSignalCooldowns s;
     lastTrailingStopCheck := lastTrailingStopCheck s;
     positionOpenedAt := positionOpenedAt s;
     partialProfitTaken := f (partialProfitTaken s) |}.

Definition withPriceHistory
    (f : gmap string (list PriceData) -> gmap string (list PriceData))
    (s : Strategy) : Strategy :=
  {| config := config s; priceHistory := f (priceHistory s);
     activeSignals := activeSignals s; trailingStops := trailingStops s;
     lossCooldowns := lossCooldowns s;
     failedSignalCooldowns := failedSignalCooldowns s;
     lastTrailingStopCheck := lastTrailingStopCheck s;
     positionOpenedAt := positionOpenedAt s;
     partialProfitTaken := partialProfitTaken s |}.

(** ** BreakoutStrategy: operations *)

Module BreakoutStrategy.

Import TechnicalIndicators.

Definition FAILED_SIGNAL_COOLDOWN_MS : Z := 5 * 60 * 1000.
Definition TAKE_PROFIT_THRESHOLD : Q := 1.3.
Definition TAKE_PROFIT_CLOSE_PERCENT : Q := 100.
Definition STOP_LOSS_PERCENT : Q := 5.
Definition MOMENTUM_THRESHOLD : Q := 0.60.
Definition VOLUME_MULTIPLIER : Q := 1.5.
Definition LOSS_COOLDOWN_MS : Z := 20 * 60 * 1000.

(** [1 - pct / 100] and [1 + pct / 100] are JavaScript number arithmetic; for
    the constants above the doubles print as 0.95, 1.05, 0.987 and 1.013, and
    [new Decimal(number)] reads the printed form. *)
Definition below (pct : Q) : Decimal := Dec.Fin (Qred (1 - pct / 100)).
Definition above (pct : Q) : Decimal := Dec.Fin (Qred (1 + pct / 100)).

Definition getTrailingStopPercent (_symbol : string) : Q := STOP_LOSS_PERCENT.

Definition priceIncrement (symbol : string) : Q :=
  if String.eqb symbol "BTC-USD.P" then 1
  else if String.eqb symbol "ETH-USD.P" then 0.1
  else if String.eqb symbol "SOL-USD.P" then 0.01
  else if String.eqb symbol "AVAX-USD.P" then 0.001
  else if String.eqb symbol "XRP-USD.P" then 0.0001
  else if String.eqb symbol "BNB-USD.P" then 0.01
  else if String.eqb symbol "DOGE-USD.P" then 0.0001
  else if String.eqb symbol "LINK-USD.P" then 0.001
  else if String.eqb symbol "SUI-USD.P" then 0.0001
  else if String.eqb symbol "ARENA-USD.P" then 0.000001
  else if String.eqb symbol "HYPE-USD.P" then 0.001
  else if String.eqb symbol "NXP-USD.P" then 0.001
  else 0.001.

(** [Math.round(price / increment) * increment], computed on rationals. *)
Definition roundToIncrement (price : Decimal) (symbol : string) : Decimal :=
  match price with
  | Dec.Fin q =>
      let increment := priceIncrement symbol in
      Dec.Fin (Qred (inject_Z (Qfloor (q / increment + (1 # 2))) * increment))
  | other => other
  end.

Definition sizeIncrement (symbol : string) : Q :=
  if String.eqb symbol "BTC-USD.P" then 0.001
  else if String.eqb symbol "ETH-USD.P" then 0.01
  else if String.eqb symbol "SOL-USD.P" then 0.1
  else if String.eqb symbol "AVAX-USD.P" then 1
  else if String.eqb symbol "XRP-USD.P" then 1
  else if String.eqb symbol "BNB-USD.P" then 0.01
  else if String.eqb symbol "DOGE-USD.P" then 1
  else if String.eqb symbol "LINK-USD.P" then 0.1
  else if String.eqb symbol "SUI-USD.P" then 1
  else if String.eqb symbol "ARENA-USD.P" then 1
  else if String.eqb symbol "HYPE-USD.P" then 0.1
  else if String.eqb symbol "NXP-USD.P" then 1
  else if String.eqb symbol "TON-USD.P" then 0.1
  else if String.eqb symbol "ADA-USD.P" then 1
  else 1.

(** [Math.floor(quantity / increment) * increment], computed on rationals;
    [null] when the result is not positive. *)
Definition roundToSizeIncrement (quantity : Decimal) (symbol : string)
  : option Decimal :=
  match quantity with
  | Dec.Fin q =>
      let increment := sizeIncrement symbol in
      let rounded := Qred (inject_Z (Qfloor (q / increment)) * increment) in
      if Qle_bool rounded 0 then None else Some (Dec.Fin rounded)
  | Dec.NaN => Some Dec.NaN
  | Dec.Inf true => None
  | Dec.Inf false => Some (Dec.Inf false)
  end.

(** A JavaScript number is truthy unless it is 0 (or NaN). *)
Definition truthyZ (z : Z) : bool := negb (z =? 0)%Z.
Definition truthyQ (q : Q) : bool := negb (Qzerob q).

(** *** Signal generation: the gates over one price window *)

Definition signalFromWindow (symbol : string) (history : list PriceData)
  : Result (option Signal.t) :=
  let closePrices := map close history in
  let currentPrice := last closePrices in
  lastCompleteCandle ← defined (arrayGet history (Z.of_nat (length history) - 2));
  let lastCompleteVolume := volume lastCompleteCandle in
  (* STEP 1: trend detection (EMA stack) *)
  emaStackTrend ← detectEMAStack closePrices;
  match emaStackTrend with
  | SIDEWAYS => Ok None
  | _ =>
      let direction := match emaStackTrend with BULLISH => LONG | _ => SHORT end in
      (* STEP 2: volume confirmation *)
      avgVolume ← calculateAverageVolume (slice_init history) 20;
      let volumeRatio := Dec.dividedBy lastCompleteVolume avgVolume in
      if Dec.lessThan volumeRatio (Dec.Fin VOLUME_MULTIPLIER) then Ok None
      else
        (* STEP 3: momentum score *)
        ms ← calculateMomentumScore history direction;
        if Dec.lessThan (score ms) (Dec.Fin MOMENTUM_THRESHOLD) then Ok None
        else
          (* STEP 4: price structure confirmation *)
          priceStructure ← detectPriceStructure history 10;
          match direction, priceStructure with
          | LONG, LOWER_LOWS => Ok None
          | SHORT, HIGHER_HIGHS => Ok None
          | _, CHOPPY => Ok None
          | _, _ =>
              (* STEP 5: generate signal *)
              let side := match direction with LONG => BUY | SHORT => SELL end in
              entryPrice ← defined currentPrice;
              let stopLoss :=
                match direction with
                | LONG => Dec.times entryPrice (below STOP_LOSS_PERCENT)
                | SHORT => Dec.times entryPrice (above STOP_LOSS_PERCENT)
                end in
              let takeProfit :=
                match direction with
                | LONG => Dec.times entryPrice (above TAKE_PROFIT_THRESHOLD)
                | SHORT => Dec.times entryPrice (below TAKE_PROFIT_THRESHOLD)
                end in
              Ok (Some {| Signal.symbol := symbol;
                          Signal.side := side;
                          Signal.entryPrice := entryPrice;
                          Signal.stopLoss := stopLoss;
                          Signal.takeProfit := Some takeProfit;
                          Signal.confidence := score ms;
                          Signal.reason :=
                            Momentum direction (score ms) emaStackTrend
                                     volumeRatio priceStructure |})
          end
  end.

Section WithEnv.

Variable env : Env.

Definition now : M Z :=
  n ← nextEffect; mret (dateNow env n).

Definition clientGetPositions : M (list Position.t) :=
  n ← nextEffect; liftR (getPositions env n).

Definition clientGetOpenOrders (_symbol : string) : M (list Order.t) :=
  n ← nextEffect; liftR (getOpenOrders env n).

Definition clientAddOrder (symbol : string) (side : OrderSide) (quantity : Decimal)
    (type : OrderType) (price : option Decimal) : M string :=
  n ← nextEffect;
  orderId ← liftR (addOrder env n);
  _ ← emit (OrderPlaced symbol side quantity type price);
  mret orderId.

Definition clientCancelOrder (orderId : string) : M bool :=
  n ← nextEffect;
  let cancelled := cancelOrder env n in
  _ ← when cancelled (emit (OrderCancelled orderId));
  mret cancelled.

(** *** Persistence *)

Definition persistedState (s : Strategy) : list (string * Persisted.t) :=
  map (fun '(symbol, value) =>
         (symbol,
          {| Persisted.high := Some (TrailingStop.high value);
             Persisted.stop := Some (TrailingStop.stop value);
             Persisted.partialProfitTaken :=
               default false (partialProfitTaken s !! symbol) |}))
      (map_to_list (trailingStops s)).

Definition saveTrailingStops : M unit :=
  n ← nextEffect;
  s ← getBot;
  when (writeFileSync env n) (setDisk (Contents (persistedState s))).

Definition removePersistedTrailingStop (symbol : string) : M unit :=
  _ ← modifyBot (withTrailingStops (delete symbol));
  saveTrailingStops.

(** *** generateSignal *)

(** One cooldown check: [true] when the symbol is blocked; an expired
    entry is removed. *)
Definition cooldownBlocks (timestamp : option Z) (duration : Z)
    (expire : M unit) : M bool :=
  match timestamp with
  | Some cooldownTimestamp =>
      if truthyZ cooldownTimestamp then
        t ← now;
        let timeElapsed := (t - cooldownTimestamp)%Z in
        if (timeElapsed <? duration)%Z then mret true
        else (_ ← expire; mret false)
      else mret false
  | None => mret false
  end.

Definition generateSignal (symbol : string) : M (option Signal.t) :=
  s ← getBot;
  match priceHistory s !! symbol with
  | None => mret None
  | Some history =>
      if (length history <? 200)%nat then mret None
      else if bool_decide (is_Some (activeSignals s !! symbol)) then mret None
      else
        blocked ← cooldownBlocks (lossCooldowns s !! symbol) LOSS_COOLDOWN_MS
                    (modifyBot (withLossCooldowns (delete symbol)));
        if blocked : bool then mret None
        else
          blocked ← cooldownBlocks (failedSignalCooldowns s !! symbol)
                      FAILED_SIGNAL_COOLDOWN_MS
                      (modifyBot (withFailedSignalCooldowns (delete symbol)));
          if blocked : bool then mret None
          else tryCatch (liftR (signalFromWindow symbol history)) (mret None)
  end.

(** *** registerExistingPosition *)

Definition oppositeSide (side : OrderSide) : OrderSide :=
  match side with BUY => SELL | SELL => BUY end.

Definition registerExistingPosition (symbol : string) (side : OrderSide)
    (entryPrice quantity : Decimal) : M unit :=
  s ← getBot;
  let trailingStopPct := getTrailingStopPercent symbol in
  let signal :=
    {| Signal.symbol := symbol;
       Signal.side := side;
       Signal.entryPrice := entryPrice;
       Signal.stopLoss :=
         match side with
         | BUY => Dec.times entryPrice (below trailingStopPct)
         | SELL => Dec.times entryPrice (above trailingStopPct)
         end;
       Signal.takeProfit :=
         match takeProfitPercent (config s) with
         | Some pct =>
             if truthyQ pct then
               Some match side with
                    | BUY => Dec.times entryPrice (above pct)
                    | SELL => Dec.times entryPrice (below pct)
                    end
             else None
         | None => None
         end;
       Signal.confidence := Dec.Fin 1;
       Signal.reason := ExistingPositionOnRestart |} in
  _ ← modifyBot (withActiveSignals (insert symbol signal));
  t ← now;
  _ ← modifyBot (withPositionOpenedAt (insert symbol t));
  signal ←
    match trailingStops s !! symbol with
    | Some existingTrailing =>
        (* [signal.stopLoss = existingTrailing.stop] writes to the object
           already stored in [activeSignals] *)
        let persistedStop := TrailingStop.stop existingTrailing in
        _ ← modifyBot (withActiveSignals (alter (Signal.setStopLoss persistedStop) symbol));
        mret (Signal.setStopLoss persistedStop signal)
    | None =>
        _ ← modifyBot (withTrailingStops
                         (insert symbol {| TrailingStop.high := entryPrice;
                                           TrailingStop.stop := Signal.stopLoss signal |}));
        _ ← saveTrailingStops;
        mret signal
    end;
  _ ← tryCatch
        (existingOrders ← clientGetOpenOrders symbol;
         forEach existingOrders
           (fun order => _ ← clientCancelOrder (Order.id order); mret tt))
        (mret tt);
  tryCatch
    (match Signal.takeProfit signal with
     | Some takeProfit =>
         let tpSide := oppositeSide side in
         let tpPrice := roundToIncrement takeProfit symbol in
         _ ← clientAddOrder symbol tpSide quantity LIMIT (Some tpPrice);
         mret tt
     | None => mret tt
     end)
    (mret tt).

(** *** executeSignal *)

Definition findPosition (symbol : string) (positions : list Position.t)
  : option Position.t :=
  find (fun p => String.eqb (Position.symbol p) symbol) positions.

Definition executeSignal (signal : Signal.t) (customQuantity : option Decimal)
  : M unit :=
  let symbol := Signal.symbol signal in
  tryCatch
    (s ← getBot;
     if bool_decide (is_Some (activeSignals s !! symbol)) then mret tt
     else
       blocked ←
         match lossCooldowns s !! symbol with
         | Some cooldownTimestamp =>
             if truthyZ cooldownTimestamp then
               t ← now;
               mret (t - cooldownTimestamp <? LOSS_COOLDOWN_MS)%Z
             else mret false
         | None => mret false
         end;
       if blocked : bool then mret tt
       else
         existingPositions ← clientGetPositions;
         match findPosition symbol existingPositions with
         | Some existingPosition =>
             registerExistingPosition symbol
               (Position.side existingPosition)
               (Position.entryPrice existingPosition)
               (Position.quantity existingPosition)
         | None =>
             (* [!signal.entryPrice || !signal.stopLoss]: a Decimal object is
                always truthy, the guard never fires *)
             let sized :=
               match customQuantity with
               | Some q => Some q
               | None =>
                   let rawQuantity :=
                     Dec.dividedBy (positionSize (config s)) (Signal.entryPrice signal) in
                   roundToSizeIncrement rawQuantity symbol
               end in
             match sized with
             | None => mret tt
             | Some quantity =>
                 (* mark the signal as pending BEFORE order execution *)
                 _ ← modifyBot (withActiveSignals (insert symbol signal));
                 t ← now;
                 _ ← modifyBot (withPositionOpenedAt (insert symbol t));
                 placed ←
                   tryCatch
                     (_ ← clientAddOrder symbol (Signal.side signal) quantity MARKET None;
                      mret true)
                     (_ ← modifyBot (withActiveSignals (delete symbol));
                      _ ← modifyBot (withPositionOpenedAt (delete symbol));
                      t ← now;
                      _ ← modifyBot (withFailedSignalCooldowns (insert symbol t));
                      mret false);
                 if placed : bool then
                   _ ← match Signal.takeProfit signal with
                       | Some takeProfit =>
                           tryCatch
                             (let tpSide := oppositeSide (Signal.side signal) in
                              let tpPrice := roundToIncrement takeProfit symbol in
                              _ ← clientAddOrder symbol tpSide quantity LIMIT (Some tpPrice);
                              mret tt)
                             (mret tt)
                       | None => mret tt
                       end;
                   _ ← modifyBot (withTrailingStops
                                    (insert symbol
                                       {| TrailingStop.high := Signal.entryPrice signal;
                                          TrailingStop.stop := Signal.stopLoss signal |}));
                   saveTrailingStops
                 else mret tt
             end
         end)
    (mret tt).

(** *** closePartialPosition and closePosition *)

Definition closePartialPosition (symbol : string) (position : Position.t)
    (profitPercent : Decimal) : M unit :=
  tryCatch
    (let closeQuantity :=
       Dec.times (Position.quantity position)
                 (Dec.Fin (Qred (TAKE_PROFIT_CLOSE_PERCENT / 100))) in
     if Dec.lessThanOrEqualTo closeQuantity (Dec.Fin 0) then mret tt
     else
       let closeSide := oppositeSide (Position.side position) in
       _ ← clientAddOrder symbol closeSide closeQuantity MARKET None;
       _ ← modifyBot (withPartialProfitTaken (insert symbol true));
       saveTrailingStops)
    (mret tt).

(** The cleanup shared by every confirmed closure. *)
Definition forgetPosition (symbol : string) : M unit :=
  _ ← modifyBot (withActiveSignals (delete symbol));
  _ ← removePersistedTrailingStop symbol;
  _ ← modifyBot (withPartialProfitTaken (delete symbol));
  _ ← modifyBot (withPositionOpenedAt (delete symbol));
  modifyBot (withLastTrailingStopCheck (delete symbol)).

Definition closePosition (symbol : string) (reason : string) : M unit :=
  tryCatch
    (s ← getBot;
     match activeSignals s !! symbol with
     | None => mret tt
     | Some signal =>
         (* cancel all open orders for this symbol FIRST *)
         _ ← tryCatch
               (openOrders ← clientGetOpenOrders symbol;
                forEach openOrders
                  (fun order => _ ← clientCancelOrder (Order.id order); mret tt))
               (mret tt);
         positions ← clientGetPositions;
         _ ← match findPosition symbol positions with
             | Some position =>
                 let closeSide := oppositeSide (Position.side position) in
                 _ ← clientAddOrder symbol closeSide (Position.quantity position)
                                    MARKET None;
                 emit (PositionClosed symbol reason)
             | None => mret tt
             end;
         (* set cooldown ONLY if this was a LOSS (stop loss hit) *)
         _ ← (if String.eqb reason "Stop Loss Hit" then
                t ← now;
                modifyBot (withLossCooldowns (insert symbol t))
              else mret tt);
         forgetPosition symbol
     end)
    (mret tt).

Definition manualClose : string := "Manual Close".

(** *** updateTrailingStops *)

(** [openOrders.some(o => o.type === OrderType.LIMIT)] *)
Definition tpOrderExists (openOrders : list Order.t) : bool :=
  existsb (fun o => match Order.type o with LIMIT => true | _ => false end)
          openOrders.

(** The branch taken when the gateway no longer reports the position. *)
Definition positionGone (symbol : string) (signal : Signal.t) : M unit :=
  openOrders ← clientGetOpenOrders symbol;
  _ ← (if negb (tpOrderExists openOrders)
          && bool_decide (is_Some (Signal.takeProfit signal))
       then
         (* TP order filled: NO cooldown on wins *)
         mret tt
       else
         (* closed for another reason (stop loss, manual close, etc.) *)
         t ← now;
         _ ← modifyBot (withLossCooldowns (insert symbol t));
         forEach openOrders
           (fun order =>
              tryCatch (_ ← clientCancelOrder (Order.id order); mret tt) (mret tt)));
  forgetPosition symbol.

(** [position.markPrice || position.entryPrice]: [markPrice] is a Decimal
    object, always truthy. *)
Definition markOf (position : Position.t) : Decimal := Position.markPrice position.

Definition profitTaken (s : Strategy) (symbol : string) : bool :=
  default false (partialProfitTaken s !! symbol).

(** Trail the stop: upward for a long, downward for a short.  [trailing]
    is the object read at the start of the tick. *)
Definition trailStop (symbol : string) (signal : Signal.t)
    (trailing : TrailingStop.t) (currentPrice : Decimal) : M unit :=
  match Signal.side signal with
  | BUY =>
      (* long position: trail stop upward *)
      if Dec.greaterThan currentPrice (TrailingStop.high trailing) then
        let newHigh := currentPrice in
        let newStop := Dec.times newHigh (below (getTrailingStopPercent symbol)) in
        if Dec.greaterThan newStop (TrailingStop.stop trailing) then
          _ ← modifyBot (withTrailingStops
                           (insert symbol {| TrailingStop.high := newHigh;
                                             TrailingStop.stop := newStop |}));
          saveTrailingStops
        else mret tt
      else mret tt
  | SELL =>
      (* short position: trail stop downward *)
      if Dec.lessThan currentPrice (TrailingStop.high trailing) then
        let newLow := currentPrice in
        let newStop := Dec.times newLow (above (getTrailingStopPercent symbol)) in
        if Dec.lessThan newStop (TrailingStop.stop trailing) then
          _ ← modifyBot (withTrailingStops
                           (insert symbol {| TrailingStop.high := newLow;
                                             TrailingStop.stop := newStop |}));
          saveTrailingStops
        else mret tt
      else mret tt
  end.

(** Check for take profit ([profitPercent >= TAKE_PROFIT_THRESHOLD]). *)
Definition checkTakeProfit (symbol : string) (signal : Signal.t)
    (position : Position.t) (currentPrice : Decimal) : M unit :=
  s ← getBot;
  if negb (profitTaken s symbol) then
    let gain :=
      match Signal.side signal with
      | BUY => Dec.minus currentPrice (Signal.entryPrice signal)
      | SELL => Dec.minus (Signal.entryPrice signal) currentPrice
      end in
    let profitPercent :=
      Dec.times (Dec.dividedBy gain (Signal.entryPrice signal)) (Dec.Fin 100) in
    if Dec.greaterThanOrEqualTo profitPercent (Dec.Fin TAKE_PROFIT_THRESHOLD)
    then closePartialPosition symbol position profitPercent
    else mret tt
  else mret tt.

(** Check if stop hit (long: use < not <=; short: use > not >=). *)
Definition checkStopHit (symbol : string) (signal : Signal.t)
    (trailing : TrailingStop.t) (currentPrice : Decimal) : M unit :=
  match Signal.side signal with
  | BUY =>
      if Dec.lessThan currentPrice (TrailingStop.stop trailing)
      then closePosition symbol "Stop Loss Hit"
      else mret tt
  | SELL =>
      if Dec.greaterThan currentPrice (TrailingStop.stop trailing)
      then closePosition symbol "Stop Loss Hit"
      else mret tt
  end.

(** Check if take profit hit (long: use > not >=; short: use < not <=). *)
Definition checkTakeProfitHit (symbol : string) (signal : Signal.t)
    (currentPrice : Decimal) : M unit :=
  match Signal.takeProfit signal with
  | Some takeProfit =>
      match Signal.side signal with
      | BUY =>
          if Dec.greaterThan currentPrice takeProfit
          then closePosition symbol "Take Profit Hit"
          else mret tt
      | SELL =>
          if Dec.lessThan currentPrice takeProfit
          then closePosition symbol "Take Profit Hit"
          else mret tt
      end
  | None => mret tt
  end.

(** The body of a monitoring tick once the gateway reported the position. *)
Definition monitorPosition (symbol : string) (signal : Signal.t)
    (trailing : TrailingStop.t) (position : Position.t) : M unit :=
  let currentPrice := markOf position in
  t ← now;
  _ ← modifyBot (withLastTrailingStopCheck (insert symbol t));
  _ ← trailStop symbol signal trailing currentPrice;
  _ ← checkTakeProfit symbol signal position currentPrice;
  _ ← checkStopHit symbol signal trailing currentPrice;
  checkTakeProfitHit symbol signal currentPrice.

Definition updateTrailingStops (symbol : string) : M unit :=
  s ← getBot;
  match trailingStops s !! symbol, activeSignals s !! symbol with
  | Some trailing, Some signal =>
      tryCatch
        (positions ← clientGetPositions;
         match findPosition symbol positions with
         | None => positionGone symbol signal
         | Some position => monitorPosition symbol signal trailing position
         end)
        (mret tt)
  | _, _ => mret tt
  end.

End WithEnv.

(** *** Start-up: the constructor and loadTrailingStops *)

Definition emptyStrategy (cfg : BreakoutConfig) : Strategy :=
  {| config := cfg; priceHistory := ∅; activeSignals := ∅; trailingStops := ∅;
     lossCooldowns := ∅; failedSignalCooldowns := ∅; lastTrailingStopCheck := ∅;
     positionOpenedAt := ∅; partialProfitTaken := ∅ |}.

(** The [for ... of Object.entries(state)] loop; [new Decimal] throwing on
    a stored string leaves the loop, keeping what was loaded so far. *)
Fixpoint loadEntries (state : list (string * Persisted.t)) (s : Strategy) : Strategy :=
  match state with
  | [] => s
  | (symbol, value) :: rest =>
      match Persisted.high value, Persisted.stop value with
      | Some high, Some stop =>
          let s1 :=
            withTrailingStops
              (insert symbol {| TrailingStop.high := high; TrailingStop.stop := stop |}) s in
          let s2 :=
            if Persisted.partialProfitTaken value
            then withPartialProfitTaken (insert symbol true) s1
            else s1 in
          loadEntries rest s2
      | _, _ => s
      end
  end.

Definition loadTrailingStops (file : TrailingStopsFile) (s : Strategy) : Strategy :=
  match file with
  | NoFile => s
  | Unreadable => s
  | Contents state => loadEntries state s
  end.

Definition construct (cfg : BreakoutConfig) (file : TrailingStopsFile) : World :=
  {| bot := loadTrailingStops file (emptyStrategy cfg);
     disk := file; effects := 0; journal := [] |}.

Definition initializeWithHistoricalData (symbol : string)
    (historicalData : list PriceData) (w : World) : World :=
  {| bot := withPriceHistory (insert symbol historicalData) (bot w);
     disk := disk w; effects := effects w; journal := journal w |}.


(** *** updatePriceHistory, clearHistory and the health check *)

(** [updatePriceHistory]: [getMarketData] is the gateway's answer,
    [lookbackPeriod] is [this.config.lookbackPeriod]. *)
Definition updatePriceHistory (getMarketData : nat -> Result MarketData.t)
    (lookbackPeriod : nat) (symbol : string) : M unit :=
  tryCatch
    (n ← nextEffect;
     marketData ← liftR (getMarketData n);
     let currentPriceData :=
       {| high := MarketData.high24h marketData;
          low := MarketData.low24h marketData;
          close := MarketData.last marketData;
          volume := MarketData.volume24h marketData;
          timestamp := MarketData.timestamp marketData |} in
     s ← getBot;
     let history := default [] (priceHistory s !! symbol) in
     let history := history ++ [currentPriceData] in
     (* keep only necessary history *)
     let maxHistory := (lookbackPeriod * 2)%nat in
     let history :=
       if (maxHistory <? length history)%nat
       then drop (length history - maxHistory) history
       else history in
     modifyBot (withPriceHistory (insert symbol history)))
    (mret tt).

Definition clearHistory : M unit :=
  _ ← modifyBot (withPriceHistory (fun _ => ∅));
  _ ← modifyBot (withActiveSignals (fun _ => ∅));
  _ ← modifyBot (withTrailingStops (fun _ => ∅));
  _ ← modifyBot (withPositionOpenedAt (fun _ => ∅));
  modifyBot (withLastTrailingStopCheck (fun _ => ∅)).

Definition NEW_POSITION_GRACE_PERIOD_MS : Z := 30 * 1000.
Definition STALE_THRESHOLD_MS : Z := 60 * 1000.

(** What [checkTrailingStopHealth] reports (to the log, and to Telegram when
    it is configured). *)
Inductive HealthAlert :=
  | NeverChecked (symbol : string)
  | ChecksFailed (symbol : string) (minutesStale : Z).

(** One round of the loop over [activeSignals]: the alert flag
    [trailingStopFailureAlerted] and the alerts raised so far. *)
Definition checkSymbolHealth (now : Z) (s : Strategy)
    (state : bool * list HealthAlert) (symbol : string) : bool * list HealthAlert :=
  let '(trailingStopFailureAlerted, alerts) := state in
  (* [!lastCheck]: no entry, or the number 0 *)
  let lastCheck :=
    match lastTrailingStopCheck s !! symbol with
    | Some lastCheck => if truthyZ lastCheck then Some lastCheck else None
    | None => None
    end in
  match lastCheck with
  | None =>
      (* never checked: give new positions a grace period *)
      let graced :=
        match positionOpenedAt s !! symbol with
        | Some openedAt =>
            truthyZ openedAt && (now - openedAt <? NEW_POSITION_GRACE_PERIOD_MS)%Z
        | None => false
        end in
      if graced then (trailingStopFailureAlerted, alerts)
      else if negb trailingStopFailureAlerted
      then (true, alerts ++ [NeverChecked symbol])
      else (trailingStopFailureAlerted, alerts)
  | Some lastCheck =>
      let timeSinceCheck := (now - lastCheck)%Z in
      if (STALE_THRESHOLD_MS <? timeSinceCheck)%Z then
        if negb trailingStopFailureAlerted then
          (* [Math.round(timeSinceCheck / 60000)] *)
          let minutesStale := ((timeSinceCheck + 30000) / 60000)%Z in
          (true, alerts ++ [ChecksFailed symbol minutesStale])
        else (trailingStopFailureAlerted, alerts)
      else
        (* trailing stops are working: reset the alert flag *)
        (false, alerts)
  end.

(** [checkTrailingStopHealth]: [entries] are the keys of [activeSignals] in
    the order the [Map] iterates them (insertion order), the flag is
    [this.trailingStopFailureAlerted]; returns the new flag and the alerts
    raised, oldest first. *)
Definition checkTrailingStopHealth (env : Env) (entries : list string)
    (trailingStopFailureAlerted : bool) : M (bool * list HealthAlert) :=
  t ← now env;
  s ← getBot;
  mret (fold_left (checkSymbolHealth t s) entries (trailingStopFailureAlerted, [])).

End BreakoutStrategy.

(** ** RiskManager *)

(** JavaScript numbers are written as decimals here: exact rationals with
    [NaN] and the two infinities. *)
Module JsNumber.

(** [Math.min(x, y)]: [NaN] when either argument is. *)
Definition min (x y : Decimal) : Decimal :=
  match x, y with
  | Dec.NaN, _ | _, Dec.NaN => Dec.NaN
  | _, _ => if Dec.lessThan y x then y else x
  end.

(** [Math.round(x)]: the nearest integer, halves upwards. *)
Definition round (x : Decimal) : Decimal :=
  match x with
  | Dec.Fin q => Dec.Fin (inject_Z (Qfloor (q + (1 # 2))))
  | other => other
  end.

End JsNumber.

(** [Decimal.max(x, y)], which has an argument and cannot throw. *)
Definition decimalMax2 (x y : Decimal) : Decimal :=
  match Dec.max [x; y] with
  | Ok greatest => greatest
  | Throw _ => Dec.NaN
  end.

Module RiskManager.

Record RiskConfig := {
  maxDailyLoss : Decimal;
  maxPositions : nat;
  positionSize : Decimal;
  maxLeverage : Q;
  maxDrawdown : Decimal
}.

Record Balance := {
  available : Decimal;
  locked : Decimal;
  total : Decimal
}.

Record Trade := {
  pnl : Decimal;
  tradedAt : Z
}.

Record t := {
  config : RiskConfig;
  dailyPnl : Decimal;
  dailyPnlResetTime : Z;
  peakBalance : Decimal;
  trades : list Trade
}.

Definition calculateTotalExposure (positions : list Position.t) : Decimal :=
  fold_left
    (fun total pos =>
       Dec.plus total (Dec.times (Position.quantity pos) (Position.markPrice pos)))
    positions (Dec.Fin 0).

Definition calculateDrawdown (rm : t) (currentBalance : Decimal) : Decimal :=
  if Dec.isZero (peakBalance rm) then Dec.Fin 0
  else
    let drawdown :=
      Dec.times
        (Dec.dividedBy (Dec.minus (peakBalance rm) currentBalance) (peakBalance rm))
        (Dec.Fin 100) in
    (* ensure non-negative *)
    decimalMax2 drawdown (Dec.Fin 0).

Definition calculatePositionSize (rm : t) (balance : Balance)
    (entryPrice stopLoss : Decimal) : Decimal :=
  (* risk 1% per trade *)
  let riskPerTrade := Dec.times (total balance) (Dec.Fin 0.01) in
  let stopDistance := Dec.abs (Dec.minus entryPrice stopLoss) in
  let stopPercent := Dec.dividedBy stopDistance entryPrice in
  if Dec.isZero stopPercent then positionSize (config rm)
  else
    let positionValue := Dec.dividedBy riskPerTrade stopPercent in
    let size := Dec.dividedBy positionValue entryPrice in
    (* apply limits *)
    let maxSize := Dec.times (positionSize (config rm)) (Dec.Fin 2) in
    let minSize := Dec.times (positionSize (config rm)) (Dec.Fin 0.1) in
    if Dec.greaterThan size maxSize then maxSize
    else if Dec.lessThan size minSize then minSize
    else size.

(** [resetTime.setDate(resetTime.getDate() + 1)] is calendar arithmetic in
    the local time zone: [nextDay] is the function it computes. *)
Section WithCalendar.

Variable nextDay : Z -> Z.

Definition resetDailyPnlIfNeeded (now : Z) (rm : t) : t :=
  let resetTime := nextDay (dailyPnlResetTime rm) in
  if (resetTime <=? now)%Z then
    {| config := config rm;
       dailyPnl := Dec.Fin 0;
       dailyPnlResetTime := now;
       peakBalance := peakBalance rm;
       trades :=
         List.filter (fun t => (now - 24 * 60 * 60 * 1000 <=? tradedAt t)%Z) (trades rm) |}
  else rm.

(** Risk score from 0 (safe) to 100 (risky). *)
Definition calculateRiskScore (rm : t) (positions : list Position.t)
    (balance : Balance) : Decimal :=
  let score := Dec.Fin 0 in
  (* position count risk (0-25 points) *)
  let positionRatio :=
    Dec.dividedBy (Dec.ofNat (length positions)) (Dec.ofNat (maxPositions (config rm))) in
  let score := Dec.plus score (Dec.times positionRatio (Dec.Fin 25)) in
  (* exposure risk (0-25 points) *)
  let exposure := calculateTotalExposure positions in
  let exposureRatio :=
    Dec.dividedBy exposure (Dec.times (total balance) (Dec.Fin (maxLeverage (config rm)))) in
  let score :=
    Dec.plus score (JsNumber.min (Dec.times exposureRatio (Dec.Fin 25)) (Dec.Fin 25)) in
  (* daily loss risk (0-25 points) *)
  let lossRatio := Dec.dividedBy (Dec.abs (dailyPnl rm)) (maxDailyLoss (config rm)) in
  let score :=
    if Dec.lessThan (dailyPnl rm) (Dec.Fin 0)
    then Dec.plus score (JsNumber.min (Dec.times lossRatio (Dec.Fin 25)) (Dec.Fin 25))
    else score in
  (* drawdown risk (0-25 points) *)
  let drawdownRatio :=
    Dec.dividedBy (calculateDrawdown rm (total balance)) (maxDrawdown (config rm)) in
  let score :=
    Dec.plus score (JsNumber.min (Dec.times drawdownRatio (Dec.Fin 25)) (Dec.Fin 25)) in
  JsNumber.round score.

Record RiskMetrics := {
  metricsDailyPnl : Decimal;
  openPositions : nat;
  totalExposure : Decimal;
  currentDrawdown : Decimal;
  riskScore : Decimal
}.

Definition getRiskMetrics (now : Z) (rm : t) (positions : list Position.t)
    (balance : Balance) : RiskMetrics * t :=
  let rm := resetDailyPnlIfNeeded now rm in
  ({| metricsDailyPnl := dailyPnl rm;
      openPositions := length positions;
      totalExposure := calculateTotalExposure positions;
      currentDrawdown := calculateDrawdown rm (total balance);
      riskScore := calculateRiskScore rm positions balance |},
   rm).

(** Emergency stop conditions. *)
Definition shouldStopTrading (now : Z) (rm : t) : bool * t :=
  if Dec.lessThanOrEqualTo (dailyPnl rm) (Dec.negated (maxDailyLoss (config rm)))
  then (true, rm)
  else
    let '(metrics, rm) :=
      getRiskMetrics now rm []
        {| available := Dec.Fin 0; locked := Dec.Fin 0; total := Dec.Fin 1000 |} in
    (if Dec.greaterThan (riskScore metrics) (Dec.Fin 80) then true else false, rm).

Definition updatePnl (now : Z) (tradePnl : Decimal) (rm : t) : t :=
  let rm := resetDailyPnlIfNeeded now rm in
  {| config := config rm;
     dailyPnl := Dec.plus (dailyPnl rm) tradePnl;
     dailyPnlResetTime := dailyPnlResetTime rm;
     peakBalance := peakBalance rm;
     trades := trades rm ++ [{| pnl := tradePnl; tradedAt := now |}] |}.

End WithCalendar.

End RiskManager.


(** ** Vocabulary of the specification *)

(** The favourable zone of each momentum component: outside it the
    sub-score is 0. *)
Definition rsiFavorable (direction : Direction) (rsi : Decimal) : bool :=
  match direction with
  | LONG => Dec.lessThanOrEqualTo rsi 70
  | SHORT => Dec.greaterThanOrEqualTo rsi 30
  end.

Definition macdFavorable (direction : Direction) (m : TechnicalIndicators.MACD) : bool :=
  match direction with
  | LONG =>
      Dec.greaterThan (TechnicalIndicators.macd m) (TechnicalIndicators.signal m)
      || Dec.greaterThan (TechnicalIndicators.histogram m) 0
  | SHORT =>
      Dec.lessThan (TechnicalIndicators.macd m) (TechnicalIndicators.signal m)
      || Dec.lessThan (TechnicalIndicators.histogram m) 0
  end.

Definition emaFavorable (direction : Direction) (currentPrice ema20 : Decimal) : bool :=
  match direction with
  | LONG => Dec.greaterThan currentPrice ema20
  | SHORT => Dec.lessThan currentPrice ema20
  end.

Definition bbFavorable (direction : Direction) (pricePosition : Decimal) : bool :=
  match direction with
  | LONG => Dec.lessThanOrEqualTo pricePosition 0.7
  | SHORT => Dec.greaterThanOrEqualTo pricePosition 0.3
  end.

Definition stochFavorable (direction : Direction) (s : TechnicalIndicators.Stochastic)
  : bool :=
  match direction with
  | LONG =>
      (Dec.greaterThan (TechnicalIndicators.k s) (TechnicalIndicators.d s)
       && Dec.lessThan (TechnicalIndicators.k s) 80)
      || Dec.lessThan (TechnicalIndicators.k s) 30
  | SHORT =>
      (Dec.lessThan (TechnicalIndicators.k s) (TechnicalIndicators.d s)
       && Dec.greaterThan (TechnicalIndicators.k s) 20)
      || Dec.greaterThan (TechnicalIndicators.k s) 70
  end.

(** The weights of the five components. *)
Definition weightRSI : Q := 0.20.
Definition weightMACD : Q := 0.20.
Definition weightEMA : Q := 0.25.
Definition weightBollinger : Q := 0.15.
Definition weightStochastic : Q := 0.20.

(** [Bollinger position] as the scorer computes it. *)
Definition pricePositionOf (price : Decimal) (b : TechnicalIndicators.BollingerBands)
  : Decimal :=
  Dec.dividedBy (Dec.minus price (TechnicalIndicators.lower b))
                (Dec.minus (TechnicalIndicators.upper b) (TechnicalIndicators.lower b)).

(** The statuses [mapOrderStatus] recognises. *)
Definition recognisedStatus (normalizedStatus : string) : bool :=
  EnclaveClient.isOneOf normalizedStatus
    (EnclaveClient.statusOpen ++ EnclaveClient.statusFilled
     ++ EnclaveClient.statusPartiallyFilled ++ EnclaveClient.statusCancelled
     ++ EnclaveClient.statusRejected).

(** A status after which the order is not live any more. *)
Definition terminalStatus (status : OrderStatus) : bool :=
  match status with
  | FILLED | CANCELLED | REJECTED => true
  | PENDING | OPEN | PARTIALLY_FILLED => false
  end.

(** *** Position lifecycle *)

Definition stopLevel (w : World) (symbol : string) : option Decimal :=
  TrailingStop.stop <$> trailingStops (bot w) !! symbol.

Definition positionSide (w : World) (symbol : string) : option OrderSide :=
  Signal.side <$> activeSignals (bot w) !! symbol.

(** [candidate] is strictly more protective than [current]: higher for a
    long, lower for a short. *)
Definition moreProtective (side : OrderSide) (candidate current : Decimal) : bool :=
  match side with
  | BUY => Dec.greaterThan candidate current
  | SELL => Dec.lessThan candidate current
  end.

Definition notLoosened (side : OrderSide) (before after : Decimal) : Prop :=
  after = before \/ moreProtective side after before = true.

(** Successive monitoring ticks of one instrument, each with the answers
    the outside world gives during that tick. *)
Fixpoint monitorTicks (envs : list Env) (symbol : string) (w : World) : World :=
  match envs with
  | [] => w
  | env :: rest =>
      monitorTicks rest symbol (BreakoutStrategy.updateTrailingStops env symbol w).2
  end.

(** *** Ticks that overlap *)

(** [updateTrailingStops] is an [async] function.  It reads the trailing
    stop and the signal of the instrument and then gives up control at
    [await this.client.getPositions()]; what it has read stays with it while
    other calls run, and [trailingStops.set] stores a new object. *)
Definition readAtStart (s : Strategy) (symbol : string)
  : option (TrailingStop.t * Signal.t) :=
  match trailingStops s !! symbol, activeSignals s !! symbol with
  | Some trailing, Some signal => Some (trailing, signal)
  | _, _ => None
  end.

(** The tick from the answer of [getPositions] on, with what it read at its
    start. *)
Definition afterGetPositions (env : Env) (symbol : string)
    (read : TrailingStop.t * Signal.t) : M unit :=
  tryCatch
    (positions ← BreakoutStrategy.clientGetPositions env;
     match BreakoutStrategy.findPosition symbol positions with
     | None => BreakoutStrategy.positionGone env symbol read.2
     | Some position =>
         BreakoutStrategy.monitorPosition env symbol read.2 read.1 position
     end)
    (mret tt).

(** Two ticks of one instrument whose calls overlap: the second is called
    while the first still waits for its positions, so that both have read
    the same trailing stop.  The tick answered by [first] then runs to its
    end before the answers of [second] arrive. *)
Definition overlappingTicks (first second : Env) (symbol : string) (w : World)
  : World :=
  match readAtStart (bot w) symbol with
  | Some read =>
      (afterGetPositions second symbol read
         (afterGetPositions first symbol read w).2).2
  | None => w
  end.

(** The [until] of a loss-cooldown entry. *)
Definition lossCooldownUntil (s : Strategy) (symbol : string) : option Z :=
  (fun since => since + BreakoutStrategy.LOSS_COOLDOWN_MS)%Z <$> lossCooldowns s !! symbol.

(** Inside a cooldown at clock reading [t]: an entry exists, it was
    recorded at a non-zero clock reading, and [t] is before its [until]. *)
Definition inLossCooldown (s : Strategy) (symbol : string) (t : Z) : Prop :=
  exists since,
    lossCooldowns s !! symbol = Some since /\ since <> 0%Z
    /\ (t < since + BreakoutStrategy.LOSS_COOLDOWN_MS)%Z.

Definition inFailedOrderCooldown (s : Strategy) (symbol : string) (t : Z) : Prop :=
  exists since,
    failedSignalCooldowns s !! symbol = Some since /\ since <> 0%Z
    /\ (t < since + BreakoutStrategy.FAILED_SIGNAL_COOLDOWN_MS)%Z.

(** A relation between the strategy before and after an operation that
    the operation maintains from every world, whatever it returns. *)
Definition preserves {A} (R : Strategy -> Strategy -> Prop) (m : M A) : Prop :=
  forall w, R (bot w) (bot (m w).2).

(** [symbol]'s trailing stop is gone, or it and the active signal are
    untouched. *)
Definition goneOrSame (symbol : string) (s s' : Strategy) : Prop :=
  trailingStops s' !! symbol = None
  \/ (trailingStops s' !! symbol = trailingStops s !! symbol
      /\ activeSignals s' !! symbol = activeSignals s !! symbol).

(** The quantity [executeSignal] sends with the entry order. *)
Definition entryQuantity (s : Strategy) (signal : Signal.t)
    (customQuantity : option Decimal) : option Decimal :=
  match customQuantity with
  | Some q => Some q
  | None =>
      BreakoutStrategy.roundToSizeIncrement
        (Dec.dividedBy (positionSize (config s)) (Signal.entryPrice signal))
        (Signal.symbol signal)
  end.


(** An operation leaves one field of the strategy alone. *)
Definition sameField {X} (field : Strategy -> X) (s s' : Strategy) : Prop :=
  field s' = field s.

(** The monitor's reading of a vanished position: the take-profit order
    was filled when no LIMIT order rests and the signal had a target. *)
Definition takeProfitFilled (openOrders : list Order.t) (signal : Signal.t) : bool :=
  negb (BreakoutStrategy.tpOrderExists openOrders)
  && bool_decide (is_Some (Signal.takeProfit signal)).

(** A record of the trailing-stops file that [loadTrailingStops] accepts. *)
Definition readable (entry : string * Persisted.t) : Prop :=
  is_Some (Persisted.high entry.2) /\ is_Some (Persisted.stop entry.2).

(** The stop [registerExistingPosition] seeds when no trailing stop is
    held for the instrument: [STOP_LOSS_PERCENT] away from the entry. *)
Definition freshStop (side : OrderSide) (entryPrice : Decimal) : Decimal :=
  match side with
  | BUY => Dec.times entryPrice (BreakoutStrategy.below BreakoutStrategy.STOP_LOSS_PERCENT)
  | SELL => Dec.times entryPrice (BreakoutStrategy.above BreakoutStrategy.STOP_LOSS_PERCENT)
  end.

(** One monitoring tick: the trailing stop is gone, or the signal is the
    same and the stop is the old one or a strictly more protective one. *)
Definition tickOutcome (symbol : string) (signal : Signal.t)
    (trailing : TrailingStop.t) (s' : Strategy) : Prop :=
  trailingStops s' !! symbol = None
  \/ (activeSignals s' !! symbol = Some signal
      /\ exists trailing',
          trailingStops s' !! symbol = Some trailing'
          /\ (trailing' = trailing
              \/ moreProtective (Signal.side signal) (TrailingStop.stop trailing')
                   (TrailingStop.stop trailing) = true)).

(** What a world can differ in after cancel requests: effects performed and
    cancellations journalled. *)
Definition cancelledOnly (w w1 : World) : Prop :=
  bot w1 = bot w /\ disk w1 = disk w /\ (effects w <= effects w1)%nat
  /\ exists cancelled, journal w1 = journal w ++ map OrderCancelled cancelled.

(** After the trailing-stop decision, [registerExistingPosition] only talks
    to the gateway. *)
Definition sameTracking (s s' : Strategy) : Prop :=
  trailingStops s' = trailingStops s /\ activeSignals s' = activeSignals s.

(** *** Finite prices and well-formed candles *)

(** A decimal that is a number in the interval [lo, hi]. *)
Definition within (lo hi : Q) (x : Decimal) : Prop :=
  exists q, x = Dec.Fin q /\ lo <= q <= hi.

(** A decimal that is a number not below zero. *)
Definition nonNegative (x : Decimal) : Prop := exists q, x = Dec.Fin q /\ 0 <= q.

(** A decimal that is a number: neither [NaN] nor an infinity. *)
Definition finite (x : Decimal) : Prop := exists q, x = Dec.Fin q.

Definition finiteCandle (p : PriceData) : Prop :=
  finite (high p) /\ finite (low p) /\ finite (close p).

(** A candle whose close lies between its low and its high. *)
Definition wellFormedCandle (p : PriceData) : Prop :=
  exists h l c,
    high p = Dec.Fin h /\ low p = Dec.Fin l /\ close p = Dec.Fin c /\ l <= c <= h.

(** *** What an operation does to the outside world *)

(** A frame property at the level of worlds: every run of [m] relates the
    world it starts from to the world it leaves. *)
Definition keeps {A} (R : World -> World -> Prop) (m : M A) : Prop :=
  forall w, R w (m w).2.

(** The journal only grows, and by events that satisfy [P]. *)
Definition appendsOnly (P : Event -> Prop) (w w' : World) : Prop :=
  exists events, journal w' = journal w ++ events /\ Forall P events.

(** An order or a reported closure names [symbol]; a cancellation names an
    order the gateway listed for the instrument. *)
Definition eventConcerns (symbol : string) (e : Event) : Prop :=
  match e with
  | OrderPlaced s _ _ _ _ => s = symbol
  | OrderCancelled _ => True
  | PositionClosed s _ => s = symbol
  end.

Definition isCancellation (e : Event) : Prop :=
  match e with OrderCancelled _ => True | _ => False end.

Definition isMarketOrder (e : Event) : Prop :=
  match e with OrderPlaced _ _ _ MARKET _ => True | _ => False end.

(** *** Restarting from the trailing-stops file *)

(** A restart from the file on disk would bring back exactly the trailing
    stops the bot holds in memory. *)
Definition restorable (w : World) : Prop :=
  trailingStops
    (BreakoutStrategy.loadTrailingStops (disk w)
       (BreakoutStrategy.emptyStrategy (config (bot w))))
  = trailingStops (bot w).

Definition staysRestorable (w w' : World) : Prop := restorable w -> restorable w'.

(** The public operations of the strategy, and a run of them, each against
    its own answers of the gateway, the clock and the file system. *)
Inductive Operation :=
  | InitializeWithHistoricalData (symbol : string) (historicalData : list PriceData)
  | GenerateSignal (symbol : string)
  | ExecuteSignal (signal : Signal.t) (customQuantity : option Decimal)
  | UpdateTrailingStops (symbol : string)
  | RegisterExistingPosition (symbol : string) (side : OrderSide)
                             (entryPrice quantity : Decimal).

Definition perform (env : Env) (operation : Operation) (w : World) : World :=
  match operation with
  | InitializeWithHistoricalData symbol historicalData =>
      BreakoutStrategy.initializeWithHistoricalData symbol historicalData w
  | GenerateSignal symbol => (BreakoutStrategy.generateSignal env symbol w).2
  | ExecuteSignal signal customQuantity =>
      (BreakoutStrategy.executeSignal env signal customQuantity w).2
  | UpdateTrailingStops symbol => (BreakoutStrategy.updateTrailingStops env symbol w).2
  | RegisterExistingPosition symbol side entryPrice quantity =>
      (BreakoutStrategy.registerExistingPosition env symbol side entryPrice quantity w).2
  end.

Fixpoint performAll (steps : list (Env * Operation)) (w : World) : World :=
  match steps with
  | [] => w
  | (env, operation) :: rest => performAll rest (perform env operation w)
  end.

(** The instrument an operation is called for. *)
Definition operationSymbol (operation : Operation) : string :=
  match operation with
  | InitializeWithHistoricalData symbol _ => symbol
  | GenerateSignal symbol => symbol
  | ExecuteSignal signal _ => Signal.symbol signal
  | UpdateTrailingStops symbol => symbol
  | RegisterExistingPosition symbol _ _ _ => symbol
  end.

(** What each operation may send to the exchange or report. *)
Definition allowedEvent (operation : Operation) (e : Event) : Prop :=
  match operation with
  | InitializeWithHistoricalData _ _ | GenerateSignal _ => False
  | ExecuteSignal signal _ =>
      match e with
      | OrderCancelled _ => True
      | OrderPlaced symbol _ _ type _ =>
          symbol = Signal.symbol signal /\ (type = MARKET \/ type = LIMIT)
      | PositionClosed _ _ => False
      end
  | UpdateTrailingStops symbol =>
      match e with
      | OrderCancelled _ => True
      | OrderPlaced s _ _ type price => s = symbol /\ type = MARKET /\ price = None
      | PositionClosed s _ => s = symbol
      end
  | RegisterExistingPosition symbol side _ quantity =>
      match e with
      | OrderCancelled _ => True
      | OrderPlaced s sd q type _ =>
          s = symbol /\ sd = BreakoutStrategy.oppositeSide side
          /\ q = quantity /\ type = LIMIT
      | PositionClosed _ _ => False
      end
  end.

(** *** Forgetting a position *)

(** No map of the strategy that describes an open position holds an entry
    for [symbol]. *)
Definition forgotten (s : Strategy) (symbol : string) : Prop :=
  activeSignals s !! symbol = None
  /\ trailingStops s !! symbol = None
  /\ partialProfitTaken s !! symbol = None
  /\ positionOpenedAt s !! symbol = None
  /\ lastTrailingStopCheck s !! symbol = None.

(** *** Health of the monitoring *)

(** At clock reading [now] the instrument deserves an alert: its last
    successful check is more than a minute old, or it was never checked and
    is past the grace period of a new position. *)
Definition unprotected (now : Z) (s : Strategy) (symbol : string) : bool :=
  match lastTrailingStopCheck s !! symbol with
  | Some lastCheck =>
      if BreakoutStrategy.truthyZ lastCheck
      then (BreakoutStrategy.STALE_THRESHOLD_MS <? now - lastCheck)%Z
      else
        match positionOpenedAt s !! symbol with
        | Some openedAt =>
            negb (BreakoutStrategy.truthyZ openedAt
                  && (now - openedAt <? BreakoutStrategy.NEW_POSITION_GRACE_PERIOD_MS)%Z)
        | None => true
        end
  | None =>
      match positionOpenedAt s !! symbol with
      | Some openedAt =>
          negb (BreakoutStrategy.truthyZ openedAt
                && (now - openedAt <? BreakoutStrategy.NEW_POSITION_GRACE_PERIOD_MS)%Z)
      | None => true
      end
  end.

(** The instrument was checked successfully within the last minute. *)
Definition recentlyChecked (now : Z) (s : Strategy) (symbol : string) : bool :=
  match lastTrailingStopCheck s !! symbol with
  | Some lastCheck =>
      BreakoutStrategy.truthyZ lastCheck
      && negb (BreakoutStrategy.STALE_THRESHOLD_MS <? now - lastCheck)%Z
  | None => false
  end.

Definition alertSymbol (alert : BreakoutStrategy.HealthAlert) : string :=
  match alert with
  | BreakoutStrategy.NeverChecked symbol => symbol
  | BreakoutStrategy.ChecksFailed symbol _ => symbol
  end.

(** *** Candles made from market data *)

(** The candle [updatePriceHistory] appends for a market-data answer. *)
Definition candleOf (marketData : MarketData.t) : PriceData :=
  {| high := MarketData.high24h marketData;
     low := MarketData.low24h marketData;
     close := MarketData.last marketData;
     volume := MarketData.volume24h marketData;
     timestamp := MarketData.timestamp marketData |}.

(** *** The client over time *)

(** A run of socket events from a value of [reconnectAttempts]: the final
    value and the delays of the reconnection timers set, oldest first. *)
Fixpoint socketRun (events : list EnclaveClient.SocketEvent) (reconnectAttempts : nat)
  : nat * list Z :=
  match events with
  | [] => (reconnectAttempts, [])
  | event :: rest =>
      let '(attempts, timer) := EnclaveClient.onSocketEvent reconnectAttempts event in
      let '(final, timers) := socketRun rest attempts in
      (final, match timer with Some delay => delay :: timers | None => timers end)
  end.

(** The market-data cache after a sequence of WebSocket messages. *)
Definition feed (messages : list EnclaveClient.Message)
    (cache : EnclaveClient.MarketDataCache) : EnclaveClient.MarketDataCache :=
  fold_left (fun cache message => EnclaveClient.handleMessage message cache)
            messages cache.

(** Every entry is filed under its own symbol and has no 24 h range. *)
Definition withoutRange (cache : EnclaveClient.MarketDataCache) : Prop :=
  forall symbol marketData,
    cache !! symbol = Some marketData ->
    MarketData.symbol marketData = symbol
    /\ MarketData.high24h marketData = Dec.Fin 0
    /\ MarketData.low24h marketData = Dec.Fin 0.

(** *** Risk score *)

(** A JavaScript number that cannot compare greater than [bound]: a number
    up to [bound], [NaN], or minus infinity. *)
Definition atMost (bound : Q) (x : Decimal) : Prop :=
  match x with
  | Dec.Fin q => q <= bound
  | Dec.NaN => True
  | Dec.Inf negative => negative = true
  end.

(** ** Scenarios *)

Module Scenario.

Import BreakoutStrategy.

Definition sol : string := "SOL-USD.P".

(** A candle closing at [c] with range [c - 1 .. c + 1] and volume [v]. *)
Definition candle (c v : Z) : PriceData :=
  {| high := Dec.ofZ (c + 1); low := Dec.ofZ (c - 1); close := Dec.ofZ c;
     volume := Dec.ofZ v; timestamp := 0 |}.

(** Closing prices after a flat stretch at 100: a rise with pullbacks. *)
Definition rally : list Z :=
  [99; 99; 103; 101; 102; 101; 99; 98; 97; 101;
   103; 101; 103; 103; 105; 109; 108; 105; 103; 106]%Z.

(** 200 candles: 180 flat ones, then [rally].  Every completed candle has
    volume 37 except the last completed one, which has 57; the candle still
    in progress has volume 1.  The 20 completed candles before the one in
    progress average (19 x 37 + 57) / 20 = 38, and 57 / 38 = 1.5. *)
Definition breakoutWindow : list PriceData :=
  repeat (candle 100 37) 180
  ++ map (fun c => candle c 37) (take 18 rally)
  ++ [candle 103 57; candle 106 1].

(** A gateway that reports no position and accepts every request. *)
Definition quietGateway (t : Z) : Env :=
  {| dateNow := fun _ => t;
     getPositions := fun _ => Ok [];
     getOpenOrders := fun _ => Ok [];
     addOrder := fun _ => Ok "order";
     cancelOrder := fun _ => true;
     writeFileSync := fun _ => true |}.

Definition longPosition (mark : Q) : Position.t :=
  {| Position.symbol := sol; Position.side := BUY; Position.quantity := Dec.Fin 1;
     Position.entryPrice := Dec.Fin 100; Position.markPrice := Dec.Fin mark |}.

(** A gateway that reports the long position at [mark] and accepts every
    request. *)
Definition gatewayAt (mark : Q) (t : Z) : Env :=
  {| dateNow := fun _ => t;
     getPositions := fun _ => Ok [longPosition mark];
     getOpenOrders := fun _ => Ok [];
     addOrder := fun _ => Ok "order";
     cancelOrder := fun _ => true;
     writeFileSync := fun _ => true |}.

(** The position vanished from the exchange while the take-profit LIMIT
    order still rests: it was closed by hand. *)
Definition closedByHand (t : Z) : Env :=
  {| dateNow := fun _ => t;
     getPositions := fun _ => Ok [];
     getOpenOrders := fun _ =>
       Ok [{| Order.id := "tp"; Order.symbol := sol; Order.side := SELL;
              Order.type := LIMIT |}];
     addOrder := fun _ => Ok "order";
     cancelOrder := fun _ => true;
     writeFileSync := fun _ => true |}.

(** A gateway that rejects every order. *)
Definition rejectingGateway (t : Z) : Env :=
  {| dateNow := fun _ => t;
     getPositions := fun _ => Ok [];
     getOpenOrders := fun _ => Ok [];
     addOrder := fun _ => Throw GatewayError;
     cancelOrder := fun _ => true;
     writeFileSync := fun _ => true |}.

Definition cfg : BreakoutConfig :=
  {| positionSize := Dec.Fin 100; takeProfitPercent := None |}.

(** The signal the generator emits for a long entry at 100. *)
Definition generated : Signal.t :=
  {| Signal.symbol := sol; Signal.side := BUY; Signal.entryPrice := Dec.Fin 100;
     Signal.stopLoss := Dec.Fin 95; Signal.takeProfit := Some (Dec.Fin (Qred 101.3));
     Signal.confidence := Dec.Fin 0.72;
     Signal.reason := Momentum LONG (Dec.Fin 0.72) BULLISH (Dec.Fin 2) HIGHER_HIGHS |}.

Definition fresh : World := construct cfg NoFile.

(** The long position opened from [generated]. *)
Definition opened : World := (executeSignal (quietGateway 1000) generated None fresh).2.

(** A restart with a persisted trailing stop whose take-profit exit was
    already taken. *)
Definition persistedFile : TrailingStopsFile :=
  Contents [(sol, {| Persisted.high := Some (Dec.Fin 100);
                     Persisted.stop := Some (Dec.Fin 95);
                     Persisted.partialProfitTaken := true |})].

Definition recovered : World :=
  (registerExistingPosition (quietGateway 1000) sol BUY (Dec.Fin 100) (Dec.Fin 1)
     (construct cfg persistedFile)).2.

(** The strategy with the price window loaded. *)
Definition watching : World := initializeWithHistoricalData sol breakoutWindow fresh.

(** How an expired loss cooldown and a running failed-order cooldown come
    to coexist: a recovered position vanishes from the exchange at time 1
    (loss cooldown), and at time 2 000 000, long after that cooldown ran out,
    an entry order for the same instrument is rejected. *)
Definition stoppedOut : World :=
  (updateTrailingStops (quietGateway 1) sol
     (registerExistingPosition (quietGateway 1) sol BUY (Dec.Fin 100) (Dec.Fin 1)
        watching).2).2.

Definition coolingDown : World :=
  (executeSignal (rejectingGateway 2000000) generated None stoppedOut).2.

(** The signal the generator emits on [breakoutWindow]. *)
Definition emitted : Signal.t :=
  {| Signal.symbol := sol; Signal.side := BUY;
     Signal.entryPrice := Dec.Fin 106;
     Signal.stopLoss := Dec.Fin (Qred 100.7);
     Signal.takeProfit := Some (Dec.Fin (Qred 107.378));
     Signal.confidence := Dec.Fin (Qred 0.68);
     Signal.reason :=
       Momentum LONG (Dec.Fin (Qred 0.68)) BULLISH (Dec.Fin (Qred 1.5)) HIGHER_HIGHS |}.


(** *** Further inputs *)

(** The last 20 candles of the breakout window. *)
Definition recentCandles : list PriceData := slice_last 20 breakoutWindow.

(** Four candles, each closing above the one before. *)
Definition rising : list PriceData :=
  map (fun c => candle c 37) [100; 101; 102; 103]%Z.

(** A restart with a persisted trailing stop that has followed the price
    up to 110: high 110, stop 104.5, for a position entered at 100. *)
Definition trailedFile : TrailingStopsFile :=
  Contents [(sol, {| Persisted.high := Some (Dec.Fin 110);
                     Persisted.stop := Some (Dec.Fin (Qred 104.5));
                     Persisted.partialProfitTaken := true |})].

Definition recoveredTrailed : World :=
  (registerExistingPosition (quietGateway 1000) sol BUY (Dec.Fin 100) (Dec.Fin 1)
     (construct cfg trailedFile)).2.

(** A restart without a trailing-stops file: the position the exchange
    reports is adopted with fresh state and, as no take-profit percentage is
    configured, without a target. *)
Definition adopted : World :=
  (registerExistingPosition (quietGateway 1000) sol BUY (Dec.Fin 100) (Dec.Fin 1)
     fresh).2.

(** A gateway that reports the long position at [mark] and rejects every
    order. *)
Definition stuckGateway (mark : Q) (t : Z) : Env :=
  {| dateNow := fun _ => t;
     getPositions := fun _ => Ok [longPosition mark];
     getOpenOrders := fun _ => Ok [];
     addOrder := fun _ => Throw GatewayError;
     cancelOrder := fun _ => true;
     writeFileSync := fun _ => true |}.

(** A gateway whose position request fails. *)
Definition downGateway (t : Z) : Env :=
  {| dateNow := fun _ => t;
     getPositions := fun _ => Throw GatewayError;
     getOpenOrders := fun _ => Ok [];
     addOrder := fun _ => Ok "order";
     cancelOrder := fun _ => true;
     writeFileSync := fun _ => true |}.

(** A gateway that reports no position and fails to list the open orders. *)
Definition ordersDownGateway (t : Z) : Env :=
  {| dateNow := fun _ => t;
     getPositions := fun _ => Ok [];
     getOpenOrders := fun _ => Throw GatewayError;
     addOrder := fun _ => Ok "order";
     cancelOrder := fun _ => true;
     writeFileSync := fun _ => true |}.

(** The market data the WebSocket cache holds after one book update at
    106 / 107 and one trade at 106.5. *)
Definition bookUpdate : EnclaveClient.Message :=
  EnclaveClient.TopOfBooksUpdate
    [{| EnclaveClient.itemMarket := sol;
        EnclaveClient.bestBid := Some (Ok (Dec.Fin 106));
        EnclaveClient.bestAsk := Some (Ok (Dec.Fin 107));
        EnclaveClient.time := 6000 |}].

Definition tradeUpdate : EnclaveClient.Message :=
  EnclaveClient.TradesUpdate
    [{| EnclaveClient.tradeMarket := sol;
        EnclaveClient.tradePrice := Ok (Dec.Fin 106.5);
        EnclaveClient.tradeSize := Ok (Dec.Fin 2) |}].

Definition tick : MarketData.t :=
  {| MarketData.symbol := sol;
     MarketData.bid := Dec.Fin 106;
     MarketData.ask := Dec.Fin 107;
     MarketData.last := Dec.Fin 106.5;
     MarketData.volume24h := Dec.Fin 2;
     MarketData.high24h := Dec.Fin 0;
     MarketData.low24h := Dec.Fin 0;
     MarketData.timestamp := 6000 |}.

(** The take-profit order as the gateway lists it while it rests, and an
    entry order that was filled. *)
Definition restingOrder : EnclaveClient.RawOrder.t :=
  {| EnclaveClient.RawOrder.orderId := "tp";
     EnclaveClient.RawOrder.market := sol;
     EnclaveClient.RawOrder.side := "sell";
     EnclaveClient.RawOrder.type := "limit";
     EnclaveClient.RawOrder.price := Some (Ok (Dec.Fin 101.3));
     EnclaveClient.RawOrder.size := Some (Ok (Dec.Fin 1));
     EnclaveClient.RawOrder.status := Some "open";
     EnclaveClient.RawOrder.filledSize := None;
     EnclaveClient.RawOrder.averagePrice := None |}.

Definition filledOrder : EnclaveClient.RawOrder.t :=
  {| EnclaveClient.RawOrder.orderId := "entry";
     EnclaveClient.RawOrder.market := sol;
     EnclaveClient.RawOrder.side := "buy";
     EnclaveClient.RawOrder.type := "market";
     EnclaveClient.RawOrder.price := None;
     EnclaveClient.RawOrder.size := Some (Ok (Dec.Fin 1));
     EnclaveClient.RawOrder.status := Some "filled";
     EnclaveClient.RawOrder.filledSize := Some (Ok (Dec.Fin 1));
     EnclaveClient.RawOrder.averagePrice := Some (Ok (Dec.Fin 100)) |}.

Definition restingOrderParsed : EnclaveClient.Parsed.t :=
  {| EnclaveClient.Parsed.id := "tp";
     EnclaveClient.Parsed.symbol := sol;
     EnclaveClient.Parsed.side := SELL;
     EnclaveClient.Parsed.type := LIMIT;
     EnclaveClient.Parsed.price := Some (Dec.Fin 101.3);
     EnclaveClient.Parsed.quantity := Dec.Fin 1;
     EnclaveClient.Parsed.status := OPEN;
     EnclaveClient.Parsed.filledQuantity := None;
     EnclaveClient.Parsed.averagePrice := None |}.

(** A risk manager configured for positions of size 1, and an account of
    1000. *)
Definition riskManager : RiskManager.t :=
  {| RiskManager.config :=
       {| RiskManager.maxDailyLoss := Dec.Fin 100;
          RiskManager.maxPositions := 3;
          RiskManager.positionSize := Dec.Fin 1;
          RiskManager.maxLeverage := 3;
          RiskManager.maxDrawdown := Dec.Fin 10 |};
     RiskManager.dailyPnl := Dec.Fin 0;
     RiskManager.dailyPnlResetTime := 0;
     RiskManager.peakBalance := Dec.Fin 1000;
     RiskManager.trades := [] |}.

Definition account : RiskManager.Balance :=
  {| RiskManager.available := Dec.Fin 1000;
     RiskManager.locked := Dec.Fin 0;
     RiskManager.total := Dec.Fin 1000 |}.
End Scenario.

(** * Properties *)

(** ** Boolean comparisons on rationals *)

Lemma Qltb_true x y : Qltb x y = true <-> x < y.
Proof.
  unfold Qltb. rewrite negb_true_iff. split.
  - intros H. apply Qnot_le_lt. intros Hle. apply Qle_bool_iff in Hle. congruence.
  - intros H. destruct (Qle_bool y x) eqn:E; [|done].
    apply Qle_bool_iff in E. lra.
Qed.

Lemma Qltb_false x y : Qltb x y = false <-> y <= x.
Proof. unfold Qltb. rewrite negb_false_iff. apply Qle_bool_iff. Qed.

Lemma Qeq_bool_false x y : Qeq_bool x y = false <-> ~ x == y.
Proof.
  split.
  - intros H E. apply Qeq_bool_iff in E. congruence.
  - intros H. destruct (Qeq_bool x y) eqn:E; [|done].
    apply Qeq_bool_iff in E. done.
Qed.

Ltac qbool :=
  repeat match goal with
  | H : Qltb _ _ = true |- _ => apply Qltb_true in H
  | H : Qltb _ _ = false |- _ => apply Qltb_false in H
  | H : Qeq_bool _ _ = true |- _ => apply Qeq_bool_iff in H
  | H : Qeq_bool _ _ = false |- _ => apply Qeq_bool_false in H
  end.

Ltac split_comparisons :=
  repeat match goal with
  | |- context [Qltb ?a ?b] => destruct (Qltb a b) eqn:?
  | |- context [Qeq_bool ?a ?b] => destruct (Qeq_bool a b) eqn:?
  end.

Ltac unfold_comparisons :=
  unfold Dec.lessThanOrEqualTo, Dec.greaterThanOrEqualTo, Dec.greaterThan,
    Dec.lessThan, Dec.equals in *.

(** ** Indicators return once they have enough samples *)

Section IndicatorTotality.

Import TechnicalIndicators.

Lemma mapR_ok {A B} (f : A -> Result B) (xs : list A) :
  (forall x, x ∈ xs -> exists y, f x = Ok y) ->
  exists ys, mapR f xs = Ok ys /\ length ys = length xs.
Proof.
  induction xs as [|x xs IH]; intros Hall.
  - exists []. split; reflexivity.
  - destruct (Hall x) as [y Hy]; [left|].
    destruct IH as [ys [Hys Hlen]].
    { intros x' Hx'. apply Hall. by right. }
    exists (y :: ys). cbn. rewrite Hy. cbn. rewrite Hys. cbn.
    split; [reflexivity | by rewrite Hlen].
Qed.

Lemma length_slice_prefix {A} (n : nat) (xs : list A) :
  (n <= length xs)%nat -> length (slice 0 n xs) = n.
Proof. intros H. unfold slice. rewrite drop_0, length_take. lia. Qed.

Lemma nonempty_of_length {A} (xs : list A) : (0 < length xs)%nat -> xs <> [].
Proof. destruct xs; cbn; [lia | done]. Qed.

Lemma calculateSMA_ok prices periods :
  (periods <= length prices)%nat -> exists v, calculateSMA prices periods = Ok v.
Proof.
  intros H. unfold calculateSMA.
  destruct (Nat.ltb_spec (length prices) periods); [lia|]. eauto.
Qed.

Lemma calculateEMA_ok prices periods :
  (periods <= length prices)%nat -> exists v, calculateEMA prices periods = Ok v.
Proof.
  intros H. unfold calculateEMA.
  destruct (Nat.ltb_spec (length prices) periods); [lia|].
  destruct (calculateSMA_ok (slice 0 periods prices) periods) as [v Hv].
  { by rewrite length_slice_prefix. }
  rewrite Hv. cbn. eauto.
Qed.

Lemma calculateRSI_ok prices periods :
  (periods + 1 <= length prices)%nat -> exists v, calculateRSI prices periods = Ok v.
Proof.
  intros H. unfold calculateRSI.
  destruct (Nat.ltb_spec (length prices) (periods + 1)); [lia|].
  destruct (Dec.isZero _); eauto.
Qed.

Lemma calculateBollingerBands_ok prices periods stdDev :
  (periods <= length prices)%nat ->
  exists v, calculateBollingerBands prices periods stdDev = Ok v.
Proof.
  intros H. unfold calculateBollingerBands.
  destruct (Nat.ltb_spec (length prices) periods); [lia|].
  destruct (calculateSMA_ok prices periods H) as [v Hv].
  rewrite Hv. cbn. eauto.
Qed.

Lemma calculateMACD_ok prices fastPeriod slowPeriod signalPeriod :
  (fastPeriod <= slowPeriod)%nat ->
  (slowPeriod + signalPeriod <= length prices)%nat ->
  exists v, calculateMACD prices fastPeriod slowPeriod signalPeriod = Ok v.
Proof.
  intros Hfs H. unfold calculateMACD.
  destruct (Nat.ltb_spec (length prices) (slowPeriod + signalPeriod)); [lia|].
  destruct (calculateEMA_ok prices fastPeriod) as [fast Hfast]; [lia|].
  destruct (calculateEMA_ok prices slowPeriod) as [slow Hslow]; [lia|].
  rewrite Hfast, Hslow. cbn.
  match goal with |- context [mapR ?f ?xs] =>
    destruct (mapR_ok f xs) as [macdValues [Hvalues Hlen]] end.
  { intros i Hi. apply elem_of_seq in Hi.
    destruct (calculateEMA_ok (slice 0 i prices) fastPeriod) as [a Ha].
    { rewrite length_slice_prefix; lia. }
    destruct (calculateEMA_ok (slice 0 i prices) slowPeriod) as [b Hb].
    { rewrite length_slice_prefix; lia. }
    rewrite Ha, Hb. cbn. eauto. }
  rewrite Hvalues. cbn. rewrite length_seq in Hlen.
  destruct (Nat.leb_spec signalPeriod (length macdValues)); [|lia].
  destruct (calculateEMA_ok macdValues signalPeriod) as [sig Hsig]; [lia|].
  rewrite Hsig. cbn. eauto.
Qed.

Lemma Dec_max_ok xs : xs <> [] -> exists v, Dec.max xs = Ok v.
Proof. destruct xs; [done|]. cbn. eauto. Qed.

Lemma Dec_min_ok xs : xs <> [] -> exists v, Dec.min xs = Ok v.
Proof. destruct xs; [done|]. cbn. eauto. Qed.

Lemma calculateStochastic_ok prices kPeriod dPeriod :
  (0 < kPeriod)%nat ->
  (kPeriod + dPeriod <= length prices)%nat ->
  exists v, calculateStochastic prices kPeriod dPeriod = Ok v.
Proof.
  intros Hk H. unfold calculateStochastic.
  destruct (Nat.ltb_spec (length prices) (kPeriod + dPeriod)); [lia|].
  destruct kPeriod as [|k0]; [lia|].
  match goal with |- context [mapR ?f ?xs] =>
    destruct (mapR_ok f xs) as [kValues [Hvalues Hlen]] end.
  { intros i Hi. apply elem_of_seq in Hi.
    assert (Hne : slice (i - k0) (i + 1) prices <> []).
    { apply nonempty_of_length. unfold slice.
      rewrite length_take, length_drop. lia. }
    destruct (Dec_max_ok (map high (slice (i - k0) (i + 1) prices))) as [hi Hhi].
    { intros E. apply Hne. by destruct (slice (i - k0) (i + 1) prices). }
    destruct (Dec_min_ok (map low (slice (i - k0) (i + 1) prices))) as [lo Hlo].
    { intros E. apply Hne. by destruct (slice (i - k0) (i + 1) prices). }
    rewrite Hhi, Hlo. cbn.
    destruct (last (slice (i - k0) (i + 1) prices)) eqn:Hlast.
    - eauto.
    - apply last_None in Hlast. done. }
  rewrite Hvalues. cbn. rewrite length_seq in Hlen.
  destruct (last kValues) eqn:Hlast.
  - eauto.
  - apply last_None in Hlast. subst kValues. cbn in Hlen. lia.
Qed.

(** The scorer, unfolded on a window of at least 200 samples. *)
Lemma calculateMomentumScore_unfold prices direction :
  (200 <= length prices)%nat ->
  exists rsi m ema20 ema50 ema200 price bollinger stochastic,
    calculateRSI prices 14 = Ok rsi
    /\ calculateMACD (map close prices) 12 26 9 = Ok m
    /\ calculateEMA (map close prices) 20 = Ok ema20
    /\ calculateEMA (map close prices) 50 = Ok ema50
    /\ calculateEMA (map close prices) 200 = Ok ema200
    /\ last (map close prices) = Some price
    /\ calculateBollingerBands (map close prices) 20 (Dec.Fin 2) = Ok bollinger
    /\ calculateStochastic prices 14 3 = Ok stochastic
    /\ calculateMomentumScore prices direction =
       Ok {| score :=
               Dec.plus
                 (Dec.plus
                    (Dec.plus
                       (Dec.plus
                          (Dec.plus (Dec.Fin 0) (Dec.Fin (rsiScore direction rsi)))
                          (Dec.Fin (macdScore direction m)))
                       (Dec.Fin (emaScore direction price ema20 ema50 ema200)))
                    (Dec.Fin (bbScore direction (pricePositionOf price bollinger))))
                 (Dec.Fin (stochScore direction stochastic));
             components :=
               [("rsi", rsiScore direction rsi);
                ("macd", macdScore direction m);
                ("ema", emaScore direction price ema20 ema50 ema200);
                ("bollinger", bbScore direction (pricePositionOf price bollinger));
                ("stochastic", stochScore direction stochastic)] |}.
Proof.
  intros Hlen.
  assert (Hclose : length (map close prices) = length prices) by apply length_map.
  destruct (calculateRSI_ok prices 14) as [rsi Hrsi]; [lia|].
  destruct (calculateMACD_ok (map close prices) 12 26 9) as [m Hm]; [lia|lia|].
  destruct (calculateEMA_ok (map close prices) 20) as [ema20 H20]; [lia|].
  destruct (calculateEMA_ok (map close prices) 50) as [ema50 H50]; [lia|].
  destruct (calculateEMA_ok (map close prices) 200) as [ema200 H200]; [lia|].
  destruct (calculateBollingerBands_ok (map close prices) 20 (Dec.Fin 2))
    as [bollinger Hbb]; [lia|].
  destruct (calculateStochastic_ok prices 14 3) as [stochastic Hst]; [lia|lia|].
  destruct (last (map close prices)) as [price|] eqn:Hlast.
  2:{ apply last_None in Hlast. rewrite Hlast in Hclose. cbn in Hclose. lia. }
  exists rsi, m, ema20, ema50, ema200, price, bollinger, stochastic.
  repeat (split; [assumption || reflexivity|]).
  unfold calculateMomentumScore.
  destruct (Nat.ltb_spec (length prices) 200); [lia|].
  rewrite Hrsi, Hm, H20, H50, H200, Hlast, Hbb, Hst. reflexivity.
Qed.

End IndicatorTotality.

(** ** Momentum scorer *)

Section MomentumScore.

Import TechnicalIndicators.

Ltac split_ifs_goal :=
  repeat match goal with
  | |- context [if ?c then _ else _] => destruct c eqn:?
  end.

Ltac literal_bounds := split; unfold Qle; cbn; lia.

Lemma rsiScore_range direction rsi : 0 <= rsiScore direction rsi <= weightRSI.
Proof.
  unfold rsiScore, weightRSI. destruct direction; split_ifs_goal; literal_bounds.
Qed.

Lemma macdScore_range direction m : 0 <= macdScore direction m <= weightMACD.
Proof.
  unfold macdScore, weightMACD. destruct direction; split_ifs_goal; literal_bounds.
Qed.

Lemma emaScore_range direction price ema20 ema50 ema200 :
  0 <= emaScore direction price ema20 ema50 ema200 <= weightEMA.
Proof.
  unfold emaScore, weightEMA. destruct direction; cbv zeta;
    split_ifs_goal; literal_bounds.
Qed.

Lemma bbScore_range direction pricePosition :
  0 <= bbScore direction pricePosition <= weightBollinger.
Proof.
  unfold bbScore, weightBollinger. destruct direction; split_ifs_goal; literal_bounds.
Qed.

Lemma stochScore_range direction s : 0 <= stochScore direction s <= weightStochastic.
Proof.
  unfold stochScore, weightStochastic. destruct direction;
    split_ifs_goal; literal_bounds.
Qed.

Lemma rsiScore_zone direction rsi :
  rsiFavorable direction rsi = false -> rsiScore direction rsi = 0.
Proof.
  destruct direction, rsi as [q| |[]]; cbn; try done;
    unfold_comparisons; split_comparisons; cbn; try done;
    qbool; intros _; exfalso; lra.
Qed.

Lemma macdScore_zone direction m :
  macdFavorable direction m = false -> macdScore direction m = 0.
Proof.
  unfold macdFavorable, macdScore. destruct direction; intros H;
    apply orb_false_iff in H as [-> ->]; reflexivity.
Qed.

Lemma emaScore_zone direction price ema20 ema50 ema200 :
  emaFavorable direction price ema20 = false ->
  emaScore direction price ema20 ema50 ema200 = 0.
Proof.
  unfold emaFavorable, emaScore. destruct direction; intros ->; reflexivity.
Qed.

Lemma bbScore_zone direction pricePosition :
  bbFavorable direction pricePosition = false -> bbScore direction pricePosition = 0.
Proof.
  destruct direction, pricePosition as [q| |[]]; cbn; try done;
    unfold_comparisons; split_comparisons; cbn; try done;
    qbool; intros _; exfalso; lra.
Qed.

Lemma stochScore_zone direction s :
  stochFavorable direction s = false -> stochScore direction s = 0.
Proof.
  unfold stochFavorable, stochScore. destruct direction; intros H;
    apply orb_false_iff in H as [-> ->]; reflexivity.
Qed.

Lemma weights_attained direction :
  (exists rsi, rsiScore direction rsi = weightRSI)
  /\ (exists m, macdScore direction m = weightMACD)
  /\ (exists price ema20 ema50 ema200,
        emaScore direction price ema20 ema50 ema200 = weightEMA)
  /\ (exists pricePosition, bbScore direction pricePosition = weightBollinger)
  /\ (exists s, stochScore direction s = weightStochastic).
Proof.
  destruct direction.
  - split; [exists (Dec.Fin 40); reflexivity|].
    split; [exists {| macd := Dec.Fin 2; signal := Dec.Fin 1; histogram := Dec.Fin 1 |};
            reflexivity|].
    split; [exists (Dec.Fin 4), (Dec.Fin 3), (Dec.Fin 2), (Dec.Fin 1); reflexivity|].
    split; [exists (Dec.Fin 0.2); reflexivity|].
    exists {| k := Dec.Fin 20; d := Dec.Fin 10 |}; reflexivity.
  - split; [exists (Dec.Fin 60); reflexivity|].
    split; [exists {| macd := Dec.Fin 1; signal := Dec.Fin 2; histogram := Dec.Fin (-1) |};
            reflexivity|].
    split; [exists (Dec.Fin 1), (Dec.Fin 2), (Dec.Fin 3), (Dec.Fin 4); reflexivity|].
    split; [exists (Dec.Fin 0.8); reflexivity|].
    exists {| k := Dec.Fin 80; d := Dec.Fin 90 |}; reflexivity.
Qed.

Lemma total_of_scores (r m e b s : Q) :
  exists total,
    Dec.plus (Dec.plus (Dec.plus (Dec.plus (Dec.plus (Dec.Fin 0) (Dec.Fin r))
                                           (Dec.Fin m)) (Dec.Fin e)) (Dec.Fin b))
             (Dec.Fin s) = Dec.Fin total
    /\ total == r + m + e + b + s.
Proof.
  eexists. split; [reflexivity|].
  rewrite !Qred_correct. ring.
Qed.

(** C8: on a window of at least 200 samples the momentum score is the sum
    of the five sub-scores [rsi], [macd], [ema], [bollinger], [stochastic];
    each lies between 0 and its weight (0.20, 0.20, 0.25, 0.15, 0.20, which
    sum to 1 and are attained), each is 0 outside its favourable zone, and
    the score lies in [0, 1]. *)
Theorem momentum_score_weighted_sum prices direction :
  (200 <= length prices)%nat ->
  exists rsi m ema20 ema50 ema200 price bollinger stochastic total,
    calculateRSI prices 14 = Ok rsi
    /\ calculateMACD (map close prices) 12 26 9 = Ok m
    /\ calculateEMA (map close prices) 20 = Ok ema20
    /\ calculateEMA (map close prices) 50 = Ok ema50
    /\ calculateEMA (map close prices) 200 = Ok ema200
    /\ last (map close prices) = Some price
    /\ calculateBollingerBands (map close prices) 20 (Dec.Fin 2) = Ok bollinger
    /\ calculateStochastic prices 14 3 = Ok stochastic
    /\ let rsiS := rsiScore direction rsi in
       let macdS := macdScore direction m in
       let emaS := emaScore direction price ema20 ema50 ema200 in
       let bbS := bbScore direction (pricePositionOf price bollinger) in
       let stochS := stochScore direction stochastic in
       calculateMomentumScore prices direction =
         Ok {| score := Dec.Fin total;
               components := [("rsi", rsiS); ("macd", macdS); ("ema", emaS);
                              ("bollinger", bbS); ("stochastic", stochS)] |}
       /\ total == rsiS + macdS + emaS + bbS + stochS
       /\ 0 <= rsiS <= weightRSI
       /\ 0 <= macdS <= weightMACD
       /\ 0 <= emaS <= weightEMA
       /\ 0 <= bbS <= weightBollinger
       /\ 0 <= stochS <= weightStochastic
       /\ weightRSI + weightMACD + weightEMA + weightBollinger + weightStochastic == 1
       /\ ((exists x, rsiScore direction x = weightRSI)
           /\ (exists x, macdScore direction x = weightMACD)
           /\ (exists p e20 e50 e200, emaScore direction p e20 e50 e200 = weightEMA)
           /\ (exists x, bbScore direction x = weightBollinger)
           /\ (exists x, stochScore direction x = weightStochastic))
       /\ (rsiFavorable direction rsi = false -> rsiS = 0)
       /\ (macdFavorable direction m = false -> macdS = 0)
       /\ (emaFavorable direction price ema20 = false -> emaS = 0)
       /\ (bbFavorable direction (pricePositionOf price bollinger) = false -> bbS = 0)
       /\ (stochFavorable direction stochastic = false -> stochS = 0)
       /\ 0 <= total <= 1.
Proof.
  intros Hlen.
  destruct (calculateMomentumScore_unfold prices direction Hlen)
    as (rsi & m & ema20 & ema50 & ema200 & price & bollinger & stochastic
        & Hrsi & Hm & H20 & H50 & H200 & Hlast & Hbb & Hst & Hscore).
  destruct (total_of_scores (rsiScore direction rsi) (macdScore direction m)
              (emaScore direction price ema20 ema50 ema200)
              (bbScore direction (pricePositionOf price bollinger))
              (stochScore direction stochastic)) as (total & Htotal & Hsum).
  exists rsi, m, ema20, ema50, ema200, price, bollinger, stochastic, total.
  repeat (split; [assumption|]).
  cbv zeta.
  pose proof (rsiScore_range direction rsi) as Hr.
  pose proof (macdScore_range direction m) as Hmr.
  pose proof (emaScore_range direction price ema20 ema50 ema200) as Her.
  pose proof (bbScore_range direction (pricePositionOf price bollinger)) as Hbr.
  pose proof (stochScore_range direction stochastic) as Hsr.
  split; [rewrite Hscore, Htotal; reflexivity|].
  split; [exact Hsum|].
  do 5 (split; [assumption|]).
  split; [reflexivity|].
  split; [apply weights_attained|].
  split; [apply rsiScore_zone|].
  split; [apply macdScore_zone|].
  split; [apply emaScore_zone|].
  split; [apply bbScore_zone|].
  split; [apply stochScore_zone|].
  unfold weightRSI, weightMACD, weightEMA, weightBollinger, weightStochastic in *.
  rewrite Hsum. lra.
Qed.

(** C10: [calculateMomentumScore] returns on every window; below 200
    samples the result is score 0 with no component; each indicator throws
    exactly below its own minimum (RSI 15, MACD 35, EMA 20/50/200,
    Bollinger 20, Stochastic 17), so none throws from 200 samples on. *)
Theorem calculateMomentumScore_total prices direction :
  isOk (calculateMomentumScore prices direction) = true
  /\ ((length prices < 200)%nat ->
      calculateMomentumScore prices direction =
        Ok {| score := Dec.Fin 0; components := [] |})
  /\ isOk (calculateRSI prices 14) = (15 <=? length prices)%nat
  /\ isOk (calculateMACD (map close prices) 12 26 9) = (35 <=? length prices)%nat
  /\ isOk (calculateEMA (map close prices) 20) = (20 <=? length prices)%nat
  /\ isOk (calculateEMA (map close prices) 50) = (50 <=? length prices)%nat
  /\ isOk (calculateEMA (map close prices) 200) = (200 <=? length prices)%nat
  /\ isOk (calculateBollingerBands (map close prices) 20 (Dec.Fin 2))
     = (20 <=? length prices)%nat
  /\ isOk (calculateStochastic prices 14 3) = (17 <=? length prices)%nat
  /\ ((200 <= length prices)%nat ->
      isOk (calculateRSI prices 14) = true
      /\ isOk (calculateMACD (map close prices) 12 26 9) = true
      /\ isOk (calculateEMA (map close prices) 20) = true
      /\ isOk (calculateEMA (map close prices) 50) = true
      /\ isOk (calculateEMA (map close prices) 200) = true
      /\ isOk (calculateBollingerBands (map close prices) 20 (Dec.Fin 2)) = true
      /\ isOk (calculateStochastic prices 14 3) = true).
Proof.
  assert (Hclose : length (map close prices) = length prices) by apply length_map.
  assert (Hrsi : isOk (calculateRSI prices 14) = (15 <=? length prices)%nat).
  { destruct (Nat.leb_spec 15 (length prices)) as [H|H].
    - destruct (calculateRSI_ok prices 14) as [v ->]; [lia | reflexivity].
    - unfold calculateRSI. destruct (Nat.ltb_spec (length prices) (14 + 1)); [done|lia]. }
  assert (Hmacd : isOk (calculateMACD (map close prices) 12 26 9)
                  = (35 <=? length prices)%nat).
  { destruct (Nat.leb_spec 35 (length prices)) as [H|H].
    - destruct (calculateMACD_ok (map close prices) 12 26 9) as [v ->];
        [lia | lia | reflexivity].
    - unfold calculateMACD.
      destruct (Nat.ltb_spec (length (map close prices)) (26 + 9)); [done|lia]. }
  assert (Hema : forall n,
             isOk (calculateEMA (map close prices) n) = (n <=? length prices)%nat).
  { intros n. destruct (Nat.leb_spec n (length prices)) as [H|H].
    - destruct (calculateEMA_ok (map close prices) n) as [v ->]; [lia | reflexivity].
    - unfold calculateEMA.
      destruct (Nat.ltb_spec (length (map close prices)) n); [done|lia]. }
  assert (Hbb : isOk (calculateBollingerBands (map close prices) 20 (Dec.Fin 2))
                = (20 <=? length prices)%nat).
  { destruct (Nat.leb_spec 20 (length prices)) as [H|H].
    - destruct (calculateBollingerBands_ok (map close prices) 20 (Dec.Fin 2))
        as [v ->]; [lia | reflexivity].
    - unfold calculateBollingerBands.
      destruct (Nat.ltb_spec (length (map close prices)) 20); [done|lia]. }
  assert (Hst : isOk (calculateStochastic prices 14 3) = (17 <=? length prices)%nat).
  { destruct (Nat.leb_spec 17 (length prices)) as [H|H].
    - destruct (calculateStochastic_ok prices 14 3) as [v ->];
        [lia | lia | reflexivity].
    - unfold calculateStochastic.
      destruct (Nat.ltb_spec (length prices) (14 + 3)); [done|lia]. }
  assert (Hshort : (length prices < 200)%nat ->
                   calculateMomentumScore prices direction =
                     Ok {| score := Dec.Fin 0; components := [] |}).
  { intros H. unfold calculateMomentumScore.
    destruct (Nat.ltb_spec (length prices) 200); [done|lia]. }
  split.
  { destruct (Nat.lt_ge_cases (length prices) 200) as [H|H].
    - rewrite Hshort by done. reflexivity.
    - destruct (calculateMomentumScore_unfold prices direction H)
        as (? & ? & ? & ? & ? & ? & ? & ? & _ & _ & _ & _ & _ & _ & _ & _ & ->).
      reflexivity. }
  split; [exact Hshort|].
  split; [exact Hrsi|]. split; [exact Hmacd|].
  split; [apply Hema|]. split; [apply Hema|]. split; [apply Hema|].
  split; [exact Hbb|]. split; [exact Hst|].
  intros H. rewrite Hrsi, Hmacd, !Hema, Hbb, Hst.
  repeat split; apply Nat.leb_le; lia.
Qed.

End MomentumScore.

(** ** Order-status mapping *)

(** C9 (as the code has it): an unrecognised status, here ["expired"], is
    mapped to [FILLED], a terminal status, with a warning. *)
Lemma mapOrderStatus_expired_is_filled :
  recognisedStatus (EnclaveClient.normalizeStatus (Some "expired")) = false
  /\ EnclaveClient.mapOrderStatus (Some "expired") = (FILLED, true)
  /\ terminalStatus FILLED = true.
Proof. repeat split. Qed.

(** C9 (amended): every status that is not recognised after lower-casing,
    a missing one included, is mapped to [FILLED] and the warning
    "Unknown order status ... treating as FILLED" is logged; [OrderStatus]
    has no unknown member. *)
Theorem mapOrderStatus_unrecognised_is_filled status :
  recognisedStatus (EnclaveClient.normalizeStatus status) = false ->
  EnclaveClient.mapOrderStatus status = (FILLED, true)
  /\ terminalStatus (fst (EnclaveClient.mapOrderStatus status)) = true.
Proof.
  unfold recognisedStatus, EnclaveClient.isOneOf. rewrite !existsb_app.
  intros H.
  do 4 (apply orb_false_iff in H as [? H]).
  unfold EnclaveClient.mapOrderStatus, EnclaveClient.isOneOf.
  repeat match goal with Hc : existsb _ _ = false |- _ => rewrite Hc; clear Hc end.
  split; reflexivity.
Qed.

(** A missing status is unrecognised and maps to [FILLED]. *)
Lemma mapOrderStatus_unrecognised_is_filled_witness :
  EnclaveClient.mapOrderStatus None = (FILLED, true)
  /\ terminalStatus (fst (EnclaveClient.mapOrderStatus None)) = true.
Proof. apply (mapOrderStatus_unrecognised_is_filled None). reflexivity. Defined.

(** ** Running the effect monad symbolically *)

Ltac run_monad :=
  repeat progress
    (unfold mbind, M_bind, mret, M_ret, tryCatch, getBot, modifyBot, setDisk, emit,
       nextEffect, liftR, when,
       BreakoutStrategy.now, BreakoutStrategy.clientGetPositions,
       BreakoutStrategy.clientGetOpenOrders, BreakoutStrategy.clientAddOrder,
       BreakoutStrategy.clientCancelOrder, BreakoutStrategy.saveTrailingStops,
       BreakoutStrategy.removePersistedTrailingStop;
     cbn [bot disk effects journal fst snd
          config priceHistory activeSignals trailingStops lossCooldowns
          failedSignalCooldowns lastTrailingStopCheck positionOpenedAt
          partialProfitTaken
          withActiveSignals withTrailingStops withLossCooldowns
          withFailedSignalCooldowns withLastTrailingStopCheck withPositionOpenedAt
          withPartialProfitTaken withPriceHistory]).

Create HintDb frames.

(** ** Frames: what an operation leaves alone *)

Section Frames.

Import BreakoutStrategy.

Context (R : Strategy -> Strategy -> Prop) `{!Reflexive R} `{!Transitive R}.

Lemma preserves_mret {A} (a : A) : preserves R (mret a : M A).
Proof. intros w. cbn. reflexivity. Qed.

Lemma preserves_bind {A B} (m : M A) (f : A -> M B) :
  preserves R m -> (forall a, preserves R (f a)) -> preserves R (m ≫= f).
Proof.
  intros Hm Hf w. specialize (Hm w). unfold mbind, M_bind.
  destruct (m w) as [[a|e] w1]; cbn in *.
  - etransitivity; [exact Hm | apply Hf].
  - exact Hm.
Qed.

Lemma preserves_tryCatch {A} (m handler : M A) :
  preserves R m -> preserves R handler -> preserves R (tryCatch m handler).
Proof.
  intros Hm Hh w. specialize (Hm w). unfold tryCatch.
  destruct (m w) as [[a|e] w1]; cbn in *.
  - exact Hm.
  - etransitivity; [exact Hm | apply Hh].
Qed.

Lemma preserves_liftR {A} (r : Result A) : preserves R (liftR r).
Proof. intros w. cbn. reflexivity. Qed.

Lemma preserves_getBot : preserves R getBot.
Proof. intros w. cbn. reflexivity. Qed.

Lemma preserves_emit e : preserves R (emit e).
Proof. intros w. cbn. reflexivity. Qed.

Lemma preserves_setDisk f : preserves R (setDisk f).
Proof. intros w. cbn. reflexivity. Qed.

Lemma preserves_nextEffect : preserves R nextEffect.
Proof. intros w. cbn. reflexivity. Qed.

Lemma preserves_modifyBot f : (forall s, R s (f s)) -> preserves R (modifyBot f).
Proof. intros Hf w. cbn. apply Hf. Qed.

Lemma preserves_when b (m : M unit) : preserves R m -> preserves R (when b m).
Proof. intros Hm. destruct b; [exact Hm | apply preserves_mret]. Qed.

Lemma preserves_forEach {A} (xs : list A) (body : A -> M unit) :
  (forall x, preserves R (body x)) -> preserves R (forEach xs body).
Proof.
  intros Hbody. induction xs as [|x xs IH]; cbn.
  - apply preserves_mret.
  - apply preserves_bind; [apply Hbody | intros _; exact IH].
Qed.

Variable env : Env.

Lemma preserves_now : preserves R (now env).
Proof.
  apply preserves_bind; [apply preserves_nextEffect | intros n; apply preserves_mret].
Qed.

Lemma preserves_clientGetPositions : preserves R (clientGetPositions env).
Proof.
  apply preserves_bind; [apply preserves_nextEffect | intros n; apply preserves_liftR].
Qed.

Lemma preserves_clientGetOpenOrders symbol : preserves R (clientGetOpenOrders env symbol).
Proof.
  apply preserves_bind; [apply preserves_nextEffect | intros n; apply preserves_liftR].
Qed.

Lemma preserves_clientAddOrder symbol side quantity type price :
  preserves R (clientAddOrder env symbol side quantity type price).
Proof.
  apply preserves_bind; [apply preserves_nextEffect | intros n].
  apply preserves_bind; [apply preserves_liftR | intros orderId].
  apply preserves_bind; [apply preserves_emit | intros _; apply preserves_mret].
Qed.

Lemma preserves_clientCancelOrder orderId : preserves R (clientCancelOrder env orderId).
Proof.
  apply preserves_bind; [apply preserves_nextEffect | intros n].
  apply preserves_bind; [|intros _; apply preserves_mret].
  apply preserves_when, preserves_emit.
Qed.

Lemma preserves_saveTrailingStops : preserves R (saveTrailingStops env).
Proof.
  apply preserves_bind; [apply preserves_nextEffect | intros n].
  apply preserves_bind; [apply preserves_getBot | intros s].
  apply preserves_when, preserves_setDisk.
Qed.

Lemma preserves_cancelAll symbol :
  preserves R
    (openOrders ← clientGetOpenOrders env symbol;
     forEach openOrders
       (fun order => _ ← clientCancelOrder env (Order.id order); mret tt)).
Proof.
  apply preserves_bind; [apply preserves_clientGetOpenOrders | intros orders].
  apply preserves_forEach. intros order.
  apply preserves_bind; [apply preserves_clientCancelOrder | intros _; apply preserves_mret].
Qed.

End Frames.

#[export] Hint Resolve preserves_mret preserves_liftR preserves_getBot preserves_emit
  preserves_setDisk preserves_nextEffect preserves_now preserves_clientGetPositions
  preserves_clientGetOpenOrders preserves_clientAddOrder preserves_clientCancelOrder
  preserves_saveTrailingStops preserves_cancelAll : frames.

Ltac frame_intro :=
  try typeclasses eauto;
  try match goal with |- forall _, _ => intros ? end.

Ltac frame_step :=
  first
    [ apply preserves_bind; frame_intro
    | apply preserves_tryCatch; frame_intro
    | apply preserves_when; frame_intro
    | apply preserves_forEach; frame_intro
    | solve [eauto with frames typeclass_instances]
    | match goal with |- preserves _ (match ?x with _ => _ end) => destruct x end
    | match goal with |- preserves _ (if ?x then _ else _) => destruct x end ].

(** ** C1: the trailing stop never loosens *)

Section TrailingStopMonotone.

Import BreakoutStrategy.

Variable symbol : string.

#[local] Instance goneOrSame_refl : Reflexive (goneOrSame symbol).
Proof. intros s. right. done. Qed.

#[local] Instance goneOrSame_trans : Transitive (goneOrSame symbol).
Proof.
  intros s1 s2 s3 [H12|[H12 H12']] [H23|[H23 H23']]; unfold goneOrSame.
  - by left.
  - left. congruence.
  - by left.
  - right. split; congruence.
Qed.

Lemma forgetPosition_goneOrSame env : preserves (goneOrSame symbol) (forgetPosition env symbol).
Proof.
  intros w. left. unfold forgetPosition. run_monad.
  destruct (writeFileSync env (effects w)); run_monad; apply lookup_delete_eq.
Qed.

Lemma lossCooldown_goneOrSame f s : goneOrSame symbol s (withLossCooldowns f s).
Proof. right. done. Qed.

Lemma partialProfit_goneOrSame f s : goneOrSame symbol s (withPartialProfitTaken f s).
Proof. right. done. Qed.

Lemma lastCheck_goneOrSame f s : goneOrSame symbol s (withLastTrailingStopCheck f s).
Proof. right. done. Qed.

Lemma closePosition_goneOrSame env reason :
  preserves (goneOrSame symbol) (closePosition env symbol reason).
Proof.
  unfold closePosition.
  repeat first
    [ apply forgetPosition_goneOrSame
    | apply preserves_modifyBot; apply lossCooldown_goneOrSame
    | frame_step ].
Qed.

Lemma closePartialPosition_goneOrSame env position profitPercent :
  preserves (goneOrSame symbol) (closePartialPosition env symbol position profitPercent).
Proof.
  unfold closePartialPosition.
  repeat first
    [ apply preserves_modifyBot; apply partialProfit_goneOrSame
    | frame_step ].
Qed.

Lemma positionGone_goneOrSame env signal :
  preserves (goneOrSame symbol) (positionGone env symbol signal).
Proof.
  unfold positionGone.
  repeat first
    [ apply forgetPosition_goneOrSame
    | apply preserves_modifyBot; apply lossCooldown_goneOrSame
    | frame_step ].
Qed.

Lemma afterTrail_goneOrSame env signal trailing position :
  preserves (goneOrSame symbol)
    (_ ← checkTakeProfit env symbol signal position (markOf position);
     _ ← checkStopHit env symbol signal trailing (markOf position);
     checkTakeProfitHit env symbol signal (markOf position)).
Proof.
  unfold checkTakeProfit, checkStopHit, checkTakeProfitHit.
  repeat first
    [ apply closePosition_goneOrSame
    | apply closePartialPosition_goneOrSame
    | frame_step ].
Qed.


Lemma tickOutcome_goneOrSame signal trailing s s' :
  tickOutcome symbol signal trailing s -> goneOrSame symbol s s' ->
  tickOutcome symbol signal trailing s'.
Proof.
  intros [Hgone|(Hsig & trailing' & Htr & Hcmp)] [Hgone'|[Htr' Hsig']].
  - by left.
  - left. congruence.
  - by left.
  - right. split; [congruence|]. exists trailing'. split; [congruence | done].
Qed.

Lemma monitorPosition_outcome env signal trailing position w :
  trailingStops (bot w) !! symbol = Some trailing ->
  activeSignals (bot w) !! symbol = Some signal ->
  tickOutcome symbol signal trailing
    (bot (monitorPosition env symbol signal trailing position w).2).
Proof.
  intros Htr Hsig. unfold monitorPosition.
  set (rest := (checkTakeProfit env symbol signal position (markOf position) ≫= _)).
  assert (Hrest : forall w1,
             tickOutcome symbol signal trailing (bot w1) ->
             tickOutcome symbol signal trailing (bot (rest w1).2)).
  { intros w1 H1. eapply tickOutcome_goneOrSame; [exact H1|].
    apply afterTrail_goneOrSame. }
  assert (Hsame : tickOutcome symbol signal trailing (bot w)).
  { right. split; [done|]. exists trailing. split; [done | by left]. }
  clearbody rest. unfold trailStop. run_monad.
  destruct (Signal.side signal) eqn:Hside.
  - destruct (Dec.greaterThan (markOf position) (TrailingStop.high trailing)).
    + destruct (Dec.greaterThan _ (TrailingStop.stop trailing)) eqn:Hadopt.
      * run_monad.
        destruct (writeFileSync env _); run_monad;
          (match goal with |- context [rest ?w1] => pose proof (Hrest w1) as Hr end;
           destruct (rest _) as [[[]|e] w5]; cbn in *; apply Hr);
          right; (split; [done|]); eexists; (split; [apply lookup_insert_eq|]);
          right; rewrite Hside; exact Hadopt.
      * run_monad.
        match goal with |- context [rest ?w1] => specialize (Hrest w1) end.
        destruct (rest _) as [[[]|e] w5]; cbn in *; apply Hrest; exact Hsame.
    + run_monad.
      match goal with |- context [rest ?w1] => specialize (Hrest w1) end.
      destruct (rest _) as [[[]|e] w5]; cbn in *; apply Hrest; exact Hsame.
  - destruct (Dec.lessThan (markOf position) (TrailingStop.high trailing)).
    + destruct (Dec.lessThan _ (TrailingStop.stop trailing)) eqn:Hadopt.
      * run_monad.
        destruct (writeFileSync env _); run_monad;
          (match goal with |- context [rest ?w1] => pose proof (Hrest w1) as Hr end;
           destruct (rest _) as [[[]|e] w5]; cbn in *; apply Hr);
          right; (split; [done|]); eexists; (split; [apply lookup_insert_eq|]);
          right; rewrite Hside; exact Hadopt.
      * run_monad.
        match goal with |- context [rest ?w1] => specialize (Hrest w1) end.
        destruct (rest _) as [[[]|e] w5]; cbn in *; apply Hrest; exact Hsame.
    + run_monad.
      match goal with |- context [rest ?w1] => specialize (Hrest w1) end.
      destruct (rest _) as [[[]|e] w5]; cbn in *; apply Hrest; exact Hsame.
Qed.

Lemma updateTrailingStops_outcome env signal trailing w :
  trailingStops (bot w) !! symbol = Some trailing ->
  activeSignals (bot w) !! symbol = Some signal ->
  tickOutcome symbol signal trailing (bot (updateTrailingStops env symbol w).2).
Proof.
  intros Htr Hsig.
  assert (Hsame : tickOutcome symbol signal trailing (bot w)).
  { right. split; [done|]. exists trailing. split; [done | by left]. }
  unfold updateTrailingStops. run_monad. rewrite Htr, Hsig.
  destruct (getPositions env (effects w)) as [positions|e]; run_monad; [|exact Hsame].
  destruct (findPosition symbol positions) as [position|].
  - match goal with |- context [monitorPosition _ _ _ _ _ ?w1] =>
      pose proof (monitorPosition_outcome env signal trailing position w1 Htr Hsig) as H
    end.
    destruct (monitorPosition _ _ _ _ _ _) as [[[]|e] w2]; exact H.
  - match goal with |- context [positionGone _ _ _ ?w1] =>
      pose proof (positionGone_goneOrSame env signal w1) as H
    end.
    destruct (positionGone _ _ _ _) as [[[]|e] w2]; cbn in *;
      (eapply tickOutcome_goneOrSame; [exact Hsame | exact H]).
Qed.

Lemma updateTrailingStops_untracked env w :
  trailingStops (bot w) !! symbol = None ->
  bot (updateTrailingStops env symbol w).2 = bot w.
Proof. intros Htr. unfold updateTrailingStops. run_monad. rewrite Htr. reflexivity. Qed.

Lemma monitorTicks_untracked envs w :
  trailingStops (bot w) !! symbol = None ->
  trailingStops (bot (monitorTicks envs symbol w)) !! symbol = None.
Proof.
  revert w. induction envs as [|env envs IH]; intros w Htr; cbn; [done|].
  apply IH. rewrite updateTrailingStops_untracked; done.
Qed.

Lemma lessThan_trans a b c :
  Dec.lessThan a b = true -> Dec.lessThan b c = true -> Dec.lessThan a c = true.
Proof.
  destruct a as [x| |[]], b as [y| |[]], c as [z| |[]]; cbn; try done.
  intros; qbool. apply Qltb_true. lra.
Qed.

Lemma moreProtective_trans side a b c :
  moreProtective side a b = true -> moreProtective side b c = true ->
  moreProtective side a c = true.
Proof.
  destruct side; unfold moreProtective, Dec.greaterThan; intros Hab Hbc.
  - exact (lessThan_trans c b a Hbc Hab).
  - exact (lessThan_trans a b c Hab Hbc).
Qed.

Lemma notLoosened_trans side a b c :
  notLoosened side a b -> notLoosened side b c -> notLoosened side a c.
Proof.
  intros [->|Hab] [->|Hbc]; unfold notLoosened; auto.
  right. eapply moreProtective_trans; eauto.
Qed.

Lemma notLoosened_finite side (a b : Q) :
  notLoosened side (Dec.Fin a) (Dec.Fin b) ->
  match side with BUY => a <= b | SELL => b <= a end.
Proof.
  intros [H|H].
  - injection H as ->. destruct side; lra.
  - destruct side; cbn in H; qbool; lra.
Qed.

(** Ticks that run one after another, each returning before the next is
    called: over any sequence of them the stored stop level of an open
    position only moves in the protective direction (never down for a long,
    never up for a short), and a tick replaces the stop only by a strictly
    more protective one. *)
Theorem trailing_stop_never_loosens (w : World) (side : OrderSide) (before : Decimal) :
  positionSide w symbol = Some side ->
  stopLevel w symbol = Some before ->
  (forall envs after,
      stopLevel (monitorTicks envs symbol w) symbol = Some after ->
      notLoosened side before after)
  /\ (forall envs (x y : Q),
        before = Dec.Fin x ->
        stopLevel (monitorTicks envs symbol w) symbol = Some (Dec.Fin y) ->
        match side with BUY => x <= y | SELL => y <= x end)
  /\ (forall env after,
        stopLevel (updateTrailingStops env symbol w).2 symbol = Some after ->
        after <> before ->
        moreProtective side after before = true).
Proof.
  intros Hside Hstop.
  assert (Hrun : forall envs w0 cur after,
             positionSide w0 symbol = Some side ->
             stopLevel w0 symbol = Some cur ->
             stopLevel (monitorTicks envs symbol w0) symbol = Some after ->
             notLoosened side cur after).
  { clear. induction envs as [|env envs IH]; intros w0 cur after Hside Hstop Hafter.
    - cbn in Hafter. left. congruence.
    - cbn in Hafter. unfold positionSide, stopLevel in Hside, Hstop.
      destruct (activeSignals (bot w0) !! symbol) as [signal|] eqn:Hsig; [|done].
      destruct (trailingStops (bot w0) !! symbol) as [trailing|] eqn:Htr; [|done].
      cbn in Hside, Hstop. injection Hside as <-. injection Hstop as <-.
      destruct (updateTrailingStops_outcome env signal trailing w0 Htr Hsig)
        as [Hgone|(Hsig' & trailing' & Htr' & Hcmp)].
      + pose proof (monitorTicks_untracked envs _ Hgone) as Hnone.
        unfold stopLevel in Hafter. rewrite Hnone in Hafter. done.
      + eapply notLoosened_trans; [|eapply IH; [| |exact Hafter]].
        * destruct Hcmp as [->|Hcmp]; [by left | by right].
        * unfold positionSide. rewrite Hsig'. reflexivity.
        * unfold stopLevel. rewrite Htr'. reflexivity. }
  split; [|split].
  - intros envs after. apply Hrun; done.
  - intros envs x y -> Hafter. apply notLoosened_finite. eapply Hrun; eauto.
  - intros env after Hafter Hne.
    destruct (Hrun [env] w before after Hside Hstop Hafter) as [->|H]; done.
Qed.

End TrailingStopMonotone.

(** ** Ticks that overlap *)

Section OverlappingTicks.

Import BreakoutStrategy.

(** A tick that nothing interrupts is its start followed at once by its
    continuation. *)
Lemma updateTrailingStops_reads_then_waits env symbol w :
  updateTrailingStops env symbol w
  = match readAtStart (bot w) symbol with
    | Some read => afterGetPositions env symbol read w
    | None => (Ok tt, w)
    end.
Proof.
  unfold updateTrailingStops, readAtStart, afterGetPositions.
  unfold mbind at 1, M_bind at 1, getBot.
  destruct (trailingStops (bot w) !! symbol), (activeSignals (bot w) !! symbol);
    reflexivity.
Qed.

(** The first of two overlapping ticks does what it does alone. *)
Lemma overlappingTicks_first first second symbol read w :
  readAtStart (bot w) symbol = Some read ->
  overlappingTicks first second symbol w
  = (afterGetPositions second symbol read (updateTrailingStops first symbol w).2).2.
Proof.
  intros Hread. unfold overlappingTicks.
  rewrite updateTrailingStops_reads_then_waits, Hread. reflexivity.
Qed.

End OverlappingTicks.

(** ** C6: the generator's own refusals *)

Ltac run_binds :=
  repeat progress
    (unfold mbind, M_bind, mret, M_ret, getBot; cbn [fst snd bot disk effects journal]).

Section GeneratorRefusals.

Import BreakoutStrategy.

Lemma truthyZ_true z : z <> 0%Z -> truthyZ z = true.
Proof. intros H. unfold truthyZ. destruct (Z.eqb_spec z 0); done. Qed.

(** A cooldown check never throws and touches the strategy only through
    its [expire] action. *)
Lemma cooldownBlocks_cases env timestamp duration f w :
  exists b w',
    cooldownBlocks env timestamp duration (modifyBot f) w = (Ok b, w')
    /\ disk w' = disk w /\ journal w' = journal w
    /\ (bot w' = bot w \/ (b = false /\ is_Some timestamp /\ bot w' = f (bot w))).
Proof.
  unfold cooldownBlocks. destruct timestamp as [since|]; [|by eauto 10].
  destruct (truthyZ since); [|by eauto 10]. run_monad.
  destruct (_ <? _)%Z; run_monad; eauto 10.
Qed.

Lemma cooldownBlocks_inside env since duration expire w :
  since <> 0%Z -> (dateNow env (effects w) < since + duration)%Z ->
  exists w',
    cooldownBlocks env (Some since) duration expire w = (Ok true, w')
    /\ bot w' = bot w /\ disk w' = disk w /\ journal w' = journal w.
Proof.
  intros Hnz Hlt. unfold cooldownBlocks. rewrite truthyZ_true by exact Hnz. run_monad.
  destruct (Z.ltb_spec (dateNow env (effects w) - since) duration); [|lia].
  eauto.
Qed.

(** C6 (amended): [generateSignal] returns [null] for an instrument that has
    an active signal, is inside a loss cooldown, or is inside a failed-order
    cooldown, whatever the price window holds.  Nothing is written in the
    first two cases; in the third the only possible write is the removal of
    an already expired loss-cooldown entry of that instrument. *)
Theorem generateSignal_refuses env symbol w :
  (is_Some (activeSignals (bot w) !! symbol) ->
   generateSignal env symbol w = (Ok None, w))
  /\ (inLossCooldown (bot w) symbol (dateNow env (effects w)) ->
      (generateSignal env symbol w).1 = Ok None
      /\ bot (generateSignal env symbol w).2 = bot w
      /\ disk (generateSignal env symbol w).2 = disk w
      /\ journal (generateSignal env symbol w).2 = journal w)
  /\ ((forall i, inFailedOrderCooldown (bot w) symbol (dateNow env i)) ->
      (generateSignal env symbol w).1 = Ok None
      /\ (bot (generateSignal env symbol w).2 = bot w
          \/ bot (generateSignal env symbol w).2
             = withLossCooldowns (delete symbol) (bot w))
      /\ (lossCooldowns (bot w) !! symbol = None ->
          bot (generateSignal env symbol w).2 = bot w)
      /\ disk (generateSignal env symbol w).2 = disk w
      /\ journal (generateSignal env symbol w).2 = journal w).
Proof.
  split; [|split].
  - intros Hactive. unfold generateSignal. run_binds.
    destruct (priceHistory (bot w) !! symbol) as [history|]; [|reflexivity].
    destruct (length history <? 200)%nat; [reflexivity|].
    rewrite bool_decide_eq_true_2 by exact Hactive. reflexivity.
  - intros (since & Hsince & Hnz & Hlt). unfold generateSignal. run_binds.
    destruct (priceHistory (bot w) !! symbol) as [history|]; [|by auto].
    destruct (length history <? 200)%nat; [by auto|].
    destruct (bool_decide _); [by auto|].
    rewrite Hsince.
    destruct (cooldownBlocks_inside env since LOSS_COOLDOWN_MS
                (modifyBot (withLossCooldowns (delete symbol))) w Hnz Hlt)
      as (w1 & -> & Hb & Hd & Hj).
    cbn. auto.
  - intros Hfailed. unfold generateSignal. run_binds.
    destruct (priceHistory (bot w) !! symbol) as [history|]; [|by auto].
    destruct (length history <? 200)%nat; [by auto|].
    destruct (bool_decide _); [by auto|].
    destruct (cooldownBlocks_cases env (lossCooldowns (bot w) !! symbol)
                LOSS_COOLDOWN_MS (withLossCooldowns (delete symbol)) w)
      as (b & w1 & -> & Hd1 & Hj1 & Hb1).
    assert (Hb1' : bot w1 = bot w
                   \/ bot w1 = withLossCooldowns (delete symbol) (bot w)).
    { destruct Hb1 as [?|(_ & _ & ?)]; auto. }
    assert (Hnone : lossCooldowns (bot w) !! symbol = None -> bot w1 = bot w).
    { intros Hn. destruct Hb1 as [?|(_ & [? Hs] & _)]; [done | congruence]. }
    destruct b; [cbn; by auto|].
    destruct (Hfailed (effects w1)) as (since & Hsince & Hnz & Hlt).
    rewrite Hsince.
    destruct (cooldownBlocks_inside env since FAILED_SIGNAL_COOLDOWN_MS
                (modifyBot (withFailedSignalCooldowns (delete symbol))) w1 Hnz Hlt)
      as (w2 & -> & Hb2 & Hd2 & Hj2).
    cbn. rewrite Hb2, Hd2, Hj2. auto.
Qed.

End GeneratorRefusals.

(** ** C5: a rejected entry order *)

Section RejectedEntryOrder.

Import BreakoutStrategy.

Lemma truthyZ_false z : truthyZ z = false -> z = 0%Z.
Proof. unfold truthyZ. destruct (Z.eqb_spec z 0); done. Qed.

Lemma truthyZ_nonzero z : truthyZ z = true -> z <> 0%Z.
Proof. unfold truthyZ. destruct (Z.eqb_spec z 0); done. Qed.

(** C5: when the entry order is rejected, the reservation made in
    [activeSignals] before the attempt is released (the map is what it was),
    a failed-order cooldown is recorded at the time of the failure, and
    neither a loss cooldown nor a trailing stop is created or persisted; no
    order reaches the exchange. *)
Theorem executeSignal_order_rejected env signal customQuantity quantity w :
  activeSignals (bot w) !! Signal.symbol signal = None ->
  (forall i, ~ inLossCooldown (bot w) (Signal.symbol signal) (dateNow env i)) ->
  (forall i, exists positions,
      getPositions env i = Ok positions
      /\ findPosition (Signal.symbol signal) positions = None) ->
  entryQuantity (bot w) signal customQuantity = Some quantity ->
  (forall i, isOk (addOrder env i) = false) ->
  exists failedAt,
    activeSignals (bot (executeSignal env signal customQuantity w).2)
      = activeSignals (bot w)
    /\ positionOpenedAt (bot (executeSignal env signal customQuantity w).2)
         !! Signal.symbol signal = None
    /\ failedSignalCooldowns (bot (executeSignal env signal customQuantity w).2)
       = <[Signal.symbol signal := dateNow env failedAt]>
           (failedSignalCooldowns (bot w))
    /\ (effects w <= failedAt < effects (executeSignal env signal customQuantity w).2)%nat
    /\ lossCooldowns (bot (executeSignal env signal customQuantity w).2)
       = lossCooldowns (bot w)
    /\ trailingStops (bot (executeSignal env signal customQuantity w).2)
       = trailingStops (bot w)
    /\ partialProfitTaken (bot (executeSignal env signal customQuantity w).2)
       = partialProfitTaken (bot w)
    /\ disk (executeSignal env signal customQuantity w).2 = disk w
    /\ journal (executeSignal env signal customQuantity w).2 = journal w.
Proof.
  intros Hfree Hcool Hpos Hqty Hfail.
  unfold executeSignal. run_monad.
  rewrite bool_decide_eq_false_2 by (rewrite Hfree; apply is_Some_None).
  unfold entryQuantity in Hqty.
  destruct (lossCooldowns (bot w) !! Signal.symbol signal) as [since|] eqn:Hloss.
  - destruct (truthyZ since) eqn:Htruthy; run_monad.
    + destruct (Z.ltb_spec (dateNow env (effects w) - since) LOSS_COOLDOWN_MS) as [Hlt|Hge].
      { exfalso. apply (Hcool (effects w)). exists since.
        split; [exact Hloss|]. split; [by apply truthyZ_nonzero | lia]. }
      run_monad.
      destruct (Hpos (S (effects w))) as (positions & -> & ->). run_monad.
      rewrite Hqty. run_monad.
      pose proof (Hfail (S (S (S (effects w))))) as Hf.
      destruct (addOrder env _); [done|]. run_monad.
      exists (S (S (S (S (effects w))))).
      rewrite delete_insert_id by exact Hfree.
      repeat split; try lia. apply lookup_delete_eq.
    + destruct (Hpos (effects w)) as (positions & -> & ->). run_monad.
      rewrite Hqty. run_monad.
      pose proof (Hfail (S (S (effects w)))) as Hf.
      destruct (addOrder env _); [done|]. run_monad.
      exists (S (S (S (effects w)))).
      rewrite delete_insert_id by exact Hfree.
      repeat split; try lia. apply lookup_delete_eq.
  - run_monad.
    destruct (Hpos (effects w)) as (positions & -> & ->). run_monad.
    rewrite Hqty. run_monad.
    pose proof (Hfail (S (S (effects w)))) as Hf.
    destruct (addOrder env _); [done|]. run_monad.
    exists (S (S (S (effects w)))).
    rewrite delete_insert_id by exact Hfree.
    repeat split; try lia. apply lookup_delete_eq.
Qed.

End RejectedEntryOrder.

(** ** Closing a position *)

Lemma bind_run {A B} (m : M A) (f : A -> M B) w a w1 :
  m w = (Ok a, w1) -> (m ≫= f) w = f a w1.
Proof. intros H. unfold mbind, M_bind. rewrite H. reflexivity. Qed.

Lemma bind_throw {A B} (m : M A) (f : A -> M B) w e w1 :
  m w = (Throw e, w1) -> (m ≫= f) w = (Throw e, w1).
Proof. intros H. unfold mbind, M_bind. rewrite H. reflexivity. Qed.

Lemma tryCatch_run {A} (m handler : M A) w a w1 :
  m w = (Ok a, w1) -> tryCatch m handler w = (Ok a, w1).
Proof. intros H. unfold tryCatch. rewrite H. reflexivity. Qed.

Lemma tryCatch_throw {A} (m handler : M A) w e w1 :
  m w = (Throw e, w1) -> tryCatch m handler w = handler w1.
Proof. intros H. unfold tryCatch. rewrite H. reflexivity. Qed.

Section Closing.

Import BreakoutStrategy.

Variable env : Env.

Lemma cancelledOnly_refl w : cancelledOnly w w.
Proof.
  repeat split; [lia|]. exists []. cbn. by rewrite app_nil_r.
Qed.

Lemma cancelledOnly_trans w1 w2 w3 :
  cancelledOnly w1 w2 -> cancelledOnly w2 w3 -> cancelledOnly w1 w3.
Proof.
  intros (Hb & Hd & He & c & Hj) (Hb' & Hd' & He' & c' & Hj').
  repeat split; [congruence | congruence | lia |].
  exists (c ++ c'). rewrite Hj', Hj, map_app, app_assoc. reflexivity.
Qed.

Lemma clientCancelOrder_cancelledOnly orderId w :
  exists b w1, clientCancelOrder env orderId w = (Ok b, w1) /\ cancelledOnly w w1.
Proof.
  unfold clientCancelOrder. run_monad.
  destruct (cancelOrder env (effects w)); run_monad; do 2 eexists;
    (split; [reflexivity|]); repeat split; cbn; try lia.
  - exists [orderId]. reflexivity.
  - exists []. cbn. by rewrite app_nil_r.
Qed.

Lemma cancelEach_cancelledOnly (orders : list Order.t) w :
  exists w1,
    forEach orders (fun order => _ ← clientCancelOrder env (Order.id order); mret tt) w
    = (Ok tt, w1)
    /\ cancelledOnly w w1.
Proof.
  revert w. induction orders as [|order orders IH]; intros w.
  - exists w. split; [reflexivity | apply cancelledOnly_refl].
  - destruct (clientCancelOrder_cancelledOnly (Order.id order) w) as (b & w1 & Hc & H1).
    destruct (IH w1) as (w2 & Hrest & H2).
    exists w2. split; [|eapply cancelledOnly_trans; eauto].
    change (forEach (order :: orders) ?body) with (_ ← body order; forEach orders body).
    erewrite bind_run; [exact Hrest|].
    erewrite bind_run; [reflexivity | exact Hc].
Qed.

(** "Cancel all open orders for this symbol FIRST", inside its own
    [try]: it never fails and only cancels. *)
Lemma cancelAll_cancelledOnly symbol w :
  exists w1,
    tryCatch
      (openOrders ← clientGetOpenOrders env symbol;
       forEach openOrders
         (fun order => _ ← clientCancelOrder env (Order.id order); mret tt))
      (mret tt) w
    = (Ok tt, w1)
    /\ cancelledOnly w w1.
Proof.
  set (w0 := {| bot := bot w; disk := disk w; effects := S (effects w);
                journal := journal w |}).
  assert (H0 : cancelledOnly w w0).
  { repeat split; cbn; [lia|]. exists []. cbn. by rewrite app_nil_r. }
  destruct (getOpenOrders env (effects w)) as [orders|e] eqn:Horders.
  - destruct (cancelEach_cancelledOnly orders w0) as (w1 & Hc & H1).
    exists w1. split; [|eapply cancelledOnly_trans; eauto].
    apply tryCatch_run. erewrite bind_run; [exact Hc|].
    unfold clientGetOpenOrders. erewrite bind_run; [|reflexivity].
    unfold liftR. rewrite Horders. reflexivity.
  - exists w0. split; [|exact H0].
    erewrite tryCatch_throw; [reflexivity|].
    eapply bind_throw. unfold clientGetOpenOrders. erewrite bind_run; [|reflexivity].
    unfold liftR. rewrite Horders. reflexivity.
Qed.

(** [closePosition] on a tracked instrument: the cancellations, then the
    rest of the [try] block from the world they leave. *)
Lemma closePosition_unfold symbol reason signal w :
  activeSignals (bot w) !! symbol = Some signal ->
  exists w1,
    cancelledOnly w w1
    /\ closePosition env symbol reason w
       = tryCatch
           (positions ← clientGetPositions env;
            _ ← match findPosition symbol positions with
                | Some position =>
                    let closeSide := oppositeSide (Position.side position) in
                    _ ← clientAddOrder env symbol closeSide
                          (Position.quantity position) MARKET None;
                    emit (PositionClosed symbol reason)
                | None => mret tt
                end;
            _ ← (if String.eqb reason "Stop Loss Hit" then
                   t ← now env;
                   modifyBot (withLossCooldowns (insert symbol t))
                 else mret tt);
            forgetPosition env symbol)
           (mret tt) w1.
Proof.
  intros Hsig.
  destruct (cancelAll_cancelledOnly symbol w) as (w1 & Hcancel & H1).
  exists w1. split; [exact H1|].
  unfold closePosition.
  assert (Hbody : forall (k : M unit) handler,
             tryCatch
               (s ← getBot;
                match activeSignals s !! symbol with
                | None => mret tt
                | Some _ =>
                    _ ← tryCatch
                          (openOrders ← clientGetOpenOrders env symbol;
                           forEach openOrders
                             (fun order =>
                                _ ← clientCancelOrder env (Order.id order); mret tt))
                          (mret tt);
                    k
                end) handler w
             = tryCatch k handler w1).
  { intros k handler. unfold tryCatch at 1 3.
    erewrite (bind_run getBot); [|reflexivity]. rewrite Hsig.
    erewrite bind_run; [|exact Hcancel]. reflexivity. }
  apply Hbody.
Qed.

Lemma closePosition_untracked symbol reason w :
  activeSignals (bot w) !! symbol = None ->
  closePosition env symbol reason w = (Ok tt, w).
Proof. intros Hsig. unfold closePosition. run_monad. rewrite Hsig. reflexivity. Qed.

End Closing.

(** ** C3: which exits start a loss cooldown *)

Section ExitClassification.

Import BreakoutStrategy.

#[local] Instance sameField_refl {X} (field : Strategy -> X) : Reflexive (sameField field).
Proof. intros s. reflexivity. Qed.

#[local] Instance sameField_trans {X} (field : Strategy -> X) :
  Transitive (sameField field).
Proof. intros s1 s2 s3 H12 H23. unfold sameField in *. congruence. Qed.

Ltac frame_fields :=
  repeat first
    [ apply preserves_modifyBot; intros ?; unfold sameField; reflexivity
    | frame_step ].

Lemma forgetPosition_lossCooldowns env symbol :
  preserves (sameField lossCooldowns) (forgetPosition env symbol).
Proof. unfold forgetPosition, removePersistedTrailingStop. frame_fields. Qed.

Lemma closePosition_other_reason env symbol reason :
  reason <> "Stop Loss Hit" ->
  preserves (sameField lossCooldowns) (closePosition env symbol reason).
Proof.
  intros Hreason. unfold closePosition.
  destruct (String.eqb_spec reason "Stop Loss Hit") as [|_]; [done|].
  unfold forgetPosition, removePersistedTrailingStop. frame_fields.
Qed.

Lemma closePosition_failedSignalCooldowns env symbol reason :
  preserves (sameField failedSignalCooldowns) (closePosition env symbol reason).
Proof.
  unfold closePosition, forgetPosition, removePersistedTrailingStop. frame_fields.
Qed.

Lemma tryCatch_world {A} (m : M A) (a : A) w :
  (tryCatch m (mret a) w).2 = (m w).2.
Proof. unfold tryCatch. destruct (m w) as [[?|?] ?]; reflexivity. Qed.

Lemma closePosition_stop_hit_released env symbol w :
  is_Some (activeSignals (bot w) !! symbol) ->
  activeSignals (bot (closePosition env symbol "Stop Loss Hit" w).2) !! symbol = None ->
  exists closedAt,
    (effects w <= closedAt < effects (closePosition env symbol "Stop Loss Hit" w).2)%nat
    /\ lossCooldowns (bot (closePosition env symbol "Stop Loss Hit" w).2)
       = <[symbol := dateNow env closedAt]> (lossCooldowns (bot w)).
Proof.
  intros [signal Hsig].
  destruct (closePosition_unfold env symbol "Stop Loss Hit" signal w Hsig)
    as (w1 & (Hb & Hd & He & _) & ->).
  rewrite tryCatch_world. run_monad. rewrite String.eqb_refl.
  destruct (getPositions env (effects w1)) as [positions|e]; run_monad.
  2:{ rewrite Hb, Hsig. done. }
  destruct (findPosition symbol positions) as [position|]; run_monad.
  - destruct (addOrder env (S (effects w1))); run_monad.
    2:{ rewrite Hb, Hsig. done. }
    intros _. exists (S (S (effects w1))). unfold forgetPosition. run_monad.
    destruct (writeFileSync env _); run_monad; rewrite Hb; (split; [lia | reflexivity]).
  - intros _. exists (S (effects w1)). unfold forgetPosition. run_monad.
    destruct (writeFileSync env _); run_monad; rewrite Hb; (split; [lia | reflexivity]).
Qed.

Lemma bind_assoc {A B C} (m : M A) (f : A -> M B) (g : B -> M C) w :
  ((m ≫= f) ≫= g) w = (m ≫= (fun x => f x ≫= g)) w.
Proof. unfold mbind, M_bind. destruct (m w) as [[?|?] ?]; reflexivity. Qed.

Lemma positionGone_lossCooldowns env symbol signal orders w :
  getOpenOrders env (effects w) = Ok orders ->
  lossCooldowns (bot (positionGone env symbol signal w).2)
  = if takeProfitFilled orders signal
    then lossCooldowns (bot w)
    else <[symbol := dateNow env (S (effects w))]> (lossCooldowns (bot w)).
Proof.
  intros Horders. unfold positionGone.
  erewrite bind_run.
  2:{ unfold clientGetOpenOrders. erewrite bind_run; [|reflexivity].
      unfold liftR. rewrite Horders. reflexivity. }
  unfold takeProfitFilled.
  destruct (negb (tpOrderExists orders) && bool_decide _).
  - erewrite bind_run; [|reflexivity].
    exact (forgetPosition_lossCooldowns env symbol _).
  - rewrite bind_assoc. erewrite bind_run; [|reflexivity].
    rewrite bind_assoc. erewrite bind_run; [|reflexivity].
    match goal with |- lossCooldowns (bot (?rest ?w3).2) = _ =>
      assert (Hrest : preserves (sameField lossCooldowns) rest) end.
    { apply preserves_bind; [typeclasses eauto | |
                             intros _; apply forgetPosition_lossCooldowns].
      frame_fields. }
    rewrite (Hrest _). reflexivity.
Qed.

(** C3 (amended): [closePosition] writes a loss cooldown only for the
    reason "Stop Loss Hit" (not for "Take Profit Hit", not for the default
    "Manual Close") and never a failed-order cooldown; when a stop-hit close
    releases the position, the cooldown is recorded at the clock reading of
    the close, so its [until] is that reading plus [LOSS_COOLDOWN_MS].  When
    the monitor finds the position gone from the exchange although the bot
    has sent no exit of its own for it (its take-profit exit is not marked
    taken), a filled take-profit order leaves the cooldowns alone, and
    otherwise the position was closed on the exchange, by hand or by the
    exchange, and a loss cooldown is recorded at the clock reading of the
    tick. *)
Theorem exit_classification env symbol w :
  (forall reason,
      reason <> "Stop Loss Hit" ->
      lossCooldowns (bot (closePosition env symbol reason w).2) = lossCooldowns (bot w))
  /\ lossCooldowns (bot (closePosition env symbol "Take Profit Hit" w).2)
     = lossCooldowns (bot w)
  /\ lossCooldowns (bot (closePosition env symbol manualClose w).2)
     = lossCooldowns (bot w)
  /\ (forall reason,
        failedSignalCooldowns (bot (closePosition env symbol reason w).2)
        = failedSignalCooldowns (bot w))
  /\ (is_Some (activeSignals (bot w) !! symbol) ->
      activeSignals (bot (closePosition env symbol "Stop Loss Hit" w).2) !! symbol
      = None ->
      exists closedAt,
        (effects w <= closedAt
         < effects (closePosition env symbol "Stop Loss Hit" w).2)%nat
        /\ lossCooldowns (bot (closePosition env symbol "Stop Loss Hit" w).2)
           = <[symbol := dateNow env closedAt]> (lossCooldowns (bot w))
        /\ lossCooldownUntil (bot (closePosition env symbol "Stop Loss Hit" w).2) symbol
           = Some (dateNow env closedAt + LOSS_COOLDOWN_MS)%Z)
  /\ (forall trailing signal positions orders,
        trailingStops (bot w) !! symbol = Some trailing ->
        activeSignals (bot w) !! symbol = Some signal ->
        profitTaken (bot w) symbol = false ->
        getPositions env (effects w) = Ok positions ->
        findPosition symbol positions = None ->
        getOpenOrders env (S (effects w)) = Ok orders ->
        lossCooldowns (bot (updateTrailingStops env symbol w).2)
        = if takeProfitFilled orders signal
          then lossCooldowns (bot w)
          else <[symbol := dateNow env (S (S (effects w)))]> (lossCooldowns (bot w))).
Proof.
  split; [|split; [|split; [|split; [|split]]]].
  - intros reason Hreason. exact (closePosition_other_reason env symbol reason Hreason w).
  - exact (closePosition_other_reason env symbol "Take Profit Hit"
             ltac:(intro; discriminate) w).
  - exact (closePosition_other_reason env symbol "Manual Close"
             ltac:(intro; discriminate) w).
  - intros reason. exact (closePosition_failedSignalCooldowns env symbol reason w).
  - intros Hsome Hreleased.
    destruct (closePosition_stop_hit_released env symbol w Hsome Hreleased)
      as (closedAt & Hbounds & Hcool).
    exists closedAt. split; [exact Hbounds|]. split; [exact Hcool|].
    unfold lossCooldownUntil. rewrite Hcool, lookup_insert_eq. reflexivity.
  - intros trailing signal positions orders Htr Hsig _ Hpos Hfind Horders.
    unfold updateTrailingStops.
    erewrite bind_run; [|reflexivity]. rewrite Htr, Hsig.
    rewrite tryCatch_world.
    erewrite bind_run.
    2:{ unfold clientGetPositions. erewrite bind_run; [|reflexivity].
        unfold liftR. rewrite Hpos. reflexivity. }
    rewrite Hfind.
    rewrite (positionGone_lossCooldowns env symbol signal orders); [reflexivity|].
    exact Horders.
Qed.

End ExitClassification.

(** ** C4: recovery after a restart *)

Section Recovery.

Import BreakoutStrategy.

Lemma saveTrailingStops_run env w :
  saveTrailingStops env w
  = (Ok tt,
     {| bot := bot w;
        disk := if writeFileSync env (effects w)
                then Contents (persistedState (bot w)) else disk w;
        effects := S (effects w);
        journal := journal w |}).
Proof.
  unfold saveTrailingStops. run_monad. destruct (writeFileSync env (effects w)); reflexivity.
Qed.

Lemma loadEntries_absent state s symbol :
  symbol ∉ state.*1 ->
  trailingStops (loadEntries state s) !! symbol = trailingStops s !! symbol.
Proof.
  revert s. induction state as [|[symbol0 value] state IH]; intros s Hnotin; [done|].
  cbn in Hnotin. apply not_elem_of_cons in Hnotin as [Hne Hnotin].
  cbn. destruct (Persisted.high value), (Persisted.stop value); try done.
  rewrite IH by done.
  destruct (Persisted.partialProfitTaken value); cbn; by rewrite lookup_insert_ne.
Qed.

Lemma loadEntries_present state s symbol high stop taken :
  Forall readable state ->
  NoDup state.*1 ->
  (symbol, {| Persisted.high := Some high; Persisted.stop := Some stop;
              Persisted.partialProfitTaken := taken |}) ∈ state ->
  trailingStops (loadEntries state s) !! symbol
  = Some {| TrailingStop.high := high; TrailingStop.stop := stop |}.
Proof.
  revert s. induction state as [|[symbol0 value] state IH]; intros s Hread Hnodup Hin.
  { by apply elem_of_nil in Hin. }
  apply Forall_cons in Hread as [[[h Hh] [st Hst]] Hread]. cbn in Hh, Hst.
  cbn in Hnodup. apply NoDup_cons in Hnodup as [Hfresh Hnodup].
  apply elem_of_cons in Hin as [Heq|Hin].
  - injection Heq as ? ?. subst symbol0 value. cbn.
    rewrite loadEntries_absent by done.
    destruct taken; cbn; apply lookup_insert_eq.
  - cbn. rewrite Hh, Hst. apply IH; done.
Qed.

#[local] Instance sameTracking_refl : Reflexive sameTracking.
Proof. intros s. split; reflexivity. Qed.

#[local] Instance sameTracking_trans : Transitive sameTracking.
Proof. intros s1 s2 s3 [? ?] [? ?]. split; congruence. Qed.

Lemma registerExistingPosition_tracking env symbol side entryPrice quantity w :
  let w' := (registerExistingPosition env symbol side entryPrice quantity w).2 in
  match trailingStops (bot w) !! symbol with
  | Some persisted =>
      trailingStops (bot w') = trailingStops (bot w)
      /\ exists signal,
          activeSignals (bot w') !! symbol = Some signal
          /\ Signal.stopLoss signal = TrailingStop.stop persisted
          /\ Signal.entryPrice signal = entryPrice
          /\ Signal.side signal = side
  | None =>
      trailingStops (bot w') !! symbol
      = Some {| TrailingStop.high := entryPrice;
                TrailingStop.stop := freshStop side entryPrice |}
      /\ exists signal,
          activeSignals (bot w') !! symbol = Some signal
          /\ Signal.stopLoss signal = freshStop side entryPrice
          /\ Signal.entryPrice signal = entryPrice
          /\ Signal.side signal = side
  end.
Proof.
  cbv zeta. unfold registerExistingPosition.
  erewrite bind_run; [|reflexivity].
  erewrite bind_run; [|reflexivity].
  erewrite bind_run; [|reflexivity].
  erewrite bind_run; [|reflexivity].
  cbn [bot disk effects journal].
  assert (Hrest : forall tp : option Decimal,
             preserves sameTracking
               (_ ← tryCatch
                      (existingOrders ← clientGetOpenOrders env symbol;
                       forEach existingOrders
                         (fun order => _ ← clientCancelOrder env (Order.id order); mret tt))
                      (mret tt);
                tryCatch
                  (match tp with
                   | Some takeProfit =>
                       let tpSide := oppositeSide side in
                       let tpPrice := roundToIncrement takeProfit symbol in
                       _ ← clientAddOrder env symbol tpSide quantity LIMIT (Some tpPrice);
                       mret tt
                   | None => mret tt
                   end)
                  (mret tt))).
  { intros tp. repeat frame_step. }
  assert (Ht : forall tp w1, trailingStops (bot (_ w1).2) = trailingStops (bot w1))
    by (intros tp w1; exact (proj1 (Hrest tp w1))).
  assert (Ha : forall tp w1, activeSignals (bot (_ w1).2) = activeSignals (bot w1))
    by (intros tp w1; exact (proj2 (Hrest tp w1))).
  clear Hrest. cbv zeta in Ht, Ha.
  destruct (trailingStops (bot w) !! symbol) as [persisted|] eqn:Htr.
  - rewrite bind_assoc. erewrite bind_run; [|reflexivity].
    erewrite bind_run; [|reflexivity].
    rewrite Ht, Ha.
    cbn. split; [reflexivity|]. eexists.
    split; [rewrite lookup_alter_eq, lookup_insert_eq; reflexivity|].
    cbn. done.
  - rewrite bind_assoc. erewrite bind_run; [|reflexivity].
    rewrite bind_assoc.
    erewrite (bind_run (saveTrailingStops env)); [|apply saveTrailingStops_run].
    erewrite bind_run; [|reflexivity].
    rewrite Ht, Ha.
    cbn. split; [apply lookup_insert_eq|]. eexists.
    split; [apply lookup_insert_eq|]. cbn. done.
Qed.

(** C4: recovery reuses a persisted trailing stop verbatim: the stored
    high-water mark and stop stay as they are and the recovered signal's stop
    loss is the persisted stop; only without a persisted entry is the state
    seeded at the reported entry price.  After a restart the persisted entry
    is the one read from the trailing-stops file. *)
Theorem recovery_reuses_persisted_stop env symbol side entryPrice quantity w :
  (forall persisted,
      trailingStops (bot w) !! symbol = Some persisted ->
      trailingStops (bot (registerExistingPosition env symbol side entryPrice quantity w).2)
        !! symbol = Some persisted
      /\ exists signal,
          activeSignals
            (bot (registerExistingPosition env symbol side entryPrice quantity w).2)
            !! symbol = Some signal
          /\ Signal.stopLoss signal = TrailingStop.stop persisted
          /\ Signal.entryPrice signal = entryPrice
          /\ Signal.side signal = side)
  /\ (trailingStops (bot w) !! symbol = None ->
      trailingStops (bot (registerExistingPosition env symbol side entryPrice quantity w).2)
        !! symbol
      = Some {| TrailingStop.high := entryPrice;
                TrailingStop.stop := freshStop side entryPrice |}
      /\ exists signal,
          activeSignals
            (bot (registerExistingPosition env symbol side entryPrice quantity w).2)
            !! symbol = Some signal
          /\ Signal.stopLoss signal = freshStop side entryPrice
          /\ Signal.entryPrice signal = entryPrice
          /\ Signal.side signal = side)
  /\ (forall cfg state high stop taken,
        Forall readable state ->
        NoDup state.*1 ->
        (symbol, {| Persisted.high := Some high; Persisted.stop := Some stop;
                    Persisted.partialProfitTaken := taken |}) ∈ state ->
        trailingStops (bot (construct cfg (Contents state))) !! symbol
        = Some {| TrailingStop.high := high; TrailingStop.stop := stop |})
  /\ (forall cfg file,
        (file = NoFile \/ file = Unreadable
         \/ exists state, file = Contents state /\ symbol ∉ state.*1) ->
        trailingStops (bot (construct cfg file)) !! symbol = None).
Proof.
  pose proof (registerExistingPosition_tracking env symbol side entryPrice quantity w)
    as Hreg. cbv zeta in Hreg.
  split; [|split; [|split]].
  - intros persisted Htr. rewrite Htr in Hreg. destruct Hreg as [Hsame Hsig].
    split; [by rewrite Hsame | exact Hsig].
  - intros Htr. rewrite Htr in Hreg. exact Hreg.
  - intros cfg state high stop taken Hread Hnodup Hin. cbn.
    eapply loadEntries_present; eauto.
  - intros cfg file [->|[->|(state & -> & Hnotin)]]; cbn; [done | done |].
    rewrite loadEntries_absent by done. done.
Qed.

End Recovery.

(** ** C2: scenario C, the stop comparison is strict *)

Section StopHit.

Import BreakoutStrategy.

Lemma lessThan_irrefl x : Dec.lessThan x x = false.
Proof.
  destruct x as [q| |[]]; cbn; try done.
  apply Qltb_false. lra.
Qed.

Lemma clientGetPositions_run env positions w :
  getPositions env (effects w) = Ok positions ->
  clientGetPositions env w
  = (Ok positions, {| bot := bot w; disk := disk w; effects := S (effects w);
                      journal := journal w |}).
Proof. intros H. unfold clientGetPositions. run_monad. rewrite H. reflexivity. Qed.

(** A close that goes through: the gateway reports the position and accepts
    the closing order. *)
Lemma closePosition_completes env symbol reason signal positions position w :
  activeSignals (bot w) !! symbol = Some signal ->
  (forall i, getPositions env i = Ok positions) ->
  findPosition symbol positions = Some position ->
  (forall i, isOk (addOrder env i) = true) ->
  exists cancelled closedAt w',
    closePosition env symbol reason w = (Ok tt, w')
    /\ journal w'
       = journal w ++ map OrderCancelled cancelled
         ++ [OrderPlaced symbol (oppositeSide (Position.side position))
               (Position.quantity position) MARKET None;
             PositionClosed symbol reason]
    /\ activeSignals (bot w') = delete symbol (activeSignals (bot w))
    /\ trailingStops (bot w') = delete symbol (trailingStops (bot w))
    /\ lossCooldowns (bot w')
       = if String.eqb reason "Stop Loss Hit"
         then <[symbol := dateNow env closedAt]> (lossCooldowns (bot w))
         else lossCooldowns (bot w).
Proof.
  intros Hsig Hpos Hfind Hadd.
  destruct (closePosition_unfold env symbol reason signal w Hsig)
    as (w1 & (Hb & Hd & He & cancelled & Hj) & ->).
  exists cancelled, (S (S (effects w1))).
  unfold tryCatch.
  erewrite bind_run; [|apply clientGetPositions_run, Hpos].
  rewrite Hfind. unfold forgetPosition. run_monad.
  pose proof (Hadd (S (effects w1))) as Hok.
  destruct (addOrder env (S (effects w1))) as [orderId|e]; [|done]. run_monad.
  destruct (String.eqb reason "Stop Loss Hit"); run_monad;
    (destruct (writeFileSync env _); run_monad; eexists;
     (split; [reflexivity|]); cbn; rewrite Hb, Hj, <- !app_assoc; done).
Qed.

(** C2 (amended): for a long position with entry 100 and stop 95 that has
    no take-profit target and whose take-profit exit is already marked
    taken, the tick at mark 110 adopts and persists the stop
    110 x (1 - 0.05) = 104.5; from there a tick at mark 104.4 closes the
    position at market with reason "Stop Loss Hit", and a tick at mark
    exactly 104.5 (or at any mark equal to the stop) closes nothing. *)
Theorem scenarioC_stop_is_strict symbol signal w :
  activeSignals (bot w) !! symbol = Some signal ->
  Signal.side signal = BUY ->
  Signal.entryPrice signal = Dec.Fin 100 ->
  Signal.takeProfit signal = None ->
  partialProfitTaken (bot w) !! symbol = Some true ->
  ((* the tick at 110 *)
   forall env positions position,
     trailingStops (bot w) !! symbol
     = Some {| TrailingStop.high := Dec.Fin 100; TrailingStop.stop := Dec.Fin 95 |} ->
     getPositions env (effects w) = Ok positions ->
     findPosition symbol positions = Some position ->
     Position.markPrice position = Dec.Fin 110 ->
     trailingStops (bot (updateTrailingStops env symbol w).2) !! symbol
     = Some {| TrailingStop.high := Dec.Fin 110; TrailingStop.stop := Dec.Fin (Qred 104.5) |}
     /\ activeSignals (bot (updateTrailingStops env symbol w).2) !! symbol = Some signal
     /\ partialProfitTaken (bot (updateTrailingStops env symbol w).2) !! symbol
        = Some true
     /\ journal (updateTrailingStops env symbol w).2 = journal w
     /\ (writeFileSync env (S (S (effects w))) = true ->
         disk (updateTrailingStops env symbol w).2
         = Contents (persistedState (bot (updateTrailingStops env symbol w).2))))
  /\ ((* from stop 104.5, the tick at 104.4 *)
      forall env positions position,
        trailingStops (bot w) !! symbol
        = Some {| TrailingStop.high := Dec.Fin 110;
                  TrailingStop.stop := Dec.Fin (Qred 104.5) |} ->
        (forall i, getPositions env i = Ok positions) ->
        findPosition symbol positions = Some position ->
        Position.markPrice position = Dec.Fin 104.4 ->
        (forall i, isOk (addOrder env i) = true) ->
        exists cancelled closedAt,
          journal (updateTrailingStops env symbol w).2
          = journal w ++ map OrderCancelled cancelled
            ++ [OrderPlaced symbol (oppositeSide (Position.side position))
                  (Position.quantity position) MARKET None;
                PositionClosed symbol "Stop Loss Hit"]
          /\ activeSignals (bot (updateTrailingStops env symbol w).2) !! symbol = None
          /\ trailingStops (bot (updateTrailingStops env symbol w).2) !! symbol = None
          /\ lossCooldowns (bot (updateTrailingStops env symbol w).2) !! symbol
             = Some (dateNow env closedAt))
  /\ ((* a mark equal to the stop, 104.5 in the scenario *)
      forall env positions position trailing,
        trailingStops (bot w) !! symbol = Some trailing ->
        getPositions env (effects w) = Ok positions ->
        findPosition symbol positions = Some position ->
        Position.markPrice position = TrailingStop.stop trailing ->
        Dec.greaterThan (TrailingStop.stop trailing) (TrailingStop.high trailing)
        = false ->
        journal (updateTrailingStops env symbol w).2 = journal w
        /\ activeSignals (bot (updateTrailingStops env symbol w).2) !! symbol
           = Some signal
        /\ trailingStops (bot (updateTrailingStops env symbol w).2) !! symbol
           = Some trailing
        /\ lossCooldowns (bot (updateTrailingStops env symbol w).2)
           = lossCooldowns (bot w)).
Proof.
  intros Hsig Hside Hentry Htp Htaken.
  assert (Hstart : forall env positions position trailing,
             trailingStops (bot w) !! symbol = Some trailing ->
             getPositions env (effects w) = Ok positions ->
             findPosition symbol positions = Some position ->
             (updateTrailingStops env symbol w).2
             = (monitorPosition env symbol signal trailing position
                  {| bot := bot w; disk := disk w; effects := S (effects w);
                     journal := journal w |}).2).
  { intros env positions position trailing Htr Hpos Hfind.
    unfold updateTrailingStops. erewrite bind_run; [|reflexivity].
    rewrite Htr, Hsig, tryCatch_world.
    erewrite bind_run; [|apply clientGetPositions_run, Hpos].
    rewrite Hfind. reflexivity. }
  split; [|split].
  - intros env positions position Htr Hpos Hfind Hmark.
    rewrite (Hstart env positions position _ Htr Hpos Hfind).
    unfold monitorPosition, trailStop, checkTakeProfit, checkStopHit,
      checkTakeProfitHit, markOf, profitTaken.
    rewrite Hside, Htp, Hmark. cbn [TrailingStop.high TrailingStop.stop].
    change (Dec.greaterThan (Dec.Fin 110) (Dec.Fin 100)) with true.
    change (Dec.times (Dec.Fin 110) (below (getTrailingStopPercent symbol)))
      with (Dec.Fin (Qred 104.5)).
    change (Dec.greaterThan (Dec.Fin (Qred 104.5)) (Dec.Fin 95)) with true.
    change (Dec.lessThan (Dec.Fin 110) (Dec.Fin 95)) with false.
    run_monad.
    destruct (writeFileSync env (S (S (effects w)))); run_monad;
      rewrite Htaken; cbn [default from_option id negb]; run_monad;
      rewrite lookup_insert_eq; repeat split; try done; intros [=].
  - intros env positions position Htr Hpos Hfind Hmark Hadd.
    rewrite (Hstart env positions position _ Htr (Hpos _) Hfind).
    unfold monitorPosition, trailStop, checkTakeProfit, checkStopHit,
      checkTakeProfitHit, markOf, profitTaken.
    rewrite Hside, Htp, Hmark.
    cbn [TrailingStop.high TrailingStop.stop].
    change (Dec.greaterThan (Dec.Fin 104.4) (Dec.Fin 110)) with false.
    change (Dec.lessThan (Dec.Fin 104.4) (Dec.Fin (Qred 104.5))) with true.
    erewrite bind_run; [|reflexivity].
    erewrite bind_run; [|reflexivity].
    erewrite bind_run; [|reflexivity].
    erewrite bind_run.
    2:{ erewrite bind_run; [|reflexivity]. cbn [bot withLastTrailingStopCheck
          partialProfitTaken]. rewrite Htaken. reflexivity. }
    cbn [default from_option id negb bot disk effects journal].
    match goal with |- context [(closePosition env symbol ?reason ≫= _) ?w1] =>
      pose proof (closePosition_completes env symbol reason signal positions position w1
                    Hsig Hpos Hfind Hadd)
        as (cancelled & closedAt & w' & Hclose & Hj & Ha & Ht & Hl) end.
    erewrite bind_run; [|exact Hclose]. cbn [snd].
    exists cancelled, closedAt.
    cbn [journal bot activeSignals trailingStops lossCooldowns
         withLastTrailingStopCheck] in Hj, Ha, Ht, Hl.
    unfold mret, M_ret. cbn [snd]. rewrite Hj, Ha, Ht, Hl.
    rewrite !lookup_delete_eq, String.eqb_refl, lookup_insert_eq. done.
  - intros env positions position trailing Htr Hpos Hfind Hmark Hhigh.
    rewrite (Hstart env positions position _ Htr Hpos Hfind).
    unfold monitorPosition, trailStop, checkTakeProfit, checkStopHit,
      checkTakeProfitHit, markOf, profitTaken.
    rewrite Hside, Htp, Hmark, Hhigh, lessThan_irrefl. run_monad. rewrite Htaken.
    cbn [default from_option id negb]. run_monad.
    done.
Qed.

End StopHit.

(** ** C7: the volume gate *)

Section VolumeGate.

Import BreakoutStrategy TechnicalIndicators.

Lemma slice_init_snoc {A} (completed : list A) (inProgress : A) :
  slice_init (completed ++ [inProgress]) = completed.
Proof.
  unfold slice_init. rewrite length_app. cbn.
  replace (length completed + 1 - 1)%nat with (length completed) by lia.
  apply take_app_length.
Qed.

Lemma arrayGet_last_complete {A} (history : list A) :
  (2 <= length history)%nat ->
  arrayGet history (Z.of_nat (length history) - 2) = last (slice_init history).
Proof.
  intros Hlen. unfold arrayGet.
  destruct (Z.ltb_spec (Z.of_nat (length history) - 2) 0); [lia|].
  destruct (exists_last (l := history)) as (completed & inProgress & ->).
  { intros ->. cbn in Hlen. lia. }
  rewrite slice_init_snoc. rewrite length_app in *. cbn in *.
  replace (Z.to_nat (Z.of_nat (length completed + 1) - 2))
    with (length completed - 1)%nat by lia.
  rewrite lookup_app_l by lia.
  rewrite last_lookup. f_equal. lia.
Qed.

Lemma generateSignal_emits env symbol w sig :
  (generateSignal env symbol w).1 = Ok (Some sig) ->
  exists history,
    priceHistory (bot w) !! symbol = Some history
    /\ (200 <= length history)%nat
    /\ signalFromWindow symbol history = Ok (Some sig).
Proof.
  unfold generateSignal. run_binds.
  destruct (priceHistory (bot w) !! symbol) as [history|]; [|done].
  destruct (Nat.ltb_spec (length history) 200); [done|].
  destruct (bool_decide _); [done|].
  destruct (cooldownBlocks_cases env (lossCooldowns (bot w) !! symbol)
              LOSS_COOLDOWN_MS (withLossCooldowns (delete symbol)) w)
    as (b & w1 & -> & _).
  destruct b; [done|].
  destruct (cooldownBlocks_cases env (failedSignalCooldowns (bot w) !! symbol)
              FAILED_SIGNAL_COOLDOWN_MS (withFailedSignalCooldowns (delete symbol)) w1)
    as (b & w2 & -> & _).
  destruct b; [done|].
  unfold tryCatch, liftR.
  destruct (signalFromWindow symbol history) as [[sig'|]|e] eqn:Hsig; cbn; try done.
  intros [= ->]. eauto.
Qed.

Lemma signalFromWindow_volume symbol history sig :
  signalFromWindow symbol history = Ok (Some sig) ->
  exists lastComplete avgVolume,
    arrayGet history (Z.of_nat (length history) - 2) = Some lastComplete
    /\ calculateAverageVolume (slice_init history) 20 = Ok avgVolume
    /\ Dec.lessThan (Dec.dividedBy (volume lastComplete) avgVolume)
         (Dec.Fin VOLUME_MULTIPLIER) = false.
Proof.
  unfold signalFromWindow.
  destruct (arrayGet history _) as [lastComplete|]; [|done].
  cbn [defined mbind Result_bind].
  destruct (detectEMAStack _) as [trend|]; [|done].
  cbn [mbind Result_bind].
  destruct (calculateAverageVolume _ 20) as [avgVolume|] eqn:Havg.
  2:{ destruct trend; done. }
  destruct (Dec.lessThan (Dec.dividedBy (volume lastComplete) avgVolume)
              (Dec.Fin VOLUME_MULTIPLIER)) eqn:Hratio.
  { destruct trend; cbn [mbind Result_bind]; rewrite ?Hratio; done. }
  intros _. eauto.
Qed.

Lemma signalFromWindow_low_volume symbol history lastComplete avgVolume :
  arrayGet history (Z.of_nat (length history) - 2) = Some lastComplete ->
  calculateAverageVolume (slice_init history) 20 = Ok avgVolume ->
  Dec.lessThan (Dec.dividedBy (volume lastComplete) avgVolume)
    (Dec.Fin VOLUME_MULTIPLIER) = true ->
  forall sig, signalFromWindow symbol history <> Ok (Some sig).
Proof.
  intros Hlast Havg Hratio sig. unfold signalFromWindow.
  rewrite Hlast. cbn [defined mbind Result_bind].
  destruct (detectEMAStack _) as [trend|]; [|done].
  cbn [mbind Result_bind]. rewrite Havg.
  destruct trend; cbn [mbind Result_bind]; rewrite ?Hratio; done.
Qed.

(** C7 (amended): the volume gate divides the volume of the most recently
    completed bucket by the average volume of the 20 most recent completed
    buckets; the bucket in progress enters neither.  A signal is emitted only
    when that ratio is not below the multiplier 1.5, so a finite ratio is at
    least 1.5 (1.5 itself passes); a ratio of 1.2 yields no signal. *)
Theorem volume_gate env symbol w :
  (forall sig,
      (generateSignal env symbol w).1 = Ok (Some sig) ->
      exists history lastComplete avgVolume,
        priceHistory (bot w) !! symbol = Some history
        /\ last (slice_init history) = Some lastComplete
        /\ calculateAverageVolume (slice_init history) 20 = Ok avgVolume
        /\ Dec.lessThan (Dec.dividedBy (volume lastComplete) avgVolume) (Dec.Fin 1.5)
           = false
        /\ (forall ratio : Q,
              Dec.dividedBy (volume lastComplete) avgVolume = Dec.Fin ratio ->
              1.5 <= ratio))
  /\ (forall (completed : list PriceData) inProgress,
        slice_init (completed ++ [inProgress]) = completed)
  /\ (forall history lastComplete avgVolume ratio,
        priceHistory (bot w) !! symbol = Some history ->
        (200 <= length history)%nat ->
        last (slice_init history) = Some lastComplete ->
        calculateAverageVolume (slice_init history) 20 = Ok avgVolume ->
        Dec.dividedBy (volume lastComplete) avgVolume = Dec.Fin ratio ->
        ratio < 1.5 ->
        (generateSignal env symbol w).1 = Ok None).
Proof.
  split; [|split].
  - intros sig Hemit.
    destruct (generateSignal_emits env symbol w sig Hemit) as (history & Hh & Hlen & Hsig).
    destruct (signalFromWindow_volume symbol history sig Hsig)
      as (lastComplete & avgVolume & Hlast & Havg & Hratio).
    exists history, lastComplete, avgVolume.
    rewrite arrayGet_last_complete in Hlast by lia.
    repeat (split; [assumption|]).
    intros ratio Heq. rewrite Heq in Hratio. cbn in Hratio. qbool. exact Hratio.
  - intros completed inProgress. apply slice_init_snoc.
  - intros history lastComplete avgVolume ratio Hh Hlen Hlast Havg Hratio Hlow.
    destruct (generateSignal env symbol w).1 as [[sig|]|e] eqn:Hgen.
    + exfalso.
      destruct (generateSignal_emits env symbol w sig Hgen) as (history' & Hh' & _ & Hsig).
      rewrite Hh in Hh'. injection Hh' as <-.
      refine (signalFromWindow_low_volume symbol history lastComplete avgVolume
                _ Havg _ sig Hsig).
      * rewrite arrayGet_last_complete by lia. exact Hlast.
      * rewrite Hratio. cbn. apply Qltb_true. exact Hlow.
    + reflexivity.
    + exfalso. revert Hgen. unfold generateSignal. run_binds. rewrite Hh.
      destruct (length history <? 200)%nat; [done|].
      destruct (bool_decide _); [done|].
      destruct (cooldownBlocks_cases env (lossCooldowns (bot w) !! symbol)
                  LOSS_COOLDOWN_MS (withLossCooldowns (delete symbol)) w)
        as (b & w1 & -> & _).
      destruct b; [done|].
      destruct (cooldownBlocks_cases env (failedSignalCooldowns (bot w) !! symbol)
                  FAILED_SIGNAL_COOLDOWN_MS (withFailedSignalCooldowns (delete symbol)) w1)
        as (b & w2 & -> & _).
      destruct b; [done|].
      unfold tryCatch, liftR. destruct (signalFromWindow symbol history); done.
Qed.

End VolumeGate.

(** ** The scenarios, evaluated *)

Section Scenarios.

Import BreakoutStrategy Scenario.

(** C1 (as the code has it): two ticks for the recovered long position
    (entry 100, high 100, stop 95) overlap, both having read the stop 95.
    The one answered first sees the mark 120 and stores the stop 114; the
    other then sees the mark 110, compares its candidate 104.5 with the 95
    it read, and stores it: the stop of the open position goes from 114 down
    to 104.5, in memory and in the file, and the fall of the mark below 114
    closes nothing.  Run one after the other, the second tick closes the
    position at the stop 114. *)
Lemma overlapping_ticks_loosen_the_stop :
  positionSide recovered sol = Some BUY
  /\ stopLevel recovered sol = Some (Dec.Fin 95)
  /\ stopLevel (updateTrailingStops (gatewayAt 120 2000) sol recovered).2 sol
     = Some (Dec.Fin 114)
  /\ overlappingTicks (gatewayAt 120 2000) (gatewayAt 110 2001) sol recovered
     = (afterGetPositions (gatewayAt 110 2001) sol
          ({| TrailingStop.high := Dec.Fin 100; TrailingStop.stop := Dec.Fin 95 |},
           {| Signal.symbol := sol; Signal.side := BUY;
              Signal.entryPrice := Dec.Fin 100; Signal.stopLoss := Dec.Fin 95;
              Signal.takeProfit := None; Signal.confidence := Dec.Fin 1;
              Signal.reason := ExistingPositionOnRestart |})
          (updateTrailingStops (gatewayAt 120 2000) sol recovered).2).2
  /\ positionSide
       (overlappingTicks (gatewayAt 120 2000) (gatewayAt 110 2001) sol recovered) sol
     = Some BUY
  /\ stopLevel
       (overlappingTicks (gatewayAt 120 2000) (gatewayAt 110 2001) sol recovered) sol
     = Some (Dec.Fin (Qred 104.5))
  /\ disk (overlappingTicks (gatewayAt 120 2000) (gatewayAt 110 2001) sol recovered)
     = Contents [(sol, {| Persisted.high := Some (Dec.Fin 110);
                          Persisted.stop := Some (Dec.Fin (Qred 104.5));
                          Persisted.partialProfitTaken := true |})]
  /\ journal (overlappingTicks (gatewayAt 120 2000) (gatewayAt 110 2001) sol recovered)
     = journal recovered
  /\ ~ notLoosened BUY (Dec.Fin 114) (Dec.Fin (Qred 104.5))
  /\ journal (monitorTicks [gatewayAt 120 2000; gatewayAt 110 2001] sol recovered)
     = journal recovered
       ++ [OrderPlaced sol SELL (Dec.Fin 1) MARKET None;
           PositionClosed sol "Stop Loss Hit"].
Proof.
  split; [vm_compute; reflexivity|].
  split; [vm_compute; reflexivity|].
  split; [vm_compute; reflexivity|].
  split; [apply overlappingTicks_first; vm_compute; reflexivity|].
  split; [vm_compute; reflexivity|].
  split; [vm_compute; reflexivity|].
  split; [vm_compute; reflexivity|].
  split; [vm_compute; reflexivity|].
  split; [|vm_compute; reflexivity].
  intros [Heq|Hmore]; [|vm_compute in Hmore]; discriminate.
Qed.

(** The recovered long position (stop 95) after one tick at mark 110: the
    stop has moved up, to 104.5. *)
Lemma trailing_stop_never_loosens_witness : 95 <= Qred 104.5.
Proof.
  apply (proj1 (proj2 (trailing_stop_never_loosens sol recovered BUY (Dec.Fin 95)
                         ltac:(vm_compute; reflexivity)
                         ltac:(vm_compute; reflexivity)))
           [gatewayAt 110 2000] 95 (Qred 104.5) eq_refl).
  vm_compute. reflexivity.
Defined.

(** C2 (as the code has it): a long position opened from a generated
    signal (entry 100, stop 95, target 101.3) is closed for profit by the
    tick at mark 110, in which the stop 104.5 is adopted and then dropped
    with the position; the later tick at 104.4 finds nothing to close and no
    "Stop Loss Hit" is ever reported. *)
Lemma scenarioC_with_target_takes_profit :
  positionSide opened sol = Some BUY
  /\ stopLevel opened sol = Some (Dec.Fin 95)
  /\ journal (updateTrailingStops (gatewayAt 110 2000) sol opened).2
     = journal opened
       ++ [OrderPlaced sol SELL (Dec.Fin 1) MARKET None;
           OrderPlaced sol SELL (Dec.Fin 1) MARKET None;
           PositionClosed sol "Take Profit Hit"]
  /\ stopLevel (updateTrailingStops (gatewayAt 110 2000) sol opened).2 sol = None
  /\ (updateTrailingStops (gatewayAt 104.4 3000) sol
        (updateTrailingStops (gatewayAt 110 2000) sol opened).2).2
     = (updateTrailingStops (gatewayAt 110 2000) sol opened).2
  /\ PositionClosed sol "Stop Loss Hit"
     ∉ journal (updateTrailingStops (gatewayAt 104.4 3000) sol
                  (updateTrailingStops (gatewayAt 110 2000) sol opened).2).2.
Proof.
  split; [vm_compute; reflexivity|].
  split; [vm_compute; reflexivity|].
  split; [vm_compute; reflexivity|].
  split; [vm_compute; reflexivity|].
  split; [vm_compute; reflexivity|].
  intros Hin. vm_compute in Hin.
  repeat (apply elem_of_cons in Hin as [Hin|Hin]; [discriminate Hin|]).
  by apply elem_of_nil in Hin.
Qed.

(** The recovered long position (entry 100, stop 95, no target, profit
    already taken): the tick at mark 110 stores high 110 and stop 104.5. *)
Lemma scenarioC_stop_is_strict_witness :
  trailingStops (bot (updateTrailingStops (gatewayAt 110 2000) sol recovered).2) !! sol
  = Some {| TrailingStop.high := Dec.Fin 110;
            TrailingStop.stop := Dec.Fin (Qred 104.5) |}.
Proof.
  refine (proj1 (proj1 (scenarioC_stop_is_strict sol
                          {| Signal.symbol := sol; Signal.side := BUY;
                             Signal.entryPrice := Dec.Fin 100;
                             Signal.stopLoss := Dec.Fin 95;
                             Signal.takeProfit := None;
                             Signal.confidence := Dec.Fin 1;
                             Signal.reason := ExistingPositionOnRestart |}
                          recovered _ _ _ _ _)
                   (gatewayAt 110 2000) [longPosition 110] (longPosition 110) _ _ _ _));
    vm_compute; reflexivity.
Defined.

(** C3 (as the code has it): a position closed by hand on the exchange,
    its take-profit order still resting, starts a loss cooldown at the tick
    that notices it. *)
Lemma closed_by_hand_starts_loss_cooldown :
  lossCooldowns (bot opened) !! sol = None
  /\ getPositions (closedByHand 5000) (effects opened) = Ok []
  /\ lossCooldowns (bot (updateTrailingStops (closedByHand 5000) sol opened).2) !! sol
     = Some 5000%Z
  /\ lossCooldownUntil (bot (updateTrailingStops (closedByHand 5000) sol opened).2) sol
     = Some (5000 + LOSS_COOLDOWN_MS)%Z.
Proof.
  split; [vm_compute; reflexivity|].
  split; [vm_compute; reflexivity|].
  split; vm_compute; reflexivity.
Qed.

(** Closing the opened long position as "Stop Loss Hit" records the loss
    cooldown at the clock reading of the close; and when the position, for
    which the bot has sent no exit, is gone from the exchange while its
    take-profit order still rests, the tick that notices it records the loss
    cooldown at its own clock reading. *)
Lemma exit_classification_witness :
  (exists closedAt,
      (effects opened <= closedAt
       < effects (closePosition (gatewayAt 94 2000) sol "Stop Loss Hit" opened).2)%nat
      /\ lossCooldowns
           (bot (closePosition (gatewayAt 94 2000) sol "Stop Loss Hit" opened).2)
         = <[sol := dateNow (gatewayAt 94 2000) closedAt]> (lossCooldowns (bot opened))
      /\ lossCooldownUntil
           (bot (closePosition (gatewayAt 94 2000) sol "Stop Loss Hit" opened).2) sol
         = Some (dateNow (gatewayAt 94 2000) closedAt + LOSS_COOLDOWN_MS)%Z)
  /\ lossCooldowns (bot (updateTrailingStops (closedByHand 5000) sol opened).2)
     = <[sol := 5000%Z]> (lossCooldowns (bot opened)).
Proof.
  split.
  - apply (proj1 (proj2 (proj2 (proj2 (proj2
             (exit_classification (gatewayAt 94 2000) sol opened)))))).
    + vm_compute. eexists. reflexivity.
    + vm_compute. reflexivity.
  - apply (proj2 (proj2 (proj2 (proj2 (proj2
             (exit_classification (closedByHand 5000) sol opened)))))
             {| TrailingStop.high := Dec.Fin 100; TrailingStop.stop := Dec.Fin 95 |}
             generated []
             [{| Order.id := "tp"; Order.symbol := sol; Order.side := SELL;
                 Order.type := LIMIT |}]);
      vm_compute; reflexivity.
Defined.

(** Left out of C3 as amended: the bot's own take-profit exit followed by a
    loss cooldown.  The adopted long position (entry 100, no target) is sold
    whole by the take-profit exit of the tick at mark 102, which marks the
    exit taken and keeps tracking the position; the next tick finds the
    position gone and, the signal having no target, records a loss cooldown
    for a trade that was closed in profit, where the code's comments say
    that wins start no cooldown. *)
Lemma own_profit_exit_starts_loss_cooldown :
  journal (updateTrailingStops (gatewayAt 102 2000) sol adopted).2
  = [OrderPlaced sol SELL (Dec.Fin 1) MARKET None]
  /\ profitTaken (bot (updateTrailingStops (gatewayAt 102 2000) sol adopted).2) sol
     = true
  /\ is_Some (activeSignals
                (bot (updateTrailingStops (gatewayAt 102 2000) sol adopted).2) !! sol)
  /\ lossCooldowns (bot (updateTrailingStops (gatewayAt 102 2000) sol adopted).2) !! sol
     = None
  /\ lossCooldowns
       (bot (updateTrailingStops (quietGateway 3000) sol
               (updateTrailingStops (gatewayAt 102 2000) sol adopted).2).2) !! sol
     = Some 3000%Z.
Proof.
  split; [vm_compute; reflexivity|].
  split; [vm_compute; reflexivity|].
  split; [vm_compute; eexists; reflexivity|].
  split; vm_compute; reflexivity.
Qed.

(** Recovery of a long position entered at 100 from a file holding the
    high-water mark 110 and the stop 104.5: the constructor loads them, and
    the registration keeps both and gives the stored signal the stop 104.5,
    where fresh seeding would give the high 100 and the stop 95, as it does
    without a file. *)
Lemma recovery_reuses_persisted_stop_witness :
  trailingStops (bot (construct cfg trailedFile)) !! sol
  = Some {| TrailingStop.high := Dec.Fin 110;
            TrailingStop.stop := Dec.Fin (Qred 104.5) |}
  /\ (trailingStops (bot recoveredTrailed) !! sol
      = Some {| TrailingStop.high := Dec.Fin 110;
                TrailingStop.stop := Dec.Fin (Qred 104.5) |}
      /\ exists signal,
          activeSignals (bot recoveredTrailed) !! sol = Some signal
          /\ Signal.stopLoss signal = Dec.Fin (Qred 104.5)
          /\ Signal.entryPrice signal = Dec.Fin 100
          /\ Signal.side signal = BUY)
  /\ (trailingStops (bot adopted) !! sol
      = Some {| TrailingStop.high := Dec.Fin 100;
                TrailingStop.stop := freshStop BUY (Dec.Fin 100) |}
      /\ exists signal,
          activeSignals (bot adopted) !! sol = Some signal
          /\ Signal.stopLoss signal = freshStop BUY (Dec.Fin 100)
          /\ Signal.entryPrice signal = Dec.Fin 100
          /\ Signal.side signal = BUY)
  /\ freshStop BUY (Dec.Fin 100) = Dec.Fin 95.
Proof.
  split; [|split; [|split]].
  - apply (proj1 (proj2 (proj2 (recovery_reuses_persisted_stop (quietGateway 1000) sol
                                  BUY (Dec.Fin 100) (Dec.Fin 1) fresh)))
             cfg
             [(sol, {| Persisted.high := Some (Dec.Fin 110);
                       Persisted.stop := Some (Dec.Fin (Qred 104.5));
                       Persisted.partialProfitTaken := true |})]
             (Dec.Fin 110) (Dec.Fin (Qred 104.5)) true).
    + constructor; [split; eexists; reflexivity | constructor].
    + cbn. apply NoDup_singleton.
    + constructor.
  - apply (proj1 (recovery_reuses_persisted_stop (quietGateway 1000) sol BUY
                    (Dec.Fin 100) (Dec.Fin 1) (construct cfg trailedFile))
             {| TrailingStop.high := Dec.Fin 110;
                TrailingStop.stop := Dec.Fin (Qred 104.5) |}).
    vm_compute. reflexivity.
  - apply (proj1 (proj2 (recovery_reuses_persisted_stop (quietGateway 1000) sol BUY
                           (Dec.Fin 100) (Dec.Fin 1) fresh))).
    vm_compute. reflexivity.
  - vm_compute. reflexivity.
Defined.

(** The generated signal executed against a gateway that rejects the entry
    order. *)
Lemma executeSignal_order_rejected_witness :
  exists failedAt,
    activeSignals (bot (executeSignal (rejectingGateway 7000) generated None fresh).2)
      = activeSignals (bot fresh)
    /\ positionOpenedAt (bot (executeSignal (rejectingGateway 7000) generated None fresh).2)
         !! sol = None
    /\ failedSignalCooldowns
         (bot (executeSignal (rejectingGateway 7000) generated None fresh).2)
       = <[sol := dateNow (rejectingGateway 7000) failedAt]>
           (failedSignalCooldowns (bot fresh))
    /\ (effects fresh <= failedAt
        < effects (executeSignal (rejectingGateway 7000) generated None fresh).2)%nat
    /\ lossCooldowns (bot (executeSignal (rejectingGateway 7000) generated None fresh).2)
       = lossCooldowns (bot fresh)
    /\ trailingStops (bot (executeSignal (rejectingGateway 7000) generated None fresh).2)
       = trailingStops (bot fresh)
    /\ partialProfitTaken
         (bot (executeSignal (rejectingGateway 7000) generated None fresh).2)
       = partialProfitTaken (bot fresh)
    /\ disk (executeSignal (rejectingGateway 7000) generated None fresh).2 = disk fresh
    /\ journal (executeSignal (rejectingGateway 7000) generated None fresh).2
       = journal fresh.
Proof.
  apply (executeSignal_order_rejected (rejectingGateway 7000) generated None (Dec.Fin 1)
           fresh).
  - vm_compute. reflexivity.
  - intros i (since & Hsince & _). vm_compute in Hsince. discriminate Hsince.
  - intros i. exists []. split; vm_compute; reflexivity.
  - vm_compute. reflexivity.
  - intros i. vm_compute. reflexivity.
Defined.

(** C6 (as the code has it): inside a failed-order cooldown the generator
    returns [null], yet it removes the expired loss-cooldown entry of the
    instrument on the way. *)
Lemma refusal_expires_loss_cooldown :
  inFailedOrderCooldown (bot coolingDown) sol 2000500
  /\ (generateSignal (quietGateway 2000500) sol coolingDown).1 = Ok None
  /\ lossCooldowns (bot coolingDown) !! sol = Some 1%Z
  /\ lossCooldowns (bot (generateSignal (quietGateway 2000500) sol coolingDown).2) !! sol
     = None
  /\ bot (generateSignal (quietGateway 2000500) sol coolingDown).2 <> bot coolingDown.
Proof.
  split; [|split; [|split; [|split]]].
  - exists 2000000%Z.
    split; [vm_compute; reflexivity|]. split; [discriminate | reflexivity].
  - vm_compute. reflexivity.
  - vm_compute. reflexivity.
  - vm_compute. reflexivity.
  - intros Heq.
    assert (H : lossCooldowns
                  (bot (generateSignal (quietGateway 2000500) sol coolingDown).2) !! sol
                = lossCooldowns (bot coolingDown) !! sol) by (rewrite Heq; reflexivity).
    vm_compute in H. discriminate H.
Qed.

(** Five hundred milliseconds after the rejected order the generator
    refuses the instrument. *)
Lemma generateSignal_refuses_witness :
  (generateSignal (quietGateway 2000500) sol coolingDown).1 = Ok None.
Proof.
  apply (proj2 (proj2 (generateSignal_refuses (quietGateway 2000500) sol coolingDown))).
  intros i. exists 2000000%Z.
  split; [vm_compute; reflexivity|]. split; [discriminate | reflexivity].
Defined.

(** C7 (as the code has it): with the last completed bucket at exactly 1.5
    times the 20-bucket average, a ratio that does not exceed the
    multiplier, the generator emits a signal. *)
Lemma volume_ratio_at_multiplier_emits :
  TechnicalIndicators.calculateAverageVolume (slice_init breakoutWindow) 20
  = Ok (Dec.Fin 38)
  /\ (volume <$> last (slice_init breakoutWindow)) = Some (Dec.Fin 57)
  /\ Dec.dividedBy (Dec.Fin 57) (Dec.Fin 38) = Dec.Fin (Qred 1.5)
  /\ ~ (1.5 < Qred 1.5)
  /\ (generateSignal (quietGateway 5000) sol watching).1 = Ok (Some emitted).
Proof.
  split; [|split; [|split; [|split]]]; try (vm_compute; reflexivity).
  vm_compute. intros H. discriminate H.
Qed.

(** The signal emitted on the breakout window passed the volume gate. *)
Lemma volume_gate_witness :
  exists history lastComplete avgVolume,
    priceHistory (bot watching) !! sol = Some history
    /\ last (slice_init history) = Some lastComplete
    /\ TechnicalIndicators.calculateAverageVolume (slice_init history) 20 = Ok avgVolume
    /\ Dec.lessThan (Dec.dividedBy (volume lastComplete) avgVolume) (Dec.Fin 1.5) = false
    /\ (forall ratio : Q,
          Dec.dividedBy (volume lastComplete) avgVolume = Dec.Fin ratio -> 1.5 <= ratio).
Proof.
  apply (proj1 (volume_gate (quietGateway 5000) sol watching) emitted).
  vm_compute. reflexivity.
Defined.

(** The score of the breakout window lies in the unit interval. *)
Lemma momentum_score_weighted_sum_witness :
  exists ms total,
    TechnicalIndicators.calculateMomentumScore breakoutWindow LONG = Ok ms
    /\ TechnicalIndicators.score ms = Dec.Fin total
    /\ 0 <= total <= 1.
Proof.
  destruct (momentum_score_weighted_sum breakoutWindow LONG
              ltac:(vm_compute; lia))
    as (rsi & m & ema20 & ema50 & ema200 & price & bollinger & stochastic & total
        & _ & _ & _ & _ & _ & _ & _ & _ & Hscore & H).
  eexists. exists total. split; [exact Hscore|]. split; [reflexivity|].
  apply H.
Defined.

(** A window of 199 samples scores 0 with no components. *)
Lemma calculateMomentumScore_total_witness :
  TechnicalIndicators.calculateMomentumScore (take 199 breakoutWindow) SHORT
  = Ok {| TechnicalIndicators.score := Dec.Fin 0;
          TechnicalIndicators.components := [] |}.
Proof.
  apply (proj1 (proj2 (calculateMomentumScore_total (take 199 breakoutWindow) SHORT))).
  vm_compute. lia.
Defined.

End Scenarios.

(** * Further properties of the code *)

(** ** Decimal arithmetic on numbers *)

Lemma Qred_eq (q : Q) : Qred q == q.
Proof. apply Qred_correct. Qed.

Lemma fold_plus_within (lo hi : Q) (xs : list Decimal) (a : Q) :
  Forall (within lo hi) xs ->
  exists s, fold_left Dec.plus xs (Dec.Fin a) = Dec.Fin s
            /\ a + inject_Z (Z.of_nat (length xs)) * lo <= s
            /\ s <= a + inject_Z (Z.of_nat (length xs)) * hi.
Proof.
  intros Hall. revert a. induction Hall as [|x xs (q & -> & Hq) _ IH]; intros a.
  - exists a. split; [reflexivity|].
    change (inject_Z (Z.of_nat (length (@nil Decimal)))) with 0. split; lra.
  - destruct (IH (Qred (a + q))) as (s & Hs & Hlo & Hhi).
    exists s. split; [exact Hs|].
    rewrite Qred_eq in Hlo, Hhi.
    replace (length (Dec.Fin q :: xs)) with (S (length xs)) by reflexivity.
    rewrite Nat2Z.inj_succ. unfold Z.succ. rewrite inject_Z_plus.
    change (inject_Z 1) with 1. split; lra.
Qed.

Lemma sum_within (lo hi : Q) (xs : list Decimal) :
  Forall (within lo hi) xs ->
  exists s, Dec.sum xs = Dec.Fin s
            /\ inject_Z (Z.of_nat (length xs)) * lo <= s
            /\ s <= inject_Z (Z.of_nat (length xs)) * hi.
Proof.
  intros Hall. destruct (fold_plus_within lo hi xs 0 Hall) as (s & Hs & Hlo & Hhi).
  exists s. split; [exact Hs|]. split; lra.
Qed.

Lemma ofNat_pos (n : nat) : (0 < n)%nat -> 0 < inject_Z (Z.of_nat n).
Proof.
  intros H. change 0 with (inject_Z 0). rewrite <- Zlt_Qlt. lia.
Qed.

Lemma dividedBy_fin (a b : Q) :
  ~ b == 0 -> Dec.dividedBy (Dec.Fin a) (Dec.Fin b) = Dec.Fin (Qred (a / b)).
Proof.
  intros Hb. cbn. unfold Qzerob.
  destruct (Qeq_bool b 0) eqn:E; [|reflexivity].
  apply Qeq_bool_iff in E. done.
Qed.

(** The mean of [n] numbers of [lo, hi] lies in [lo, hi]. *)
Lemma mean_within (lo hi : Q) (xs : list Decimal) (n : nat) :
  (0 < n)%nat -> length xs = n -> Forall (within lo hi) xs ->
  within lo hi (Dec.dividedBy (Dec.sum xs) (Dec.ofNat n)).
Proof.
  intros Hn Hlen Hall.
  destruct (sum_within lo hi xs Hall) as (s & -> & Hlo & Hhi).
  rewrite Hlen in Hlo, Hhi.
  pose proof (ofNat_pos n Hn) as Hpos.
  unfold Dec.ofNat. rewrite dividedBy_fin by lra.
  eexists. split; [reflexivity|]. rewrite Qred_eq. split.
  - apply Qle_shift_div_l; [exact Hpos | lra].
  - apply Qle_shift_div_r; [exact Hpos | lra].
Qed.

Lemma lessThanOrEqualTo_fin (a b : Q) :
  Dec.lessThanOrEqualTo (Dec.Fin a) (Dec.Fin b) = true <-> a <= b.
Proof.
  unfold Dec.lessThanOrEqualTo, Dec.lessThan, Dec.equals. split.
  - intros H. apply orb_true_iff in H as [H|H]; qbool; lra.
  - intros H. destruct (Qltb a b) eqn:E; [reflexivity|]. qbool. cbn.
    apply Qeq_bool_iff. lra.
Qed.

Lemma fold_pick_max (xs : list Decimal) (a : Q) :
  Forall finite xs ->
  exists m,
    fold_left (Dec.pick (fun x y => negb (Dec.lessThan x y))) xs (Dec.Fin a) = Dec.Fin m
    /\ (m = a \/ Dec.Fin m ∈ xs)
    /\ a <= m
    /\ (forall q, Dec.Fin q ∈ xs -> q <= m).
Proof.
  intros Hall. revert a. induction Hall as [|x xs [q ->] _ IH]; intros a.
  - exists a. split; [reflexivity|]. split; [by left|]. split; [lra|].
    intros q Hq. by apply elem_of_nil in Hq.
  - cbn [fold_left Dec.pick Dec.lessThan].
    destruct (Qltb a q) eqn:E; cbn [negb]; qbool.
    + destruct (IH q) as (m & Hm & Hin & Hle & Hall').
      exists m. split; [exact Hm|]. split.
      { right. destruct Hin as [->|Hin]; [left | by right]. }
      split; [lra|]. intros q' Hq'. apply elem_of_cons in Hq' as [Hq'|Hq'].
      * injection Hq' as ->. lra.
      * by apply Hall'.
    + destruct (IH a) as (m & Hm & Hin & Hle & Hall').
      exists m. split; [exact Hm|]. split.
      { destruct Hin as [->|Hin]; [by left | right; by right]. }
      split; [lra|]. intros q' Hq'. apply elem_of_cons in Hq' as [Hq'|Hq'].
      * injection Hq' as ->. lra.
      * by apply Hall'.
Qed.

Lemma fold_pick_min (xs : list Decimal) (a : Q) :
  Forall finite xs ->
  exists m,
    fold_left (Dec.pick (fun x y => negb (Dec.lessThan y x))) xs (Dec.Fin a) = Dec.Fin m
    /\ (m = a \/ Dec.Fin m ∈ xs)
    /\ m <= a
    /\ (forall q, Dec.Fin q ∈ xs -> m <= q).
Proof.
  intros Hall. revert a. induction Hall as [|x xs [q ->] _ IH]; intros a.
  - exists a. split; [reflexivity|]. split; [by left|]. split; [lra|].
    intros q Hq. by apply elem_of_nil in Hq.
  - cbn [fold_left Dec.pick Dec.lessThan].
    destruct (Qltb q a) eqn:E; cbn [negb]; qbool.
    + destruct (IH q) as (m & Hm & Hin & Hle & Hall').
      exists m. split; [exact Hm|]. split.
      { right. destruct Hin as [->|Hin]; [left | by right]. }
      split; [lra|]. intros q' Hq'. apply elem_of_cons in Hq' as [Hq'|Hq'].
      * injection Hq' as ->. lra.
      * by apply Hall'.
    + destruct (IH a) as (m & Hm & Hin & Hle & Hall').
      exists m. split; [exact Hm|]. split.
      { destruct Hin as [->|Hin]; [by left | right; by right]. }
      split; [lra|]. intros q' Hq'. apply elem_of_cons in Hq' as [Hq'|Hq'].
      * injection Hq' as ->. lra.
      * by apply Hall'.
Qed.

(** [Decimal.max] of numbers is one of them and bounds them all. *)
Lemma Dec_max_finite (xs : list Decimal) :
  xs <> [] -> Forall finite xs ->
  exists m, Dec.max xs = Ok (Dec.Fin m) /\ Dec.Fin m ∈ xs
            /\ (forall q, Dec.Fin q ∈ xs -> q <= m).
Proof.
  intros Hne Hall. destruct xs as [|x xs]; [done|].
  apply Forall_cons in Hall as [[a ->] Hall].
  destruct (fold_pick_max xs a Hall) as (m & Hm & Hin & Hle & Hall').
  exists m. cbn [Dec.max]. rewrite Hm. split; [reflexivity|]. split.
  - destruct Hin as [->|Hin]; [left | by right].
  - intros q Hq. apply elem_of_cons in Hq as [Hq|Hq].
    + injection Hq as ->. exact Hle.
    + by apply Hall'.
Qed.

Lemma Dec_min_finite (xs : list Decimal) :
  xs <> [] -> Forall finite xs ->
  exists m, Dec.min xs = Ok (Dec.Fin m) /\ Dec.Fin m ∈ xs
            /\ (forall q, Dec.Fin q ∈ xs -> m <= q).
Proof.
  intros Hne Hall. destruct xs as [|x xs]; [done|].
  apply Forall_cons in Hall as [[a ->] Hall].
  destruct (fold_pick_min xs a Hall) as (m & Hm & Hin & Hle & Hall').
  exists m. cbn [Dec.min]. rewrite Hm. split; [reflexivity|]. split.
  - destruct Hin as [->|Hin]; [left | by right].
  - intros q Hq. apply elem_of_cons in Hq as [Hq|Hq].
    + injection Hq as ->. exact Hle.
    + by apply Hall'.
Qed.

Lemma elem_of_map {A B} (f : A -> B) (xs : list A) (x : A) :
  x ∈ xs -> f x ∈ map f xs.
Proof.
  induction 1; cbn; [left | by right].
Qed.

Lemma elem_of_map_inv {A B} (f : A -> B) (xs : list A) (y : B) :
  y ∈ map f xs -> exists x, x ∈ xs /\ y = f x.
Proof.
  induction xs as [|x xs IH]; cbn; intros H.
  - by apply elem_of_nil in H.
  - apply elem_of_cons in H as [->|H].
    + exists x. split; [left | reflexivity].
    + destruct (IH H) as (x' & ? & ?). exists x'. split; [by right | done].
Qed.

Lemma length_slice_last {A} (n : nat) (xs : list A) :
  (0 < n <= length xs)%nat -> length (slice_last n xs) = n.
Proof.
  intros H. unfold slice_last. destruct n; [lia|]. rewrite length_drop. lia.
Qed.

(** ** Support and resistance *)

Section SupportResistance.

Import TechnicalIndicators.

Lemma window_highs_lows prices :
  prices <> [] -> Forall finiteCandle prices ->
  exists resistance support,
    Dec.max (map high prices) = Ok (Dec.Fin resistance)
    /\ Dec.min (map low prices) = Ok (Dec.Fin support)
    /\ Dec.Fin resistance ∈ map high prices
    /\ Dec.Fin support ∈ map low prices
    /\ (forall p h, p ∈ prices -> high p = Dec.Fin h -> h <= resistance)
    /\ (forall p l, p ∈ prices -> low p = Dec.Fin l -> support <= l).
Proof.
  intros Hne Hall.
  destruct (Dec_max_finite (map high prices)) as (r & Hr & Hrin & Hrall).
  { by destruct prices. }
  { apply Forall_map. eapply Forall_impl; [exact Hall|]. by intros p (? & ? & ?). }
  destruct (Dec_min_finite (map low prices)) as (s & Hs & Hsin & Hsall).
  { by destruct prices. }
  { apply Forall_map. eapply Forall_impl; [exact Hall|]. by intros p (? & ? & ?). }
  exists r, s. repeat (split; [assumption|]). split.
  - intros p h Hp Hh. apply Hrall. rewrite <- Hh. by apply elem_of_map.
  - intros p l Hp Hl. apply Hsall. rewrite <- Hl. by apply elem_of_map.
Qed.

(** X1: with too few candles both levels are refused; otherwise, on numeric
    candles, the resistance is the greatest high and the support the least
    low of the last [lookbackPeriod] candles, and the support does not exceed
    the resistance as soon as one candle of the window has its low at or
    below its high. *)
Theorem support_and_resistance_bound_the_window prices lookbackPeriod :
  ((length prices < lookbackPeriod)%nat ->
     calculateResistance prices lookbackPeriod = Throw (InsufficientData "periods")
     /\ calculateSupport prices lookbackPeriod = Throw (InsufficientData "periods"))
  /\ ((0 < lookbackPeriod <= length prices)%nat ->
      Forall finiteCandle (slice_last lookbackPeriod prices) ->
      exists resistance support,
        calculateResistance prices lookbackPeriod = Ok resistance
        /\ calculateSupport prices lookbackPeriod = Ok support
        /\ length (slice_last lookbackPeriod prices) = lookbackPeriod
        /\ resistance ∈ map high (slice_last lookbackPeriod prices)
        /\ support ∈ map low (slice_last lookbackPeriod prices)
        /\ (forall p, p ∈ slice_last lookbackPeriod prices ->
              Dec.lessThanOrEqualTo (high p) resistance = true
              /\ Dec.lessThanOrEqualTo support (low p) = true)
        /\ ((exists p, p ∈ slice_last lookbackPeriod prices
                       /\ Dec.lessThanOrEqualTo (low p) (high p) = true) ->
            Dec.lessThanOrEqualTo support resistance = true)).
Proof.
  split.
  - intros Hlen. unfold calculateResistance, calculateSupport.
    destruct (Nat.ltb_spec (length prices) lookbackPeriod); [done | lia].
  - intros Hlen Hall.
    pose proof (length_slice_last lookbackPeriod prices Hlen) as Hwindow.
    destruct (window_highs_lows (slice_last lookbackPeriod prices))
      as (r & s & Hr & Hs & Hrin & Hsin & Hrall & Hsall); [|exact Hall|].
    { apply nonempty_of_length. lia. }
    exists (Dec.Fin r), (Dec.Fin s).
    unfold calculateResistance, calculateSupport.
    destruct (Nat.ltb_spec (length prices) lookbackPeriod); [lia|].
    repeat (split; [assumption|]).
    assert (Hboth : forall p, p ∈ slice_last lookbackPeriod prices ->
              exists h l, high p = Dec.Fin h /\ low p = Dec.Fin l /\ h <= r /\ s <= l).
    { intros p Hp.
      pose proof (proj1 (Forall_forall _ _) Hall p Hp) as ([h Hh] & [l Hl] & _).
      exists h, l. split; [done|]. split; [done|].
      split; [by apply (Hrall p) | by apply (Hsall p)]. }
    split.
    + intros p Hp. destruct (Hboth p Hp) as (h & l & -> & -> & ? & ?).
      split; by apply lessThanOrEqualTo_fin.
    + intros (p & Hp & Hle). destruct (Hboth p Hp) as (h & l & Hh & Hl & ? & ?).
      rewrite Hh, Hl in Hle. apply lessThanOrEqualTo_fin in Hle.
      apply lessThanOrEqualTo_fin. lra.
Qed.

End SupportResistance.


(** ** A close inside the window never breaks out of it *)

Section BreakoutInsideWindow.

Import TechnicalIndicators.

(** X2: when resistance and support are computed over a window of candles
    with non-negative prices and closes between low and high, no close of a
    candle of that window is a breakout, for any non-negative buffer: a
    breakout can only be reported for a price from outside the window. *)
Theorem breakout_never_fires_inside_window
    prices lookbackPeriod buffer resistance support candle :
  0 <= buffer ->
  (forall p, p ∈ slice_last lookbackPeriod prices ->
     wellFormedCandle p /\ Dec.lessThanOrEqualTo (Dec.Fin 0) (low p) = true) ->
  calculateResistance prices lookbackPeriod = Ok resistance ->
  calculateSupport prices lookbackPeriod = Ok support ->
  candle ∈ slice_last lookbackPeriod prices ->
  detectBreakout (close candle) resistance support buffer = None.
Proof.
  intros Hbuffer Hwell Hres Hsup Hcandle.
  unfold calculateResistance in Hres. unfold calculateSupport in Hsup.
  destruct (length prices <? lookbackPeriod)%nat; [done|].
  destruct (window_highs_lows (slice_last lookbackPeriod prices))
    as (r & s & Hr & Hs & Hrin & Hsin & Hrall & Hsall).
  { intros E. rewrite E in Hcandle. by apply elem_of_nil in Hcandle. }
  { apply Forall_forall. intros p Hp.
    destruct (Hwell p Hp) as [(h & l & c & Hh & Hl & Hc & _) _].
    unfold finiteCandle, finite. repeat split; eauto. }
  cbn zeta in Hres, Hsup. rewrite Hr in Hres. rewrite Hs in Hsup.
  injection Hres as <-. injection Hsup as <-.
  destruct (Hwell candle Hcandle) as [(h & l & c & Hh & Hl & Hc & Hlc & Hch) Hpos].
  rewrite Hl in Hpos. apply lessThanOrEqualTo_fin in Hpos.
  pose proof (Hrall candle h Hcandle Hh) as Hhr.
  pose proof (Hsall candle l Hcandle Hl) as Hsl.
  assert (Hs0 : 0 <= s).
  { apply elem_of_map_inv in Hsin as (p & Hp & Hlow).
    destruct (Hwell p Hp) as [_ Hp0]. rewrite <- Hlow in Hp0.
    by apply lessThanOrEqualTo_fin in Hp0. }
  assert (Hrb : 0 <= r * buffer) by (apply Qmult_le_0_compat; lra).
  assert (Hsb : 0 <= s * buffer) by (apply Qmult_le_0_compat; lra).
  unfold detectBreakout. rewrite Hc.
  cbn [Dec.times Dec.greaterThan Dec.lessThan].
  destruct (Qltb (Qred (r * Qred (1 + buffer))) c) eqn:Eup.
  { qbool. rewrite !Qred_eq in Eup. lra. }
  destruct (Qltb c (Qred (s * Qred (1 - buffer)))) eqn:Edown.
  { qbool. rewrite !Qred_eq in Edown. lra. }
  reflexivity.
Qed.

End BreakoutInsideWindow.

(** ** Average true range *)

Section AverageTrueRange.

Import TechnicalIndicators.

Lemma fold_plus_nonNegative (xs : list Decimal) (a : Q) :
  0 <= a -> Forall nonNegative xs ->
  exists s, fold_left Dec.plus xs (Dec.Fin a) = Dec.Fin s /\ 0 <= s.
Proof.
  intros Ha Hall. revert a Ha. induction Hall as [|x xs (q & -> & Hq) _ IH]; intros a Ha.
  - exists a. split; [reflexivity | exact Ha].
  - cbn [fold_left Dec.plus]. apply IH. rewrite Qred_eq. lra.
Qed.

Lemma trueRanges_cons prev cur rest :
  trueRanges (prev :: cur :: rest)
  = (tr ← Dec.max [Dec.minus (high cur) (low cur);
                   Dec.abs (Dec.minus (high cur) (close prev));
                   Dec.abs (Dec.minus (low cur) (close prev))];
     trs ← trueRanges (cur :: rest);
     Ok (tr :: trs)).
Proof. reflexivity. Qed.

Lemma trueRanges_nonNegative prices :
  Forall finiteCandle prices ->
  exists trs, trueRanges prices = Ok trs
              /\ length trs = (length prices - 1)%nat
              /\ Forall nonNegative trs.
Proof.
  induction prices as [|prev rest IH]; intros Hall.
  - exists []. split; [reflexivity|]. split; [reflexivity | constructor].
  - apply Forall_cons in Hall as [Hprev Hrest].
    destruct rest as [|cur rest'].
    + exists []. split; [reflexivity|]. split; [reflexivity | constructor].
    + destruct (IH Hrest) as (trs & Htrs & Hlen & Hnn).
      destruct Hprev as (_ & _ & [pc Hpc]).
      pose proof Hrest as Hcur. apply Forall_cons in Hcur as [([h Hh] & [l Hl] & _) _].
      rewrite trueRanges_cons, Hpc, Hh, Hl.
      cbn [Dec.minus Dec.plus Dec.negated Dec.abs].
      match goal with |- context [Dec.max ?xs] =>
        destruct (Dec_max_finite xs) as (m & Hm & _ & Hall') end.
      { done. }
      { repeat constructor; unfold finite; eauto. }
      rewrite Hm. cbn [mbind Result_bind]. rewrite Htrs. cbn [mbind Result_bind].
      eexists. split; [reflexivity|]. split.
      { cbn [length] in *. lia. }
      constructor; [|exact Hnn].
      exists m. split; [reflexivity|].
      eapply Qle_trans; [|apply Hall'; right; left].
      rewrite Qred_eq. apply Qabs_nonneg.
Qed.

(** X3: the average true range is refused with fewer than [periods + 1]
    candles and is otherwise, on numeric candles, a non-negative number,
    also when a candle has its high below its low. *)
Theorem calculateATR_is_nonnegative prices periods :
  ((length prices < periods + 1)%nat ->
     calculateATR prices periods = Throw (InsufficientData "ATR"))
  /\ ((0 < periods)%nat -> (periods + 1 <= length prices)%nat ->
      Forall finiteCandle prices ->
      exists atr, calculateATR prices periods = Ok (Dec.Fin atr) /\ 0 <= atr).
Proof.
  split.
  - intros Hlen. unfold calculateATR.
    destruct (Nat.ltb_spec (length prices) (periods + 1)); [done | lia].
  - intros Hperiods Hlen Hall. unfold calculateATR.
    destruct (Nat.ltb_spec (length prices) (periods + 1)); [lia|].
    destruct (trueRanges_nonNegative prices Hall) as (trs & -> & Htrs & Hnn).
    cbn [mbind Result_bind].
    destruct (fold_plus_nonNegative (slice_last periods trs) 0) as (s & Hs & Hs0).
    { lra. }
    { unfold slice_last. destruct periods; [lia|]. by apply Forall_drop. }
    unfold Dec.sum. rewrite Hs.
    pose proof (ofNat_pos periods Hperiods) as Hpos.
    unfold Dec.ofNat. rewrite dividedBy_fin by lra.
    eexists. split; [reflexivity|]. rewrite Qred_eq.
    apply Qle_shift_div_l; [exact Hpos | lra].
Qed.

End AverageTrueRange.


(** ** Relative strength index *)

Section RelativeStrength.

Import TechnicalIndicators.

Lemma closeChanges_cons p p' rest :
  closeChanges (p :: p' :: rest)
  = Dec.minus (close p') (close p) :: closeChanges (p' :: rest).
Proof. reflexivity. Qed.

Lemma closeChanges_finite prices :
  Forall (fun p => finite (close p)) prices -> Forall finite (closeChanges prices).
Proof.
  induction prices as [|p rest IH]; intros Hall; [constructor|].
  apply Forall_cons in Hall as [[c Hc] Hrest].
  destruct rest as [|p' rest']; [constructor|].
  rewrite closeChanges_cons. constructor; [|by apply IH].
  apply Forall_cons in Hrest as [[c' Hc'] _].
  rewrite Hc, Hc'. eexists. reflexivity.
Qed.

Lemma quotient_nonneg (a b : Q) : 0 <= a -> 0 < b -> 0 <= a / b.
Proof. intros Ha Hb. apply Qle_shift_div_l; [exact Hb | lra]. Qed.

(** X4: with at least [periods + 1] numeric closes the RSI is a number
    between 0 and 100; it is 100 whenever no close of the window is below
    its predecessor, a flat window included. *)
Theorem calculateRSI_range prices periods :
  (0 < periods)%nat ->
  (periods + 1 <= length prices)%nat ->
  Forall (fun p => finite (close p)) prices ->
  (exists rsi, calculateRSI prices periods = Ok (Dec.Fin rsi) /\ 0 <= rsi <= 100)
  /\ (Forall (fun change => Dec.lessThan change (Dec.Fin 0) = false)
             (slice_last periods (closeChanges prices)) ->
      calculateRSI prices periods = Ok (Dec.Fin 100)).
Proof.
  intros Hperiods Hlen Hall.
  pose proof (ofNat_pos periods Hperiods) as Hpos.
  assert (Hrecent : Forall finite (slice_last periods (closeChanges prices))).
  { unfold slice_last. destruct periods; [lia|].
    apply Forall_drop. by apply closeChanges_finite. }
  unfold calculateRSI.
  destruct (Nat.ltb_spec (length prices) (periods + 1)); [lia|].
  cbn zeta.
  set (recent := slice_last periods (closeChanges prices)) in *.
  destruct (fold_plus_nonNegative
              (filter (fun c => Dec.greaterThan c (Dec.Fin 0) = true) recent) 0)
    as (g & Hg & Hg0); [lra| |].
  { apply Forall_forall. intros x Hx. apply list_elem_of_filter in Hx as [Hgt Hx].
    destruct (proj1 (Forall_forall _ _) Hrecent x Hx) as [q ->].
    exists q. split; [reflexivity|]. cbn in Hgt. qbool. lra. }
  destruct (fold_plus_nonNegative
              (map Dec.abs (filter (fun c => Dec.lessThan c (Dec.Fin 0) = true) recent)) 0)
    as (l & Hl & Hl0); [lra| |].
  { apply Forall_forall. intros x Hx. apply elem_of_map_inv in Hx as (y & Hy & ->).
    apply list_elem_of_filter in Hy as [_ Hy].
    destruct (proj1 (Forall_forall _ _) Hrecent y Hy) as [q ->].
    eexists. split; [reflexivity|]. rewrite Qred_eq. apply Qabs_nonneg. }
  unfold Dec.sum. rewrite Hg, Hl. unfold Dec.ofNat.
  rewrite !dividedBy_fin by lra.
  cbn [Dec.isZero]. unfold Qzerob.
  split.
  - destruct (Qeq_bool (Qred (l / _)) 0) eqn:Ezero.
    + exists 100. split; [reflexivity | lra].
    + qbool. rewrite Qred_eq in Ezero.
      pose proof (quotient_nonneg l _ Hl0 Hpos) as Hal.
      pose proof (quotient_nonneg g _ Hg0 Hpos) as Hag.
      set (avgLoss := l / inject_Z (Z.of_nat periods)) in *.
      set (avgGain := g / inject_Z (Z.of_nat periods)) in *.
      assert (HavgLoss : 0 < avgLoss) by (apply Qle_lteq in Hal as [?|E]; [done | by destruct Ezero]).
      rewrite dividedBy_fin by (rewrite Qred_eq; lra).
      cbn [Dec.plus].
      assert (Hrs : 0 <= Qred avgGain / Qred avgLoss).
      { apply quotient_nonneg; rewrite Qred_eq; lra. }
      set (rs := Qred avgGain / Qred avgLoss) in *.
      rewrite dividedBy_fin by (rewrite !Qred_eq; lra).
      cbn [Dec.minus Dec.negated Dec.plus].
      eexists. split; [reflexivity|]. rewrite !Qred_eq.
      assert (Hden : 0 < rs + 1) by lra.
      assert (0 <= 100 / (rs + 1)) by (apply quotient_nonneg; lra).
      assert (100 / (rs + 1) <= 100) by (apply Qle_shift_div_r; [exact Hden | lra]).
      lra.
  - intros Hnone.
    assert (Hlosses : filter (fun c => Dec.lessThan c (Dec.Fin 0) = true) recent = []).
    { clear -Hnone. induction Hnone as [|x xs Hx _ IH]; [reflexivity|].
      rewrite filter_cons. destruct (decide (Dec.lessThan x (Dec.Fin 0) = true)) as [E|_].
      - congruence.
      - exact IH. }
    rewrite Hlosses in Hl. cbn in Hl. injection Hl as <-.
    assert (E : Qeq_bool (Qred (0 / inject_Z (Z.of_nat periods))) 0 = true).
    { apply Qeq_bool_iff. rewrite Qred_eq. unfold Qdiv. lra. }
    rewrite E. reflexivity.
Qed.

End RelativeStrength.


(** ** Bollinger bands *)

Section Bollinger.

Import TechnicalIndicators.

Lemma fold_plus_finite (xs : list Decimal) (a : Q) :
  Forall finite xs -> finite (fold_left Dec.plus xs (Dec.Fin a)).
Proof.
  intros Hall. revert a. induction Hall as [|x xs [q ->] _ IH]; intros a.
  - by exists a.
  - cbn [fold_left Dec.plus]. apply IH.
Qed.

Lemma square_nonneg (x : Q) : 0 <= x * x.
Proof.
  destruct (Qlt_le_dec x 0) as [Hneg|Hpos].
  - assert (0 <= (- x) * (- x)) by (apply Qmult_le_0_compat; lra). lra.
  - by apply Qmult_le_0_compat.
Qed.

Lemma Qsqrt_nonneg (q : Q) : 0 <= Dec.Qsqrt q.
Proof.
  unfold Dec.Qsqrt. rewrite Qred_eq.
  set (root := Z.sqrt _). assert (0 <= root)%Z by apply Z.sqrt_nonneg.
  unfold Qle. cbn [Qnum Qden]. lia.
Qed.

(** X6: on numeric prices and with a non-negative width the Bollinger bands
    are ordered lower <= middle <= upper, and the middle band is the simple
    moving average of the window. *)
Theorem bollinger_bands_are_ordered prices periods stdDev :
  (0 < periods <= length prices)%nat ->
  0 <= stdDev ->
  Forall finite (slice_last periods prices) ->
  exists u m l,
    calculateBollingerBands prices periods (Dec.Fin stdDev)
    = Ok {| upper := Dec.Fin u; middle := Dec.Fin m; lower := Dec.Fin l |}
    /\ calculateSMA prices periods = Ok (Dec.Fin m)
    /\ l <= m <= u.
Proof.
  intros Hlen Hwidth Hall.
  pose proof (ofNat_pos periods (proj1 Hlen)) as Hpos.
  unfold calculateBollingerBands, calculateSMA.
  destruct (Nat.ltb_spec (length prices) periods); [lia|].
  destruct (fold_plus_finite (slice_last periods prices) 0 Hall) as [total Htotal].
  cbn zeta. unfold Dec.sum. rewrite Htotal.
  unfold Dec.ofNat. rewrite dividedBy_fin by lra.
  cbn [mbind Result_bind].
  set (sma := Qred (total / inject_Z (Z.of_nat periods))).
  destruct (fold_plus_nonNegative
              (map (fun p => Dec.pow2 (Dec.minus p (Dec.Fin sma)))
                   (slice_last periods prices)) 0)
    as (squares & Hsquares & Hsquares0); [lra| |].
  { apply Forall_map. eapply Forall_impl; [exact Hall|].
    intros x [q ->]. eexists. split; [reflexivity|].
    rewrite Qred_eq. apply square_nonneg. }
  unfold Dec.sum. rewrite Hsquares. rewrite dividedBy_fin by lra.
  cbn [Dec.sqrt].
  assert (Hvariance : 0 <= Qred (squares / inject_Z (Z.of_nat periods))).
  { rewrite Qred_eq. by apply quotient_nonneg. }
  destruct (Qltb (Qred (squares / inject_Z (Z.of_nat periods))) 0) eqn:E.
  { qbool. lra. }
  cbn [Dec.times Dec.plus Dec.minus Dec.negated].
  do 3 eexists. split; [reflexivity|]. split; [reflexivity|].
  rewrite !Qred_eq.
  assert (0 <= Dec.Qsqrt (Qred (squares / inject_Z (Z.of_nat periods))) * stdDev).
  { apply Qmult_le_0_compat; [apply Qsqrt_nonneg | exact Hwidth]. }
  set (width := Dec.Qsqrt _ * stdDev) in *.
  pose proof (Qred_eq (sma + width)).
  split; lra.
Qed.

End Bollinger.

(** ** Stochastic oscillator *)

Section StochasticRange.

Import TechnicalIndicators.

Lemma mapR_Forall {A B} (f : A -> Result B) (P : B -> Prop) (xs : list A) (ys : list B) :
  mapR f xs = Ok ys ->
  (forall x y, x ∈ xs -> f x = Ok y -> P y) ->
  Forall P ys.
Proof.
  revert ys. induction xs as [|x xs IH]; intros ys Hmap Hall.
  - injection Hmap as <-. constructor.
  - cbn [mapR] in Hmap. destruct (f x) as [y|] eqn:Hy; [|done].
    cbn [mbind Result_bind] in Hmap.
    destruct (mapR f xs) as [ys'|] eqn:Hys; [|done].
    injection Hmap as <-. constructor.
    + apply (Hall x); [left | exact Hy].
    + apply IH; [reflexivity|]. intros x' y' Hx'. apply Hall. by right.
Qed.

Lemma mapR_Forall_ok {A B} (f : A -> Result B) (xs : list A) (ys : list B) :
  mapR f xs = Ok ys -> forall x, x ∈ xs -> exists y, f x = Ok y.
Proof.
  revert ys. induction xs as [|x xs IH]; intros ys Hmap x' Hx'.
  - by apply elem_of_nil in Hx'.
  - cbn [mapR] in Hmap. destruct (f x) as [y|] eqn:Hy; [|done].
    cbn [mbind Result_bind] in Hmap.
    destruct (mapR f xs) as [ys'|] eqn:Hys; [|done].
    apply elem_of_cons in Hx' as [->|Hx']; [eauto|].
    by apply (IH ys').
Qed.

Lemma wellFormed_finite p : wellFormedCandle p -> finiteCandle p.
Proof.
  intros (h & l & c & Hh & Hl & Hc & _). unfold finiteCandle, finite.
  repeat split; eauto.
Qed.

Lemma last_elem_of {A} (xs : list A) (x : A) : last xs = Some x -> x ∈ xs.
Proof.
  intros H. rewrite last_lookup in H. by apply list_elem_of_lookup_2 in H.
Qed.

(** %K of one window of well-formed candles. *)
Lemma percentK_within (window : list PriceData) :
  window <> [] -> Forall wellFormedCandle window ->
  forall y,
    (highest ← Dec.max (map high window);
     lowest ← Dec.min (map low window);
     match last window with
     | None => Throw TypeError
     | Some lastPrice =>
         let currentClose := close lastPrice in
         let range := Dec.minus highest lowest in
         Ok (if Dec.isZero range
             then Dec.Fin 50
             else Dec.times (Dec.dividedBy (Dec.minus currentClose lowest) range)
                            (Dec.Fin 100))
     end) = Ok y ->
    within 0 100 y.
Proof.
  intros Hne Hall y.
  destruct (window_highs_lows window Hne)
    as (hi & lo & -> & -> & _ & _ & Hhi & Hlo).
  { eapply Forall_impl; [exact Hall | apply wellFormed_finite]. }
  cbn [mbind Result_bind].
  destruct (last window) as [lastPrice|] eqn:Hlast; [|done].
  apply last_elem_of in Hlast.
  destruct (proj1 (Forall_forall _ _) Hall lastPrice Hlast)
    as (h & l & c & Hh & Hl & Hc & Hlc & Hch).
  pose proof (Hhi lastPrice h Hlast Hh). pose proof (Hlo lastPrice l Hlast Hl).
  rewrite Hc. cbn [Dec.minus Dec.plus Dec.negated Dec.isZero]. unfold Qzerob.
  destruct (Qeq_bool (Qred (hi + Qred (- lo))) 0) eqn:Ezero.
  - intros [= <-]. exists 50. split; [reflexivity | lra].
  - qbool. rewrite !Qred_eq in Ezero.
    rewrite dividedBy_fin by (rewrite !Qred_eq; exact Ezero).
    cbn [Dec.times]. intros [= <-]. eexists. split; [reflexivity|].
    rewrite !Qred_eq.
    assert (Hrange : 0 < hi + - lo).
    { assert (Hnn : 0 <= hi + - lo) by lra.
      apply Qle_lteq in Hnn as [?|E]; [done|]. destruct Ezero. by rewrite <- E. }
    assert (0 <= (c + - lo) / (hi + - lo)) by (apply quotient_nonneg; lra).
    assert ((c + - lo) / (hi + - lo) <= 1) by (apply Qle_shift_div_r; lra).
    lra.
Qed.

(** X7: on candles whose close lies between low and high, both lines of
    the stochastic oscillator are numbers between 0 and 100. *)
Theorem calculateStochastic_range prices kPeriod dPeriod :
  (0 < kPeriod)%nat -> (0 < dPeriod)%nat ->
  (kPeriod + dPeriod <= length prices)%nat ->
  Forall wellFormedCandle prices ->
  exists s,
    calculateStochastic prices kPeriod dPeriod = Ok s
    /\ within 0 100 (k s) /\ within 0 100 (d s).
Proof.
  intros Hk Hd Hlen Hall. unfold calculateStochastic.
  destruct (Nat.ltb_spec (length prices) (kPeriod + dPeriod)); [lia|].
  destruct kPeriod as [|k0]; [lia|].
  match goal with |- context [mapR ?f ?xs] =>
    assert (Hbody : forall i y, i ∈ xs -> f i = Ok y -> within 0 100 y);
    [|destruct (mapR f xs) as [kValues|] eqn:Hvalues] end.
  { intros i y Hi. apply elem_of_seq in Hi.
    apply percentK_within.
    - apply nonempty_of_length. unfold slice. rewrite length_take, length_drop. lia.
    - unfold slice. by apply Forall_take, Forall_drop. }
  2:{ exfalso.
      destruct (calculateStochastic_ok prices (S k0) dPeriod) as [v Hv]; [lia|lia|].
      unfold calculateStochastic in Hv.
      destruct (Nat.ltb_spec (length prices) (S k0 + dPeriod)); [lia|].
      rewrite Hvalues in Hv. done. }
  pose proof (mapR_Forall _ (within 0 100) _ _ Hvalues Hbody) as Hwithin.
  assert (Hcount : length kValues = (length prices - k0)%nat).
  { match type of Hvalues with mapR ?f ?xs = _ =>
      destruct (mapR_ok f xs) as (ys & Hys & Hcount) end.
    - intros i Hi. destruct (mapR_Forall_ok _ _ _ Hvalues i Hi) as [y Hy]. eauto.
    - rewrite Hvalues in Hys. injection Hys as <-. by rewrite length_seq in Hcount. }
  cbn [mbind Result_bind].
  destruct (last kValues) as [currentK|] eqn:Hlast.
  2:{ apply last_None in Hlast. subst kValues. cbn in Hcount. lia. }
  eexists. split; [reflexivity|]. cbn [k d]. split.
  - apply (proj1 (Forall_forall _ _) Hwithin). by apply last_elem_of.
  - apply mean_within; [exact Hd | apply length_slice_last; lia |].
    unfold slice_last. destruct dPeriod; [lia|]. by apply Forall_drop.
Qed.

End StochasticRange.


(** ** Moving-average trend and its confirmation *)

Section TrendConfirmation.

Import TechnicalIndicators.

Lemma detectTrend_ok prices shortPeriod longPeriod :
  (shortPeriod <= longPeriod)%nat ->
  exists trend, detectTrend prices shortPeriod longPeriod = Ok trend.
Proof.
  intros Hperiods. unfold detectTrend.
  destruct (Nat.ltb_spec (length prices) longPeriod); [eauto|].
  assert (Hcloses : length (map close prices) = length prices) by apply length_map.
  destruct (calculateSMA_ok (slice_last shortPeriod (map close prices)) shortPeriod)
    as [ma20 ->].
  { destruct shortPeriod; [lia|]. rewrite length_slice_last; lia. }
  destruct (calculateSMA_ok (slice_last longPeriod (map close prices)) longPeriod)
    as [ma50 ->].
  { destruct longPeriod; [lia|]. rewrite length_slice_last; lia. }
  cbn [mbind Result_bind].
  destruct (Dec.greaterThan _ _); [eauto|]. destruct (Dec.lessThan _ _); eauto.
Qed.

Lemma detectPriceStructure_ok prices lookback :
  (0 < lookback)%nat ->
  exists structure, detectPriceStructure prices lookback = Ok structure.
Proof.
  intros Hlookback. unfold detectPriceStructure.
  destruct (Nat.ltb_spec (length prices) (lookback * 2)); [eauto|].
  cbn zeta.
  assert (Hrecent : length (slice_last (lookback * 2) prices) = (lookback * 2)%nat).
  { apply length_slice_last. lia. }
  set (recent := slice_last (lookback * 2) prices) in *.
  assert (Hfirst : map high (slice 0 lookback recent) <> []
                   /\ map low (slice 0 lookback recent) <> []).
  { split; apply nonempty_of_length; rewrite length_map, length_slice_prefix; lia. }
  assert (Hsecond : map high (drop lookback recent) <> []
                    /\ map low (drop lookback recent) <> []).
  { split; apply nonempty_of_length; rewrite length_map, length_drop; lia. }
  destruct (Dec_max_ok _ (proj1 Hfirst)) as [firstHigh ->].
  destruct (Dec_min_ok _ (proj2 Hfirst)) as [firstLow ->].
  destruct (Dec_max_ok _ (proj1 Hsecond)) as [secondHigh ->].
  destruct (Dec_min_ok _ (proj2 Hsecond)) as [secondLow ->].
  cbn [mbind Result_bind].
  destruct (_ && _); [eauto|]. destruct (_ && _); eauto.
Qed.

(** X8: [detectTrend] answers SIDEWAYS below [longPeriod] candles, never
    throws when [shortPeriod <= longPeriod], and throws when the short period
    exceeds the number of candles.  [isTrendConfirmed] never throws, is false
    for either trend on any window of fewer than 50 candles, and never
    confirms both trends on the same window. *)
Theorem trend_confirmation_is_total_and_exclusive prices :
  (forall shortPeriod longPeriod,
      (length prices < longPeriod)%nat ->
      detectTrend prices shortPeriod longPeriod = Ok Trend.SIDEWAYS)
  /\ (forall shortPeriod longPeriod,
        (shortPeriod <= longPeriod)%nat ->
        exists trend, detectTrend prices shortPeriod longPeriod = Ok trend)
  /\ (forall shortPeriod longPeriod,
        (longPeriod <= length prices < shortPeriod)%nat ->
        detectTrend prices shortPeriod longPeriod = Throw (InsufficientData "SMA"))
  /\ (forall expectedTrend,
        exists confirmed, isTrendConfirmed prices expectedTrend = Ok confirmed)
  /\ ((length prices < 50)%nat ->
      forall expectedTrend, isTrendConfirmed prices expectedTrend = Ok false)
  /\ (isTrendConfirmed prices Trend.UPTREND = Ok true ->
      isTrendConfirmed prices Trend.DOWNTREND = Ok false).
Proof.
  split; [|split; [|split; [|split; [|split]]]].
  - intros shortPeriod longPeriod Hlen. unfold detectTrend.
    destruct (Nat.ltb_spec (length prices) longPeriod); [done | lia].
  - intros shortPeriod longPeriod. apply detectTrend_ok.
  - intros shortPeriod longPeriod Hlen. unfold detectTrend.
    destruct (Nat.ltb_spec (length prices) longPeriod); [lia|].
    assert (Hshort : calculateSMA (slice_last shortPeriod (map close prices)) shortPeriod
                     = Throw (InsufficientData "SMA")).
    { unfold calculateSMA.
      destruct (Nat.ltb_spec (length (slice_last shortPeriod (map close prices)))
                  shortPeriod) as [_|Hge]; [reflexivity|].
      unfold slice_last in Hge. destruct shortPeriod; [lia|].
      rewrite length_drop, length_map in Hge. lia. }
    rewrite Hshort. reflexivity.
  - intros expectedTrend. unfold isTrendConfirmed.
    destruct (detectTrend_ok prices 20 50) as [trend ->]; [lia|].
    destruct (detectPriceStructure_ok prices 10) as [structure ->]; [lia|].
    cbn [mbind Result_bind]. destruct expectedTrend; eauto.
  - intros Hlen expectedTrend. unfold isTrendConfirmed, detectTrend.
    destruct (Nat.ltb_spec (length prices) 50); [|lia].
    destruct (detectPriceStructure_ok prices 10) as [structure ->]; [lia|].
    cbn [mbind Result_bind]. destruct expectedTrend; reflexivity.
  - unfold isTrendConfirmed.
    destruct (detectTrend prices 20 50) as [trend|]; [|done].
    destruct (detectPriceStructure prices 10) as [structure|]; [|done].
    cbn [mbind Result_bind]. destruct trend, structure; done.
Qed.

End TrendConfirmation.


(** ** The signal generator: what it returns and what it leaves alone *)

Section GeneratorAnswers.

Import TechnicalIndicators BreakoutStrategy.

(** The generator from a world in which the instrument may trade: the two
    cooldown checks, then the verdict of the window. *)
Lemma generateSignal_cases env symbol w :
  exists r w',
    generateSignal env symbol w = (Ok r, w')
    /\ disk w' = disk w /\ journal w' = journal w
    /\ config (bot w') = config (bot w)
    /\ priceHistory (bot w') = priceHistory (bot w)
    /\ activeSignals (bot w') = activeSignals (bot w)
    /\ trailingStops (bot w') = trailingStops (bot w)
    /\ partialProfitTaken (bot w') = partialProfitTaken (bot w)
    /\ positionOpenedAt (bot w') = positionOpenedAt (bot w)
    /\ lastTrailingStopCheck (bot w') = lastTrailingStopCheck (bot w)
    /\ (lossCooldowns (bot w') = lossCooldowns (bot w)
        \/ lossCooldowns (bot w') = delete symbol (lossCooldowns (bot w)))
    /\ (failedSignalCooldowns (bot w') = failedSignalCooldowns (bot w)
        \/ failedSignalCooldowns (bot w')
           = delete symbol (failedSignalCooldowns (bot w)))
    /\ (forall sig, r = Some sig ->
          exists history,
            priceHistory (bot w) !! symbol = Some history
            /\ (200 <= length history)%nat
            /\ activeSignals (bot w) !! symbol = None
            /\ signalFromWindow symbol history = Ok (Some sig)).
Proof.
  unfold generateSignal. run_binds.
  destruct (priceHistory (bot w) !! symbol) as [history|] eqn:Hhistory.
  2:{ exists None, w. repeat split; auto; try done. }
  destruct (Nat.ltb_spec (length history) 200).
  { exists None, w. repeat split; auto; try done. }
  destruct (bool_decide (is_Some (activeSignals (bot w) !! symbol))) eqn:Hactive.
  { exists None, w. repeat split; auto; try done. }
  apply bool_decide_eq_false in Hactive.
  assert (Hfree : activeSignals (bot w) !! symbol = None).
  { destruct (activeSignals (bot w) !! symbol); [|done]. destruct Hactive. eauto. }
  destruct (cooldownBlocks_cases env (lossCooldowns (bot w) !! symbol)
              LOSS_COOLDOWN_MS (withLossCooldowns (delete symbol)) w)
    as (b & w1 & -> & Hd1 & Hj1 & Hb1).
  assert (Hloss : config (bot w1) = config (bot w)
                  /\ priceHistory (bot w1) = priceHistory (bot w)
                  /\ activeSignals (bot w1) = activeSignals (bot w)
                  /\ trailingStops (bot w1) = trailingStops (bot w)
                  /\ partialProfitTaken (bot w1) = partialProfitTaken (bot w)
                  /\ positionOpenedAt (bot w1) = positionOpenedAt (bot w)
                  /\ lastTrailingStopCheck (bot w1) = lastTrailingStopCheck (bot w)
                  /\ failedSignalCooldowns (bot w1) = failedSignalCooldowns (bot w)
                  /\ (lossCooldowns (bot w1) = lossCooldowns (bot w)
                      \/ lossCooldowns (bot w1) = delete symbol (lossCooldowns (bot w)))).
  { destruct Hb1 as [->|(_ & _ & ->)]; repeat split; auto. }
  destruct Hloss as (Hc1 & Hp1 & Ha1 & Ht1 & Hpp1 & Ho1 & Hl1 & Hf1 & Hloss).
  destruct b.
  { exists None, w1. repeat split; auto; try congruence; try done. }
  destruct (cooldownBlocks_cases env (failedSignalCooldowns (bot w) !! symbol)
              FAILED_SIGNAL_COOLDOWN_MS (withFailedSignalCooldowns (delete symbol)) w1)
    as (b & w2 & -> & Hd2 & Hj2 & Hb2).
  assert (Hfailed : config (bot w2) = config (bot w1)
                    /\ priceHistory (bot w2) = priceHistory (bot w1)
                    /\ activeSignals (bot w2) = activeSignals (bot w1)
                    /\ trailingStops (bot w2) = trailingStops (bot w1)
                    /\ partialProfitTaken (bot w2) = partialProfitTaken (bot w1)
                    /\ positionOpenedAt (bot w2) = positionOpenedAt (bot w1)
                    /\ lastTrailingStopCheck (bot w2) = lastTrailingStopCheck (bot w1)
                    /\ lossCooldowns (bot w2) = lossCooldowns (bot w1)
                    /\ (failedSignalCooldowns (bot w2) = failedSignalCooldowns (bot w1)
                        \/ failedSignalCooldowns (bot w2)
                           = delete symbol (failedSignalCooldowns (bot w1)))).
  { destruct Hb2 as [->|(_ & _ & ->)]; repeat split; auto. }
  destruct Hfailed as (Hc2 & Hp2 & Ha2 & Ht2 & Hpp2 & Ho2 & Hl2 & Hloss2 & Hfailed).
  assert (Hfailed' : failedSignalCooldowns (bot w2) = failedSignalCooldowns (bot w)
                     \/ failedSignalCooldowns (bot w2)
                        = delete symbol (failedSignalCooldowns (bot w))).
  { rewrite <- Hf1. exact Hfailed. }
  assert (Hloss' : lossCooldowns (bot w2) = lossCooldowns (bot w)
                   \/ lossCooldowns (bot w2) = delete symbol (lossCooldowns (bot w))).
  { rewrite Hloss2. exact Hloss. }
  destruct b.
  { exists None, w2. repeat split; auto; try congruence; try done. }
  unfold tryCatch, liftR.
  destruct (signalFromWindow symbol history) as [r|e] eqn:Hwindow.
  - exists r, w2. repeat split; auto; try congruence.
    intros sig ->. exists history. auto.
  - exists None, w2. repeat split; auto; try congruence; try done.
Qed.

(** X9: the generator never throws, sends nothing to the exchange and
    writes no file; of the bot's state it can only remove the instrument's
    own cooldown entries (when they have expired). *)
Theorem generateSignal_only_expires_cooldowns env symbol w :
  isOk (generateSignal env symbol w).1 = true
  /\ disk (generateSignal env symbol w).2 = disk w
  /\ journal (generateSignal env symbol w).2 = journal w
  /\ priceHistory (bot (generateSignal env symbol w).2) = priceHistory (bot w)
  /\ activeSignals (bot (generateSignal env symbol w).2) = activeSignals (bot w)
  /\ trailingStops (bot (generateSignal env symbol w).2) = trailingStops (bot w)
  /\ partialProfitTaken (bot (generateSignal env symbol w).2)
     = partialProfitTaken (bot w)
  /\ (forall other, other <> symbol ->
        lossCooldowns (bot (generateSignal env symbol w).2) !! other
        = lossCooldowns (bot w) !! other
        /\ failedSignalCooldowns (bot (generateSignal env symbol w).2) !! other
           = failedSignalCooldowns (bot w) !! other)
  /\ (forall since,
        lossCooldowns (bot (generateSignal env symbol w).2) !! symbol = Some since ->
        lossCooldowns (bot w) !! symbol = Some since)
  /\ (forall since,
        failedSignalCooldowns (bot (generateSignal env symbol w).2) !! symbol
        = Some since ->
        failedSignalCooldowns (bot w) !! symbol = Some since).
Proof.
  destruct (generateSignal_cases env symbol w)
    as (r & w' & -> & Hd & Hj & _ & Hp & Ha & Ht & Hpp & _ & _ & Hloss & Hfailed & _).
  cbn [fst snd]. repeat (split; [done|]). split; [|split].
  - intros other Hother. split.
    + destruct Hloss as [->| ->]; [done | by apply lookup_delete_ne].
    + destruct Hfailed as [->| ->]; [done | by apply lookup_delete_ne].
  - intros since. destruct Hloss as [->| ->]; [done|]. by rewrite lookup_delete_eq.
  - intros since. destruct Hfailed as [->| ->]; [done|]. by rewrite lookup_delete_eq.
Qed.

End GeneratorAnswers.


(** ** Emitted signals *)

Section EmittedSignals.

Import TechnicalIndicators BreakoutStrategy.

Lemma below_stop_loss : below STOP_LOSS_PERCENT = Dec.Fin (Qred 0.95).
Proof. reflexivity. Qed.

Lemma above_stop_loss : above STOP_LOSS_PERCENT = Dec.Fin (Qred 1.05).
Proof. reflexivity. Qed.

Lemma below_take_profit : below TAKE_PROFIT_THRESHOLD = Dec.Fin (Qred 0.987).
Proof. reflexivity. Qed.

Lemma above_take_profit : above TAKE_PROFIT_THRESHOLD = Dec.Fin (Qred 1.013).
Proof. reflexivity. Qed.

(** What a window that yields a signal has passed. *)
Lemma signalFromWindow_inv symbol history sig :
  signalFromWindow symbol history = Ok (Some sig) ->
  exists entry ms,
    last (map close history) = Some entry
    /\ Signal.symbol sig = symbol
    /\ Signal.entryPrice sig = entry
    /\ calculateMomentumScore history
         (match Signal.side sig with BUY => LONG | SELL => SHORT end) = Ok ms
    /\ Signal.confidence sig = score ms
    /\ Dec.lessThan (score ms) (Dec.Fin MOMENTUM_THRESHOLD) = false
    /\ match Signal.side sig with
       | BUY =>
           detectEMAStack (map close history) = Ok BULLISH
           /\ detectPriceStructure history 10 = Ok HIGHER_HIGHS
           /\ Signal.stopLoss sig = Dec.times entry (Dec.Fin (Qred 0.95))
           /\ Signal.takeProfit sig = Some (Dec.times entry (Dec.Fin (Qred 1.013)))
       | SELL =>
           detectEMAStack (map close history) = Ok BEARISH
           /\ detectPriceStructure history 10 = Ok LOWER_LOWS
           /\ Signal.stopLoss sig = Dec.times entry (Dec.Fin (Qred 1.05))
           /\ Signal.takeProfit sig = Some (Dec.times entry (Dec.Fin (Qred 0.987)))
       end.
Proof.
  unfold signalFromWindow.
  destruct (arrayGet history _) as [lastComplete|]; [|done].
  cbn [defined mbind Result_bind].
  destruct (detectEMAStack _) as [trend|]; [|done].
  cbn [mbind Result_bind].
  destruct trend; [| |done].
  - destruct (calculateAverageVolume _ 20) as [avgVolume|]; [|done].
    cbn [mbind Result_bind].
    destruct (Dec.lessThan (Dec.dividedBy _ _) _); [done|].
    destruct (calculateMomentumScore history LONG) as [ms|] eqn:Hms; [|done].
    cbn [mbind Result_bind].
    destruct (Dec.lessThan (score ms) _) eqn:Hscore; [done|].
    destruct (detectPriceStructure history 10) as [structure|]; [|done].
    cbn [mbind Result_bind].
    destruct structure; [|done|done].
    destruct (last (map close history)) as [entry|]; [|done].
    cbn [defined mbind Result_bind]. intros [= <-]. cbn.
    exists entry, ms. rewrite Hms, below_stop_loss, above_take_profit. auto 10.
  - destruct (calculateAverageVolume _ 20) as [avgVolume|]; [|done].
    cbn [mbind Result_bind].
    destruct (Dec.lessThan (Dec.dividedBy _ _) _); [done|].
    destruct (calculateMomentumScore history SHORT) as [ms|] eqn:Hms; [|done].
    cbn [mbind Result_bind].
    destruct (Dec.lessThan (score ms) _) eqn:Hscore; [done|].
    destruct (detectPriceStructure history 10) as [structure|]; [|done].
    cbn [mbind Result_bind].
    destruct structure; [done| |done].
    destruct (last (map close history)) as [entry|]; [|done].
    cbn [defined mbind Result_bind]. intros [= <-]. cbn.
    exists entry, ms. rewrite Hms, above_stop_loss, below_take_profit. auto 10.
Qed.

(** X10: a signal is emitted only for an instrument without active signal
    whose window has at least 200 candles, an EMA stack and a price
    structure in the direction of the trade, and a momentum score not below
    0.60, which becomes the confidence; the entry is the last close, the
    stop 5% and the target 1.3% away from it, so that for a positive entry
    price stop < entry < target for a long and target < entry < stop for a
    short. *)
Theorem emitted_signal_passed_every_gate env symbol w sig :
  (generateSignal env symbol w).1 = Ok (Some sig) ->
  exists history entry ms,
    priceHistory (bot w) !! symbol = Some history
    /\ (200 <= length history)%nat
    /\ activeSignals (bot w) !! symbol = None
    /\ last (map close history) = Some entry
    /\ Signal.symbol sig = symbol
    /\ Signal.entryPrice sig = entry
    /\ calculateMomentumScore history
         (match Signal.side sig with BUY => LONG | SELL => SHORT end) = Ok ms
    /\ Signal.confidence sig = score ms
    /\ Dec.lessThan (score ms) (Dec.Fin MOMENTUM_THRESHOLD) = false
    /\ match Signal.side sig with
       | BUY =>
           detectEMAStack (map close history) = Ok BULLISH
           /\ detectPriceStructure history 10 = Ok HIGHER_HIGHS
           /\ Signal.stopLoss sig = Dec.times entry (Dec.Fin (Qred 0.95))
           /\ Signal.takeProfit sig = Some (Dec.times entry (Dec.Fin (Qred 1.013)))
       | SELL =>
           detectEMAStack (map close history) = Ok BEARISH
           /\ detectPriceStructure history 10 = Ok LOWER_LOWS
           /\ Signal.stopLoss sig = Dec.times entry (Dec.Fin (Qred 1.05))
           /\ Signal.takeProfit sig = Some (Dec.times entry (Dec.Fin (Qred 0.987)))
       end
    /\ (forall e, entry = Dec.Fin e -> 0 < e ->
          exists stop target,
            Signal.stopLoss sig = Dec.Fin stop
            /\ Signal.takeProfit sig = Some (Dec.Fin target)
            /\ match Signal.side sig with
               | BUY => stop < e /\ e < target
               | SELL => target < e /\ e < stop
               end).
Proof.
  intros Hgen.
  destruct (generateSignal_cases env symbol w) as (r & w' & Hrun & Hrest).
  rewrite Hrun in Hgen. cbn [fst] in Hgen. injection Hgen as ->.
  destruct Hrest as (_ & _ & _ & _ & _ & _ & _ & _ & _ & _ & _ & Hsig).
  destruct (Hsig sig eq_refl) as (history & Hhistory & Hlen & Hfree & Hwindow).
  destruct (signalFromWindow_inv symbol history sig Hwindow)
    as (entry & ms & Hentry & Hsym & Hprice & Hms & Hconf & Hscore & Hside).
  exists history, entry, ms. repeat (split; [assumption|]).
  intros e -> He.
  pose proof (Qred_eq 0.95). pose proof (Qred_eq 1.05).
  pose proof (Qred_eq 0.987). pose proof (Qred_eq 1.013).
  destruct (Signal.side sig); destruct Hside as (_ & _ & -> & ->);
    cbn [Dec.times]; do 2 eexists; (split; [reflexivity|]); (split; [reflexivity|]);
    rewrite !Qred_eq.
  - assert (0 < e * (1 - Qred 0.95)) by (apply Qmult_lt_0_compat; lra).
    assert (0 < e * (Qred 1.013 - 1)) by (apply Qmult_lt_0_compat; lra).
    split; lra.
  - assert (0 < e * (Qred 1.05 - 1)) by (apply Qmult_lt_0_compat; lra).
    assert (0 < e * (1 - Qred 0.987)) by (apply Qmult_lt_0_compat; lra).
    split; lra.
Qed.

End EmittedSignals.


(** ** Cooldowns expire *)

Section CooldownExpiry.

Import TechnicalIndicators BreakoutStrategy.

Lemma cooldownBlocks_outside env timestamp duration f w :
  (forall since i, timestamp = Some since -> (duration <= dateNow env i - since)%Z) ->
  exists w',
    cooldownBlocks env timestamp duration (modifyBot f) w = (Ok false, w')
    /\ disk w' = disk w /\ journal w' = journal w
    /\ ((bot w' = bot w /\ (timestamp = None \/ timestamp = Some 0%Z))
        \/ (bot w' = f (bot w) /\ exists since, timestamp = Some since /\ since <> 0%Z)).
Proof.
  intros Hexpired. unfold cooldownBlocks.
  destruct timestamp as [since|]; [|by eauto 10].
  destruct (truthyZ since) eqn:Htruthy.
  - run_monad.
    destruct (Z.ltb_spec (dateNow env (effects w) - since) duration) as [Hlt|_].
    { specialize (Hexpired since (effects w) eq_refl). lia. }
    run_monad. eexists. split; [reflexivity|]. cbn.
    repeat split. right. split; [reflexivity|].
    exists since. split; [reflexivity | by apply truthyZ_nonzero].
  - apply truthyZ_false in Htruthy as ->. eauto 10.
Qed.

(** X12: for an instrument with at least 200 candles and no active signal
    whose cooldown entries, if any, are at least 20 minutes (loss) and 5
    minutes (failed order) old, the generator's answer is the verdict of the
    window alone ([null] when an indicator throws), and the expired entries
    are removed; an entry exactly as old as its cooldown no longer blocks. *)
Theorem generateSignal_after_cooldowns env symbol w history :
  priceHistory (bot w) !! symbol = Some history ->
  (200 <= length history)%nat ->
  activeSignals (bot w) !! symbol = None ->
  (forall since i,
      lossCooldowns (bot w) !! symbol = Some since ->
      (LOSS_COOLDOWN_MS <= dateNow env i - since)%Z) ->
  (forall since i,
      failedSignalCooldowns (bot w) !! symbol = Some since ->
      (FAILED_SIGNAL_COOLDOWN_MS <= dateNow env i - since)%Z) ->
  (generateSignal env symbol w).1
  = Ok (match signalFromWindow symbol history with
        | Ok answer => answer
        | Throw _ => None
        end)
  /\ (forall since,
        lossCooldowns (bot (generateSignal env symbol w).2) !! symbol = Some since ->
        since = 0%Z)
  /\ (forall since,
        failedSignalCooldowns (bot (generateSignal env symbol w).2) !! symbol
        = Some since ->
        since = 0%Z).
Proof.
  intros Hhistory Hlen Hfree Hloss Hfailed.
  unfold generateSignal. run_binds. rewrite Hhistory.
  destruct (Nat.ltb_spec (length history) 200); [lia|].
  rewrite bool_decide_eq_false_2 by (rewrite Hfree; apply is_Some_None).
  destruct (cooldownBlocks_outside env (lossCooldowns (bot w) !! symbol)
              LOSS_COOLDOWN_MS (withLossCooldowns (delete symbol)) w Hloss)
    as (w1 & -> & _ & _ & H1).
  destruct (cooldownBlocks_outside env (failedSignalCooldowns (bot w) !! symbol)
              FAILED_SIGNAL_COOLDOWN_MS (withFailedSignalCooldowns (delete symbol)) w1
              Hfailed)
    as (w2 & -> & _ & _ & H2).
  unfold tryCatch, liftR.
  assert (Hfinal : (forall since, lossCooldowns (bot w2) !! symbol = Some since ->
                                  since = 0%Z)
                   /\ (forall since, failedSignalCooldowns (bot w2) !! symbol = Some since ->
                                     since = 0%Z)).
  { destruct H1 as [[Hb1 Ht1]|[Hb1 _]], H2 as [[Hb2 Ht2]|[Hb2 _]];
      rewrite Hb2, Hb1; cbn; split; intros since;
      rewrite ?lookup_delete_eq; try done.
    - destruct Ht1 as [-> | ->]; [done | congruence].
    - destruct Ht2 as [-> | ->]; [done | congruence].
    - destruct Ht1 as [-> | ->]; [done | congruence].
    - destruct Ht2 as [-> | ->]; [done | congruence]. }
  destruct (signalFromWindow symbol history); cbn [fst snd]; split; done.
Qed.

End CooldownExpiry.


(** ** Frames at the level of worlds *)

Create HintDb worldframes.

Section WorldFrames.

Import BreakoutStrategy.

Context (R : World -> World -> Prop) `{!Reflexive R} `{!Transitive R}.

Lemma keeps_mret {A} (a : A) : keeps R (mret a : M A).
Proof. intros w. cbn. reflexivity. Qed.

Lemma keeps_bind {A B} (m : M A) (f : A -> M B) :
  keeps R m -> (forall a, keeps R (f a)) -> keeps R (m ≫= f).
Proof.
  intros Hm Hf w. specialize (Hm w). unfold mbind, M_bind.
  destruct (m w) as [[a|e] w1]; cbn in *.
  - etransitivity; [exact Hm | apply Hf].
  - exact Hm.
Qed.

Lemma keeps_tryCatch {A} (m handler : M A) :
  keeps R m -> keeps R handler -> keeps R (tryCatch m handler).
Proof.
  intros Hm Hh w. specialize (Hm w). unfold tryCatch.
  destruct (m w) as [[a|e] w1]; cbn in *.
  - exact Hm.
  - etransitivity; [exact Hm | apply Hh].
Qed.

Lemma keeps_liftR {A} (r : Result A) : keeps R (liftR r).
Proof. intros w. cbn. reflexivity. Qed.

Lemma keeps_getBot : keeps R getBot.
Proof. intros w. cbn. reflexivity. Qed.

Lemma keeps_when b (m : M unit) : keeps R m -> keeps R (when b m).
Proof. intros Hm. destruct b; [exact Hm | apply keeps_mret]. Qed.

Lemma keeps_forEach {A} (xs : list A) (body : A -> M unit) :
  (forall x, keeps R (body x)) -> keeps R (forEach xs body).
Proof.
  intros Hbody. induction xs as [|x xs IH]; cbn.
  - apply keeps_mret.
  - apply keeps_bind; [apply Hbody | intros _; exact IH].
Qed.

(** [m1; m2; k] from [m1; m2] and [k]. *)
Lemma keeps_pair {B} (m1 m2 : M unit) (k : unit -> M B) :
  keeps R (_ ← m1; m2) -> (forall a, keeps R (k a)) ->
  keeps R (_ ← m1; a ← m2; k a).
Proof.
  intros Hpair Hk w. specialize (Hpair w). unfold mbind, M_bind in *.
  destruct (m1 w) as [[[]|e] w1]; cbn in *; [|exact Hpair].
  destruct (m2 w1) as [[a|e] w2]; cbn in *; [|exact Hpair].
  etransitivity; [exact Hpair | apply Hk].
Qed.

End WorldFrames.

#[export] Hint Resolve keeps_mret keeps_liftR keeps_getBot : worldframes.

Ltac keeps_intro :=
  try typeclasses eauto;
  try match goal with |- forall _, _ => intros ? end.

Ltac keeps_step :=
  first
    [ solve [eauto with worldframes typeclass_instances]
    | apply keeps_bind; keeps_intro
    | apply keeps_tryCatch; keeps_intro
    | apply keeps_when; keeps_intro
    | apply keeps_forEach; keeps_intro
    | match goal with |- keeps _ (match ?x with _ => _ end) => destruct x end
    | match goal with |- keeps _ (if ?x then _ else _) => destruct x end ].

(** ** Orders concern the instrument of the operation *)

Section OrdersOfTheInstrument.

Import BreakoutStrategy.

#[export] Instance appendsOnly_refl P : Reflexive (appendsOnly P).
Proof. intros w. exists []. split; [by rewrite app_nil_r | constructor]. Qed.

#[export] Instance appendsOnly_trans P : Transitive (appendsOnly P).
Proof.
  intros w1 w2 w3 (e1 & H1 & P1) (e2 & H2 & P2). exists (e1 ++ e2). split.
  - rewrite H2, H1. by rewrite app_assoc.
  - by apply Forall_app.
Qed.

Variable P : Event -> Prop.

Lemma appendsOnly_silent w w' : journal w' = journal w -> appendsOnly P w w'.
Proof. intros H. exists []. split; [by rewrite app_nil_r | constructor]. Qed.

Lemma keeps_appendsOnly_modifyBot f : keeps (appendsOnly P) (modifyBot f).
Proof. intros w. by apply appendsOnly_silent. Qed.

Lemma keeps_appendsOnly_setDisk f : keeps (appendsOnly P) (setDisk f).
Proof. intros w. by apply appendsOnly_silent. Qed.

Lemma keeps_appendsOnly_nextEffect : keeps (appendsOnly P) nextEffect.
Proof. intros w. by apply appendsOnly_silent. Qed.

Lemma keeps_appendsOnly_emit e : P e -> keeps (appendsOnly P) (emit e).
Proof. intros He w. exists [e]. split; [reflexivity | by constructor]. Qed.

Variable env : Env.

Lemma keeps_appendsOnly_now : keeps (appendsOnly P) (now env).
Proof.
  apply keeps_bind; [typeclasses eauto | apply keeps_appendsOnly_nextEffect |].
  intros n. apply keeps_mret. typeclasses eauto.
Qed.

Lemma keeps_appendsOnly_getPositions : keeps (appendsOnly P) (clientGetPositions env).
Proof.
  apply keeps_bind; [typeclasses eauto | apply keeps_appendsOnly_nextEffect |].
  intros n. apply keeps_liftR. typeclasses eauto.
Qed.

Lemma keeps_appendsOnly_getOpenOrders symbol :
  keeps (appendsOnly P) (clientGetOpenOrders env symbol).
Proof.
  apply keeps_bind; [typeclasses eauto | apply keeps_appendsOnly_nextEffect |].
  intros n. apply keeps_liftR. typeclasses eauto.
Qed.

Lemma keeps_appendsOnly_saveTrailingStops :
  keeps (appendsOnly P) (saveTrailingStops env).
Proof. intros w. rewrite saveTrailingStops_run. by apply appendsOnly_silent. Qed.

Lemma keeps_appendsOnly_addOrder symbol side quantity type price :
  P (OrderPlaced symbol side quantity type price) ->
  keeps (appendsOnly P) (clientAddOrder env symbol side quantity type price).
Proof.
  intros He.
  apply keeps_bind; [typeclasses eauto | apply keeps_appendsOnly_nextEffect |].
  intros n. apply keeps_bind; [typeclasses eauto | apply keeps_liftR; typeclasses eauto |].
  intros orderId.
  apply keeps_bind; [typeclasses eauto | by apply keeps_appendsOnly_emit |].
  intros _. apply keeps_mret. typeclasses eauto.
Qed.

Lemma keeps_appendsOnly_cancelOrder orderId :
  P (OrderCancelled orderId) ->
  keeps (appendsOnly P) (clientCancelOrder env orderId).
Proof.
  intros He.
  apply keeps_bind; [typeclasses eauto | apply keeps_appendsOnly_nextEffect |].
  intros n. apply keeps_bind; [typeclasses eauto | |].
  - apply keeps_when; [typeclasses eauto | by apply keeps_appendsOnly_emit].
  - intros _. apply keeps_mret. typeclasses eauto.
Qed.

End OrdersOfTheInstrument.

#[export] Hint Resolve keeps_appendsOnly_modifyBot keeps_appendsOnly_setDisk
  keeps_appendsOnly_nextEffect keeps_appendsOnly_now keeps_appendsOnly_getPositions
  keeps_appendsOnly_getOpenOrders keeps_appendsOnly_saveTrailingStops : worldframes.


Section EventsOfOperations.

Import BreakoutStrategy.

Variable env : Env.
Variable P : Event -> Prop.

Ltac events_step :=
  first
    [ keeps_step
    | apply keeps_appendsOnly_addOrder; solve [auto]
    | apply keeps_appendsOnly_cancelOrder; solve [auto]
    | apply keeps_appendsOnly_emit; solve [auto] ].

Lemma registerExistingPosition_events symbol side entryPrice quantity :
  (forall id, P (OrderCancelled id)) ->
  (forall price, P (OrderPlaced symbol (oppositeSide side) quantity LIMIT (Some price))) ->
  keeps (appendsOnly P) (registerExistingPosition env symbol side entryPrice quantity).
Proof.
  intros Hcancel Hlimit. unfold registerExistingPosition. cbv zeta.
  repeat events_step.
Qed.

Lemma closePartialPosition_events symbol position profitPercent :
  (forall side quantity, P (OrderPlaced symbol side quantity MARKET None)) ->
  keeps (appendsOnly P) (closePartialPosition env symbol position profitPercent).
Proof.
  intros Hmarket. unfold closePartialPosition. cbv zeta.
  repeat events_step.
Qed.

Lemma forgetPosition_events symbol : keeps (appendsOnly P) (forgetPosition env symbol).
Proof.
  unfold forgetPosition, removePersistedTrailingStop. repeat events_step.
Qed.

Lemma closePosition_events symbol reason :
  (forall id, P (OrderCancelled id)) ->
  (forall side quantity, P (OrderPlaced symbol side quantity MARKET None)) ->
  P (PositionClosed symbol reason) ->
  keeps (appendsOnly P) (closePosition env symbol reason).
Proof.
  intros Hcancel Hmarket Hclosed. unfold closePosition. cbv zeta.
  pose proof (forgetPosition_events symbol).
  repeat events_step.
Qed.

Lemma updateTrailingStops_events symbol :
  (forall id, P (OrderCancelled id)) ->
  (forall side quantity, P (OrderPlaced symbol side quantity MARKET None)) ->
  (forall reason, P (PositionClosed symbol reason)) ->
  keeps (appendsOnly P) (updateTrailingStops env symbol).
Proof.
  intros Hcancel Hmarket Hclosed.
  pose proof (forgetPosition_events symbol).
  assert (Hclose : forall reason, keeps (appendsOnly P) (closePosition env symbol reason)).
  { intros reason. by apply closePosition_events. }
  assert (Hpartial : forall position profitPercent,
             keeps (appendsOnly P) (closePartialPosition env symbol position profitPercent)).
  { intros position profitPercent. by apply closePartialPosition_events. }
  unfold updateTrailingStops, positionGone, monitorPosition, trailStop, checkTakeProfit,
    checkStopHit, checkTakeProfitHit. cbv zeta.
  repeat events_step.
Qed.

Lemma executeSignal_events signal customQuantity :
  (forall id, P (OrderCancelled id)) ->
  (forall side quantity price,
      P (OrderPlaced (Signal.symbol signal) side quantity LIMIT price)) ->
  (forall side quantity price,
      P (OrderPlaced (Signal.symbol signal) side quantity MARKET price)) ->
  keeps (appendsOnly P) (executeSignal env signal customQuantity).
Proof.
  intros Hcancel Hlimit Hmarket.
  assert (Hregister : forall side entryPrice quantity,
             keeps (appendsOnly P)
               (registerExistingPosition env (Signal.symbol signal) side entryPrice quantity)).
  { intros side entryPrice quantity. by apply registerExistingPosition_events. }
  unfold executeSignal. cbv zeta.
  repeat events_step.
Qed.

End EventsOfOperations.

Section OperationsAndTheirOrders.

Import BreakoutStrategy.

(** X13: what an operation sends to the exchange.  Loading history and
    generating a signal send nothing.  [executeSignal] places orders only
    for the instrument of its signal; [registerExistingPosition] places
    nothing but a LIMIT order for its instrument, on the side opposite to
    the position and for its quantity; [updateTrailingStops] places nothing
    but MARKET orders for its instrument and reports closures of that
    instrument only.  Besides, they cancel orders the gateway lists. *)
Theorem operations_place_orders_for_their_instrument env operation w :
  appendsOnly (allowedEvent operation) w (perform env operation w).
Proof.
  destruct operation as [symbol data|symbol|signal customQuantity|symbol
                        |symbol side entryPrice quantity]; cbn [perform].
  - apply appendsOnly_silent. reflexivity.
  - apply appendsOnly_silent.
    destruct (generateSignal_cases env symbol w) as (r & w' & -> & _ & Hj & _). exact Hj.
  - apply (executeSignal_events env); cbn; auto.
  - apply (updateTrailingStops_events env); cbn; auto.
  - apply (registerExistingPosition_events env); cbn; auto.
Qed.

End OperationsAndTheirOrders.


(** ** The trailing-stops file: saving, loading, restarting *)

Section Persistence.

Import BreakoutStrategy.

Lemma persistedState_keys s :
  (persistedState s).*1 = (map_to_list (trailingStops s)).*1.
Proof.
  unfold persistedState.
  induction (map_to_list (trailingStops s)) as [|[symbol value] rest IH];
    [reflexivity|]. cbn. by rewrite IH.
Qed.

Lemma persistedState_readable s : Forall readable (persistedState s).
Proof.
  unfold persistedState. apply Forall_map, Forall_forall.
  intros [symbol value] _. split; cbn; eauto.
Qed.

Lemma persistedState_elem s symbol value :
  trailingStops s !! symbol = Some value ->
  (symbol,
   {| Persisted.high := Some (TrailingStop.high value);
      Persisted.stop := Some (TrailingStop.stop value);
      Persisted.partialProfitTaken := default false (partialProfitTaken s !! symbol) |})
  ∈ persistedState s.
Proof.
  intros Hvalue. apply elem_of_map_to_list in Hvalue.
  unfold persistedState.
  apply (elem_of_map
           (fun '(symbol, value) =>
              (symbol,
               {| Persisted.high := Some (TrailingStop.high value);
                  Persisted.stop := Some (TrailingStop.stop value);
                  Persisted.partialProfitTaken :=
                    default false (partialProfitTaken s !! symbol) |}))
           _ (symbol, value) Hvalue).
Qed.

(** Loading what [saveTrailingStops] writes gives back the trailing stops. *)
Lemma loadEntries_persistedState s s0 :
  trailingStops s0 = ∅ ->
  trailingStops (loadEntries (persistedState s) s0) = trailingStops s.
Proof.
  intros Hempty. apply map_eq. intros symbol.
  destruct (trailingStops s !! symbol) as [value|] eqn:Hvalue.
  - rewrite (loadEntries_present _ _ symbol (TrailingStop.high value)
               (TrailingStop.stop value)
               (default false (partialProfitTaken s !! symbol))).
    + by destruct value.
    + apply persistedState_readable.
    + rewrite persistedState_keys. apply NoDup_fst_map_to_list.
    + by apply persistedState_elem.
  - rewrite loadEntries_absent.
    + by rewrite Hempty.
    + rewrite persistedState_keys. intros Hin.
      apply list_elem_of_fmap in Hin as ([symbol' value] & -> & Hin).
      apply elem_of_map_to_list in Hin. cbn in Hvalue. congruence.
Qed.

Lemma loadEntries_flags state s symbol :
  NoDup state.*1 ->
  partialProfitTaken (loadEntries state s) !! symbol = Some true ->
  partialProfitTaken s !! symbol = Some true
  \/ exists value, (symbol, value) ∈ state /\ Persisted.partialProfitTaken value = true.
Proof.
  revert s. induction state as [|[symbol0 value] state IH]; intros s Hnodup Hflag.
  { by left. }
  cbn in Hnodup. apply NoDup_cons in Hnodup as [_ Hnodup].
  cbn [loadEntries] in Hflag.
  destruct (Persisted.high value), (Persisted.stop value); try by left.
  apply IH in Hflag; [|exact Hnodup].
  destruct Hflag as [Hflag|(value' & Hin & Htaken)].
  - destruct (Persisted.partialProfitTaken value) eqn:Htaken; cbn in Hflag.
    + destruct (decide (symbol = symbol0)) as [->|Hne].
      * right. exists value. split; [left | exact Htaken].
      * rewrite lookup_insert_ne in Hflag by done. by left.
    + by left.
  - right. exists value'. split; [by right | exact Htaken].
Qed.

(** X14: a bot constructed from the file that [saveTrailingStops] writes
    for a state holds exactly the trailing stops of that state, highs
    included, and has the profit-taken flag set only for instruments whose
    flag was set and that have a trailing stop. *)
Theorem saved_trailing_stops_load_back cfg s :
  trailingStops (bot (construct cfg (Contents (persistedState s)))) = trailingStops s
  /\ (forall symbol,
        partialProfitTaken (bot (construct cfg (Contents (persistedState s)))) !! symbol
        = Some true ->
        partialProfitTaken s !! symbol = Some true
        /\ is_Some (trailingStops s !! symbol)).
Proof.
  split.
  - cbn. by apply loadEntries_persistedState.
  - intros symbol Hflag. cbn in Hflag.
    apply loadEntries_flags in Hflag;
      [|rewrite persistedState_keys; apply NoDup_fst_map_to_list].
    destruct Hflag as [Hflag|(value & Hin & Htaken)].
    + cbn in Hflag. by rewrite lookup_empty in Hflag.
    + unfold persistedState in Hin.
      apply elem_of_map_inv in Hin as ([symbol' stop] & Hin & Heq).
      injection Heq as Hsymbol Hvalue. rewrite Hvalue in Htaken. cbn in Htaken.
      rewrite <- Hsymbol in Hin, Htaken.
      apply elem_of_map_to_list in Hin. split; [|eauto].
      destruct (partialProfitTaken s !! symbol) as [[]|]; done.
Qed.

End Persistence.


(** ** A restart recovers the trailing stops held in memory *)

Section Restorable.

Import BreakoutStrategy.

#[export] Instance staysRestorable_refl : Reflexive staysRestorable.
Proof. intros w H. exact H. Qed.

#[export] Instance staysRestorable_trans : Transitive staysRestorable.
Proof. intros w1 w2 w3 H12 H23 H. auto. Qed.

Lemma config_loadEntries state s : config (loadEntries state s) = config s.
Proof.
  revert s. induction state as [|[symbol value] state IH]; intros s; [reflexivity|].
  cbn. destruct (Persisted.high value), (Persisted.stop value); try reflexivity.
  rewrite IH. by destruct (Persisted.partialProfitTaken value).
Qed.

Lemma loadEntries_config_irrelevant state s s' :
  trailingStops s = trailingStops s' ->
  trailingStops (loadEntries state s) = trailingStops (loadEntries state s').
Proof.
  revert s s'. induction state as [|[symbol value] state IH]; intros s s' Hsame; [done|].
  cbn. destruct (Persisted.high value), (Persisted.stop value); try done.
  apply IH. destruct (Persisted.partialProfitTaken value); cbn; by rewrite Hsame.
Qed.

Lemma restorable_construct cfg file : restorable (construct cfg file).
Proof.
  unfold restorable, construct. cbn [bot disk].
  destruct file as [| |state]; try reflexivity.
  cbn. by apply loadEntries_config_irrelevant.
Qed.

Lemma restorable_same w w' :
  disk w' = disk w -> trailingStops (bot w') = trailingStops (bot w) ->
  staysRestorable w w'.
Proof.
  unfold staysRestorable, restorable. intros -> -> <-.
  destruct (disk w) as [| |state]; try reflexivity.
  cbn. by apply loadEntries_config_irrelevant.
Qed.

Lemma keeps_restorable_modifyBot f :
  (forall s, trailingStops (f s) = trailingStops s) ->
  keeps staysRestorable (modifyBot f).
Proof. intros Hf w. apply restorable_same; [reflexivity | apply Hf]. Qed.

Lemma keeps_restorable_nextEffect : keeps staysRestorable nextEffect.
Proof. intros w. by apply restorable_same. Qed.

Lemma keeps_restorable_emit e : keeps staysRestorable (emit e).
Proof. intros w. by apply restorable_same. Qed.

Variable env : Env.

Lemma keeps_restorable_now : keeps staysRestorable (now env).
Proof.
  apply keeps_bind; [typeclasses eauto | apply keeps_restorable_nextEffect |].
  intros n. apply keeps_mret. typeclasses eauto.
Qed.

Lemma keeps_restorable_getPositions : keeps staysRestorable (clientGetPositions env).
Proof.
  apply keeps_bind; [typeclasses eauto | apply keeps_restorable_nextEffect |].
  intros n. apply keeps_liftR. typeclasses eauto.
Qed.

Lemma keeps_restorable_getOpenOrders symbol :
  keeps staysRestorable (clientGetOpenOrders env symbol).
Proof.
  apply keeps_bind; [typeclasses eauto | apply keeps_restorable_nextEffect |].
  intros n. apply keeps_liftR. typeclasses eauto.
Qed.

Lemma keeps_restorable_addOrder symbol side quantity type price :
  keeps staysRestorable (clientAddOrder env symbol side quantity type price).
Proof.
  apply keeps_bind; [typeclasses eauto | apply keeps_restorable_nextEffect |].
  intros n. apply keeps_bind; [typeclasses eauto | apply keeps_liftR; typeclasses eauto |].
  intros orderId.
  apply keeps_bind; [typeclasses eauto | apply keeps_restorable_emit |].
  intros _. apply keeps_mret. typeclasses eauto.
Qed.

Lemma keeps_restorable_cancelOrder orderId :
  keeps staysRestorable (clientCancelOrder env orderId).
Proof.
  apply keeps_bind; [typeclasses eauto | apply keeps_restorable_nextEffect |].
  intros n. apply keeps_bind; [typeclasses eauto | |].
  - apply keeps_when; [typeclasses eauto | apply keeps_restorable_emit].
  - intros _. apply keeps_mret. typeclasses eauto.
Qed.

(** A save leaves the file in step with memory, or fails and leaves both
    as they were. *)
Lemma restorable_after_save w :
  writeFileSync env (effects w) = true -> restorable (saveTrailingStops env w).2.
Proof.
  intros Hwrite. rewrite saveTrailingStops_run. unfold restorable. cbn [snd bot disk].
  rewrite Hwrite. cbn. by apply loadEntries_persistedState.
Qed.

Lemma keeps_restorable_save : keeps staysRestorable (saveTrailingStops env).
Proof.
  intros w. destruct (writeFileSync env (effects w)) eqn:Hwrite.
  - intros _. by apply restorable_after_save.
  - rewrite saveTrailingStops_run, Hwrite. by apply restorable_same.
Qed.

Hypothesis writes_succeed : forall n, writeFileSync env n = true.

Lemma keeps_restorable_stops_then_save f :
  keeps staysRestorable (_ ← modifyBot (withTrailingStops f); saveTrailingStops env).
Proof.
  intros w _. unfold mbind, M_bind, modifyBot.
  apply restorable_after_save. apply writes_succeed.
Qed.

End Restorable.

#[export] Hint Resolve keeps_restorable_nextEffect keeps_restorable_emit
  keeps_restorable_now keeps_restorable_getPositions keeps_restorable_getOpenOrders
  keeps_restorable_addOrder keeps_restorable_cancelOrder keeps_restorable_save
  : worldframes.

Section RestorableOperations.

Import BreakoutStrategy.

Variable env : Env.
Hypothesis writes_succeed : forall n, writeFileSync env n = true.

Ltac restorable_step :=
  lazymatch goal with
  | |- keeps _ (mbind _ (modifyBot (withTrailingStops _))) =>
      first
        [ apply keeps_restorable_stops_then_save; exact writes_succeed
        | apply keeps_pair; try typeclasses eauto;
            [apply keeps_restorable_stops_then_save; exact writes_succeed | intros ?] ]
  | |- keeps _ (modifyBot _) => apply keeps_restorable_modifyBot; intros ?; reflexivity
  | |- _ => keeps_step
  end.

Lemma forgetPosition_restorable symbol :
  keeps staysRestorable (forgetPosition env symbol).
Proof.
  unfold forgetPosition, removePersistedTrailingStop. repeat restorable_step.
Qed.

Lemma closePosition_restorable symbol reason :
  keeps staysRestorable (closePosition env symbol reason).
Proof.
  pose proof (forgetPosition_restorable symbol).
  unfold closePosition. cbv zeta. repeat restorable_step.
Qed.

Lemma closePartialPosition_restorable symbol position profitPercent :
  keeps staysRestorable (closePartialPosition env symbol position profitPercent).
Proof.
  unfold closePartialPosition. cbv zeta. repeat restorable_step.
Qed.

Lemma registerExistingPosition_restorable symbol side entryPrice quantity :
  keeps staysRestorable (registerExistingPosition env symbol side entryPrice quantity).
Proof.
  unfold registerExistingPosition. cbv zeta. repeat restorable_step.
Qed.

Lemma updateTrailingStops_restorable symbol :
  keeps staysRestorable (updateTrailingStops env symbol).
Proof.
  pose proof (forgetPosition_restorable symbol).
  pose proof (closePosition_restorable symbol).
  pose proof (closePartialPosition_restorable symbol).
  unfold updateTrailingStops, positionGone, monitorPosition, trailStop, checkTakeProfit,
    checkStopHit, checkTakeProfitHit. cbv zeta.
  repeat restorable_step.
Qed.

Lemma executeSignal_restorable signal customQuantity :
  keeps staysRestorable (executeSignal env signal customQuantity).
Proof.
  pose proof (registerExistingPosition_restorable (Signal.symbol signal)).
  unfold executeSignal. cbv zeta. repeat restorable_step.
Qed.

Lemma perform_restorable operation w :
  restorable w -> restorable (perform env operation w).
Proof.
  destruct operation as [symbol data|symbol|signal customQuantity|symbol
                        |symbol side entryPrice quantity]; cbn [perform].
  - by apply restorable_same.
  - destruct (generateSignal_cases env symbol w)
      as (r & w' & -> & Hd & _ & _ & _ & _ & Ht & _).
    by apply restorable_same.
  - apply executeSignal_restorable.
  - apply updateTrailingStops_restorable.
  - apply registerExistingPosition_restorable.
Qed.

End RestorableOperations.

Section CrashSafety.

Import BreakoutStrategy.

(** X15: while every write of the trailing-stops file succeeds, after any
    run of the strategy's operations on a freshly constructed bot a restart
    from the file on disk brings back exactly the trailing stops held in
    memory: every change of a stop is written before the operation ends. *)
Theorem restart_recovers_the_trailing_stops cfg file steps :
  (forall env operation n, (env, operation) ∈ steps -> writeFileSync env n = true) ->
  restorable (performAll steps (construct cfg file))
  /\ trailingStops
       (bot (construct (config (bot (performAll steps (construct cfg file))))
                       (disk (performAll steps (construct cfg file)))))
     = trailingStops (bot (performAll steps (construct cfg file))).
Proof.
  intros Hwrites.
  assert (Hrun : forall w, restorable w -> restorable (performAll steps w)).
  { induction steps as [|[env operation] rest IH]; intros w Hw; [exact Hw|].
    cbn [performAll]. apply IH.
    - intros env' operation' n Hin. apply (Hwrites env' operation'). by right.
    - apply perform_restorable; [|exact Hw].
      intros n. apply (Hwrites env operation). left. }
  pose proof (Hrun _ (restorable_construct cfg file)) as Hfinal.
  split; [exact Hfinal | exact Hfinal].
Qed.

End CrashSafety.


(** ** executeSignal: an accepted entry order, and the cases in which none
    is sent *)

Section ExecuteSignal.

Import BreakoutStrategy.

#[local] Existing Instances sameTracking_refl sameTracking_trans.

(** X16: for an instrument without active signal, cooldown entry or
    exchange position, once the gateway accepts the entry order the position
    is tracked: the signal is active, the trailing stop starts at the entry
    price with the signal's stop, the state is written to the file, and the
    journal holds the MARKET entry followed by the LIMIT take-profit order at
    the rounded target when the gateway accepts that one too.  A rejected
    take-profit order changes nothing else. *)
Theorem executeSignal_tracks_the_position env signal customQuantity quantity positions w :
  activeSignals (bot w) !! Signal.symbol signal = None ->
  lossCooldowns (bot w) !! Signal.symbol signal = None ->
  getPositions env (effects w) = Ok positions ->
  findPosition (Signal.symbol signal) positions = None ->
  entryQuantity (bot w) signal customQuantity = Some quantity ->
  isOk (addOrder env (2 + effects w)) = true ->
  (forall n, writeFileSync env n = true) ->
  activeSignals (bot (executeSignal env signal customQuantity w).2)
  = <[Signal.symbol signal := signal]> (activeSignals (bot w))
  /\ trailingStops (bot (executeSignal env signal customQuantity w).2)
     = <[Signal.symbol signal :=
           {| TrailingStop.high := Signal.entryPrice signal;
              TrailingStop.stop := Signal.stopLoss signal |}]> (trailingStops (bot w))
  /\ positionOpenedAt (bot (executeSignal env signal customQuantity w).2)
     = <[Signal.symbol signal := dateNow env (1 + effects w)]> (positionOpenedAt (bot w))
  /\ lossCooldowns (bot (executeSignal env signal customQuantity w).2)
     = lossCooldowns (bot w)
  /\ failedSignalCooldowns (bot (executeSignal env signal customQuantity w).2)
     = failedSignalCooldowns (bot w)
  /\ disk (executeSignal env signal customQuantity w).2
     = Contents (persistedState (bot (executeSignal env signal customQuantity w).2))
  /\ journal (executeSignal env signal customQuantity w).2
     = journal w
       ++ OrderPlaced (Signal.symbol signal) (Signal.side signal) quantity MARKET None
          :: match Signal.takeProfit signal with
             | Some takeProfit =>
                 if isOk (addOrder env (3 + effects w))
                 then [OrderPlaced (Signal.symbol signal)
                         (oppositeSide (Signal.side signal)) quantity LIMIT
                         (Some (roundToIncrement takeProfit (Signal.symbol signal)))]
                 else []
             | None => []
             end.
Proof.
  intros Hfree Hloss Hpositions Hnone Hquantity Hentry Hwrites.
  cbn [Nat.add] in *. unfold entryQuantity in Hquantity.
  unfold executeSignal. run_monad.
  rewrite bool_decide_eq_false_2 by (rewrite Hfree; apply is_Some_None).
  rewrite Hloss. run_monad. rewrite Hpositions. run_monad. rewrite Hnone.
  rewrite Hquantity. run_monad.
  destruct (addOrder env (S (S (effects w)))) as [orderId|]; [|done]. run_monad.
  destruct (Signal.takeProfit signal) as [takeProfit|]; run_monad.
  - destruct (addOrder env (S (S (S (effects w))))) as [tpOrder|]; run_monad;
      rewrite Hwrites; run_monad; repeat split; by rewrite <- app_assoc.
  - rewrite Hwrites. run_monad. repeat split.
Qed.

Lemma cooldown_check_inside env symbol since w :
  lossCooldowns (bot w) !! symbol = Some since -> since <> 0%Z ->
  (dateNow env (effects w) < since + LOSS_COOLDOWN_MS)%Z ->
  (match lossCooldowns (bot w) !! symbol with
   | Some cooldownTimestamp =>
       if truthyZ cooldownTimestamp then
         t ← now env;
         mret (t - cooldownTimestamp <? LOSS_COOLDOWN_MS)%Z
       else mret false
   | None => mret false
   end) w
  = (Ok true, {| bot := bot w; disk := disk w; effects := S (effects w);
                 journal := journal w |}).
Proof.
  intros -> Hnz Hlt. rewrite truthyZ_true by exact Hnz. run_monad.
  destruct (Z.ltb_spec (dateNow env (effects w) - since) LOSS_COOLDOWN_MS); [done | lia].
Qed.

(** The signal [registerExistingPosition] leaves in [activeSignals]. *)
Lemma registerExistingPosition_registers env symbol side entryPrice quantity w :
  exists registered,
    activeSignals (bot (registerExistingPosition env symbol side entryPrice quantity w).2)
      !! symbol = Some registered
    /\ Signal.symbol registered = symbol
    /\ Signal.side registered = side
    /\ Signal.entryPrice registered = entryPrice
    /\ Signal.reason registered = ExistingPositionOnRestart.
Proof.
  unfold registerExistingPosition.
  erewrite bind_run; [|reflexivity].
  erewrite bind_run; [|reflexivity].
  erewrite bind_run; [|reflexivity].
  erewrite bind_run; [|reflexivity].
  cbn [bot disk effects journal].
  assert (Hrest : forall tp : option Decimal,
             preserves sameTracking
               (_ ← tryCatch
                      (existingOrders ← clientGetOpenOrders env symbol;
                       forEach existingOrders
                         (fun order => _ ← clientCancelOrder env (Order.id order); mret tt))
                      (mret tt);
                tryCatch
                  (match tp with
                   | Some takeProfit =>
                       let tpSide := oppositeSide side in
                       let tpPrice := roundToIncrement takeProfit symbol in
                       _ ← clientAddOrder env symbol tpSide quantity LIMIT (Some tpPrice);
                       mret tt
                   | None => mret tt
                   end)
                  (mret tt))).
  { intros tp. repeat frame_step. }
  assert (Ha : forall tp w1, activeSignals (bot (_ w1).2) = activeSignals (bot w1))
    by (intros tp w1; exact (proj2 (Hrest tp w1))).
  clear Hrest. cbv zeta in Ha.
  destruct (trailingStops (bot w) !! symbol) as [persisted|] eqn:Htr.
  - rewrite bind_assoc. erewrite bind_run; [|reflexivity].
    erewrite bind_run; [|reflexivity].
    rewrite Ha. cbn. eexists.
    split; [rewrite lookup_alter_eq, lookup_insert_eq; reflexivity|].
    cbn. done.
  - rewrite bind_assoc. erewrite bind_run; [|reflexivity].
    rewrite bind_assoc.
    erewrite (bind_run (saveTrailingStops env)); [|apply saveTrailingStops_run].
    erewrite bind_run; [|reflexivity].
    rewrite Ha. cbn. eexists.
    split; [apply lookup_insert_eq|]. cbn. done.
Qed.

(** X17: [executeSignal] sends no entry order for an instrument that is
    already tracked (the world is left as it is), that is inside a loss
    cooldown (only the clock is read), or for which the exchange already
    reports a position: that position is registered instead, with its own
    side and entry price, and no MARKET order is placed. *)
Theorem executeSignal_sends_no_entry_order env signal customQuantity w :
  (is_Some (activeSignals (bot w) !! Signal.symbol signal) ->
     executeSignal env signal customQuantity w = (Ok tt, w))
  /\ (activeSignals (bot w) !! Signal.symbol signal = None ->
      inLossCooldown (bot w) (Signal.symbol signal) (dateNow env (effects w)) ->
      bot (executeSignal env signal customQuantity w).2 = bot w
      /\ disk (executeSignal env signal customQuantity w).2 = disk w
      /\ journal (executeSignal env signal customQuantity w).2 = journal w)
  /\ (forall positions position,
        activeSignals (bot w) !! Signal.symbol signal = None ->
        lossCooldowns (bot w) !! Signal.symbol signal = None ->
        getPositions env (effects w) = Ok positions ->
        findPosition (Signal.symbol signal) positions = Some position ->
        appendsOnly
          (fun e => ~ isMarketOrder e) w (executeSignal env signal customQuantity w).2
        /\ exists registered,
            activeSignals (bot (executeSignal env signal customQuantity w).2)
              !! Signal.symbol signal = Some registered
            /\ Signal.side registered = Position.side position
            /\ Signal.entryPrice registered = Position.entryPrice position
            /\ Signal.reason registered = ExistingPositionOnRestart).
Proof.
  split; [|split].
  - intros Hactive. unfold executeSignal. run_monad.
    by rewrite bool_decide_eq_true_2.
  - intros Hfree (since & Hsince & Hnz & Hlt).
    unfold executeSignal. unfold tryCatch.
    erewrite (bind_run getBot); [|reflexivity].
    rewrite bool_decide_eq_false_2 by (rewrite Hfree; apply is_Some_None).
    erewrite bind_run; [|by apply (cooldown_check_inside env _ since)].
    cbn. done.
  - intros positions position Hfree Hloss Hpositions Hfound.
    assert (Hrun : executeSignal env signal customQuantity w
                   = tryCatch
                       (registerExistingPosition env (Signal.symbol signal)
                          (Position.side position) (Position.entryPrice position)
                          (Position.quantity position))
                       (mret tt)
                       {| bot := bot w; disk := disk w; effects := S (effects w);
                          journal := journal w |}).
    { unfold executeSignal. run_monad.
      rewrite bool_decide_eq_false_2 by (rewrite Hfree; apply is_Some_None).
      rewrite Hloss. run_monad. rewrite Hpositions. run_monad. rewrite Hfound.
      reflexivity. }
    rewrite Hrun. set (w0 := {| bot := bot w; disk := disk w |}).
    assert (Hregister : tryCatch
                          (registerExistingPosition env (Signal.symbol signal)
                             (Position.side position) (Position.entryPrice position)
                             (Position.quantity position))
                          (mret tt) w0
                        = (registerExistingPosition env (Signal.symbol signal)
                             (Position.side position) (Position.entryPrice position)
                             (Position.quantity position) w0)
                          \/ exists e,
                               (registerExistingPosition env (Signal.symbol signal)
                                  (Position.side position) (Position.entryPrice position)
                                  (Position.quantity position) w0).1 = Throw e
                               /\ (tryCatch
                                     (registerExistingPosition env (Signal.symbol signal)
                                        (Position.side position)
                                        (Position.entryPrice position)
                                        (Position.quantity position))
                                     (mret tt) w0).2
                                  = (registerExistingPosition env (Signal.symbol signal)
                                       (Position.side position)
                                       (Position.entryPrice position)
                                       (Position.quantity position) w0).2).
    { unfold tryCatch.
      destruct (registerExistingPosition _ _ _ _ _ w0) as [[[]|e] w1]; cbn; eauto. }
    assert (Hworld : (tryCatch
                        (registerExistingPosition env (Signal.symbol signal)
                           (Position.side position) (Position.entryPrice position)
                           (Position.quantity position))
                        (mret tt) w0).2
                     = (registerExistingPosition env (Signal.symbol signal)
                          (Position.side position) (Position.entryPrice position)
                          (Position.quantity position) w0).2).
    { destruct Hregister as [->|(_ & _ & ->)]; reflexivity. }
    rewrite Hworld. split.
    + pose proof (registerExistingPosition_events env (fun e => ~ isMarketOrder e)
                    (Signal.symbol signal) (Position.side position)
                    (Position.entryPrice position) (Position.quantity position)) as Hevents.
      destruct (Hevents ltac:(cbn; tauto) ltac:(cbn; tauto) w0) as (events & Hj & Hall).
      exists events. split; [exact Hj | exact Hall].
    + destruct (registerExistingPosition_registers env (Signal.symbol signal)
                  (Position.side position) (Position.entryPrice position)
                  (Position.quantity position) w0)
        as (registered & Hsig & _ & Hside & Hentry & Hreason).
      exists registered. auto.
Qed.

End ExecuteSignal.


(** ** Closing is all or nothing *)

Section ClosingIsAtomic.

Import BreakoutStrategy.

Variable env : Env.

Lemma cancelledOnly_bot w w1 : cancelledOnly w w1 -> bot w1 = bot w /\ disk w1 = disk w.
Proof. intros (Hb & Hd & _). by split. Qed.

(** X18: [closePosition] never throws and either forgets the instrument
    completely (active signal, trailing stop, profit flag, opening time and
    last check are all removed) or, when the gateway fails to list the
    positions or rejects the closing order, leaves the whole state of the bot
    and the file as they were, so that the position stays tracked and the
    next tick tries again; it never forgets a position whose closing order
    was rejected. *)
Theorem closePosition_is_all_or_nothing symbol reason w :
  (closePosition env symbol reason w).1 = Ok tt
  /\ ((bot (closePosition env symbol reason w).2 = bot w
       /\ disk (closePosition env symbol reason w).2 = disk w)
      \/ forgotten (bot (closePosition env symbol reason w).2) symbol)
  /\ (forall signal,
        activeSignals (bot w) !! symbol = Some signal ->
        (forall i, exists positions position,
            getPositions env i = Ok positions
            /\ findPosition symbol positions = Some position) ->
        (forall i, isOk (addOrder env i) = false) ->
        bot (closePosition env symbol reason w).2 = bot w
        /\ disk (closePosition env symbol reason w).2 = disk w).
Proof.
  destruct (activeSignals (bot w) !! symbol) as [signal|] eqn:Hsignal.
  2:{ rewrite closePosition_untracked by exact Hsignal. cbn.
      split; [reflexivity|]. split; [by left | done]. }
  destruct (closePosition_unfold env symbol reason signal w Hsignal)
    as (w1 & Hcancelled & ->).
  apply cancelledOnly_bot in Hcancelled as [Hbot Hdisk].
  unfold forgetPosition. run_monad.
  destruct (getPositions env (effects w1)) as [positions|] eqn:Hpositions; run_monad.
  2:{ split; [reflexivity|]. split; [by left|].
      intros ? _ Hlisted _.
      destruct (Hlisted (effects w1)) as (? & ? & Hok & _). congruence. }
  destruct (findPosition symbol positions) as [position|] eqn:Hfound; run_monad.
  - destruct (addOrder env (S (effects w1))) as [orderId|] eqn:Horder; run_monad.
    + split; [by destruct (String.eqb reason _); run_monad;
                destruct (writeFileSync env _)|].
      split.
      * right. destruct (String.eqb reason _); run_monad;
          destruct (writeFileSync env _); run_monad;
          repeat split; apply lookup_delete_eq.
      * intros ? _ _ Hrejected. specialize (Hrejected (S (effects w1))).
        rewrite Horder in Hrejected. done.
    + split; [reflexivity|]. split; [by left | done].
  - split; [by destruct (String.eqb reason _); run_monad;
              destruct (writeFileSync env _)|].
    split.
    + right. destruct (String.eqb reason _); run_monad;
        destruct (writeFileSync env _); run_monad;
        repeat split; apply lookup_delete_eq.
    + intros ? _ Hlisted _.
      destruct (Hlisted (effects w1)) as (? & ? & Hok & Hsome).
      rewrite Hpositions in Hok. injection Hok as <-. congruence.
Qed.

End ClosingIsAtomic.

(** ** A failing gateway during monitoring *)

Section MonitoringFailures.

Import BreakoutStrategy.

(** X19: when the gateway fails to list the positions, a monitoring tick
    changes nothing: no stop moves, no position is dropped, and the time of
    the last successful check is not refreshed.  The same holds when the
    position has vanished but the open orders cannot be listed: the
    instrument stays tracked and no cooldown starts. *)
Theorem updateTrailingStops_survives_gateway_failure env symbol w :
  (isOk (getPositions env (effects w)) = false ->
     (updateTrailingStops env symbol w).1 = Ok tt
     /\ bot (updateTrailingStops env symbol w).2 = bot w
     /\ disk (updateTrailingStops env symbol w).2 = disk w
     /\ journal (updateTrailingStops env symbol w).2 = journal w)
  /\ (forall positions,
        getPositions env (effects w) = Ok positions ->
        findPosition symbol positions = None ->
        isOk (getOpenOrders env (1 + effects w)) = false ->
        (updateTrailingStops env symbol w).1 = Ok tt
        /\ bot (updateTrailingStops env symbol w).2 = bot w
        /\ disk (updateTrailingStops env symbol w).2 = disk w
        /\ journal (updateTrailingStops env symbol w).2 = journal w).
Proof.
  split.
  - intros Hfail. unfold updateTrailingStops. run_monad.
    destruct (trailingStops (bot w) !! symbol); [|done].
    destruct (activeSignals (bot w) !! symbol); [|done].
    run_monad. destruct (getPositions env (effects w)); done.
  - intros positions Hpositions Hgone Hfail. cbn [Nat.add] in Hfail.
    unfold updateTrailingStops. run_monad.
    destruct (trailingStops (bot w) !! symbol); [|done].
    destruct (activeSignals (bot w) !! symbol); [|done].
    run_monad. rewrite Hpositions. run_monad. rewrite Hgone.
    unfold positionGone. run_monad.
    destruct (getOpenOrders env (S (effects w))); done.
Qed.

End MonitoringFailures.


(** ** Taking profit *)

Section TakingProfit.

Import BreakoutStrategy.

Lemma close_percent : Dec.Fin (Qred (TAKE_PROFIT_CLOSE_PERCENT / 100)) = Dec.Fin 1.
Proof. reflexivity. Qed.

Lemma closePartialPosition_accepted env symbol position profitPercent orderId w :
  Dec.lessThanOrEqualTo (Dec.times (Position.quantity position) (Dec.Fin 1)) (Dec.Fin 0)
  = false ->
  addOrder env (effects w) = Ok orderId ->
  closePartialPosition env symbol position profitPercent w
  = (Ok tt,
     {| bot := withPartialProfitTaken (insert symbol true) (bot w);
        disk := if writeFileSync env (S (effects w))
                then Contents (persistedState
                                 (withPartialProfitTaken (insert symbol true) (bot w)))
                else disk w;
        effects := S (S (effects w));
        journal := journal w
                   ++ [OrderPlaced symbol (oppositeSide (Position.side position))
                         (Dec.times (Position.quantity position) (Dec.Fin 1))
                         MARKET None] |}).
Proof.
  intros Hquantity Horder. unfold closePartialPosition. rewrite close_percent.
  cbv zeta. rewrite Hquantity. run_monad. rewrite Horder. run_monad.
  destruct (writeFileSync env (S (effects w))); reflexivity.
Qed.

(** X20: the take-profit exit closes the whole position at market and sets
    the profit-taken flag only once the gateway has accepted the order; a
    rejected order leaves the bot, the file and the journal as they were, so
    the exit is tried again on the next tick; a position of no positive
    quantity is not closed at all. *)
Theorem closePartialPosition_flags_only_accepted_exits
    env symbol position profitPercent w :
  (Dec.lessThanOrEqualTo (Dec.times (Position.quantity position) (Dec.Fin 1)) (Dec.Fin 0)
   = true ->
     closePartialPosition env symbol position profitPercent w = (Ok tt, w))
  /\ (Dec.lessThanOrEqualTo (Dec.times (Position.quantity position) (Dec.Fin 1))
        (Dec.Fin 0) = false ->
      isOk (addOrder env (effects w)) = false ->
      (closePartialPosition env symbol position profitPercent w).1 = Ok tt
      /\ bot (closePartialPosition env symbol position profitPercent w).2 = bot w
      /\ disk (closePartialPosition env symbol position profitPercent w).2 = disk w
      /\ journal (closePartialPosition env symbol position profitPercent w).2 = journal w)
  /\ (Dec.lessThanOrEqualTo (Dec.times (Position.quantity position) (Dec.Fin 1))
        (Dec.Fin 0) = false ->
      isOk (addOrder env (effects w)) = true ->
      partialProfitTaken (bot (closePartialPosition env symbol position profitPercent w).2)
      = <[symbol := true]> (partialProfitTaken (bot w))
      /\ activeSignals (bot (closePartialPosition env symbol position profitPercent w).2)
         = activeSignals (bot w)
      /\ trailingStops (bot (closePartialPosition env symbol position profitPercent w).2)
         = trailingStops (bot w)
      /\ journal (closePartialPosition env symbol position profitPercent w).2
         = journal w
           ++ [OrderPlaced symbol (oppositeSide (Position.side position))
                 (Dec.times (Position.quantity position) (Dec.Fin 1)) MARKET None]
      /\ (writeFileSync env (1 + effects w) = true ->
          disk (closePartialPosition env symbol position profitPercent w).2
          = Contents
              (persistedState
                 (bot (closePartialPosition env symbol position profitPercent w).2)))).
Proof.
  split; [|split].
  - intros Hquantity. unfold closePartialPosition. rewrite close_percent.
    cbv zeta. rewrite Hquantity. reflexivity.
  - intros Hquantity Hrejected. unfold closePartialPosition. rewrite close_percent.
    cbv zeta. rewrite Hquantity. run_monad.
    destruct (addOrder env (effects w)); done.
  - intros Hquantity Haccepted.
    destruct (addOrder env (effects w)) as [orderId|] eqn:Horder; [|done].
    rewrite (closePartialPosition_accepted env symbol position profitPercent orderId w
               Hquantity Horder).
    cbn. repeat split. intros ->. reflexivity.
Qed.



End TakingProfit.


(** ** The health check of the trailing stops *)

Section HealthCheck.

Import BreakoutStrategy.

Lemma checkSymbolHealth_cases now s flag alerts symbol :
  (unprotected now s symbol = true
   /\ checkSymbolHealth now s (flag, alerts) symbol
      = (true, if flag then alerts
               else alerts ++ [match lastTrailingStopCheck s !! symbol with
                               | Some lastCheck =>
                                   if truthyZ lastCheck
                                   then ChecksFailed symbol
                                          ((now - lastCheck + 30000) / 60000)%Z
                                   else NeverChecked symbol
                               | None => NeverChecked symbol
                               end]))
  \/ (unprotected now s symbol = false
      /\ recentlyChecked now s symbol = true
      /\ checkSymbolHealth now s (flag, alerts) symbol = (false, alerts))
  \/ (unprotected now s symbol = false
      /\ recentlyChecked now s symbol = false
      /\ checkSymbolHealth now s (flag, alerts) symbol = (flag, alerts)).
Proof.
  unfold checkSymbolHealth, unprotected, recentlyChecked.
  destruct (lastTrailingStopCheck s !! symbol) as [lastCheck|].
  - destruct (truthyZ lastCheck).
    + destruct (STALE_THRESHOLD_MS <? now - lastCheck)%Z.
      * left. split; [reflexivity|]. by destruct flag.
      * right. left. done.
    + destruct (positionOpenedAt s !! symbol) as [openedAt|].
      * destruct (truthyZ openedAt && _).
        -- right. right. done.
        -- left. split; [reflexivity|]. by destruct flag.
      * left. split; [reflexivity|]. by destruct flag.
  - destruct (positionOpenedAt s !! symbol) as [openedAt|].
    + destruct (truthyZ openedAt && _).
      * right. right. done.
      * left. split; [reflexivity|]. by destruct flag.
    + left. split; [reflexivity|]. by destruct flag.
Qed.

Lemma health_fold now s entries flag alerts :
  let result := fold_left (checkSymbolHealth now s) entries (flag, alerts) in
  (exists raised,
      result.2 = alerts ++ raised
      /\ Forall (fun alert => alertSymbol alert ∈ entries
                              /\ unprotected now s (alertSymbol alert) = true) raised
      /\ (flag = false ->
          (exists symbol, symbol ∈ entries /\ unprotected now s symbol = true) ->
          raised <> [])
      /\ (flag = true ->
          Forall (fun symbol => recentlyChecked now s symbol = false) entries ->
          raised = [] /\ result.1 = true))
  /\ (forall earlier symbol,
        entries = earlier ++ [symbol] ->
        recentlyChecked now s symbol = true -> result.1 = false).
Proof.
  cbv zeta. revert flag alerts.
  induction entries as [|symbol entries IH]; intros flag alerts.
  - cbn. split.
    + exists []. split; [by rewrite app_nil_r|]. split; [constructor|]. split.
      * intros _ (symbol & Hin & _). by apply elem_of_nil in Hin.
      * done.
    + intros earlier symbol Heq. by destruct earlier.
  - cbn [fold_left].
    destruct (checkSymbolHealth_cases now s flag alerts symbol)
      as [(Hbad & ->)|[(Hgood & Hrecent & ->)|(Hgood & Hrecent & ->)]].
    + destruct (IH true (if flag then alerts
                         else alerts ++ [match lastTrailingStopCheck s !! symbol with
                                         | Some lastCheck =>
                                             if truthyZ lastCheck
                                             then ChecksFailed symbol
                                                    ((now - lastCheck + 30000) / 60000)%Z
                                             else NeverChecked symbol
                                         | None => NeverChecked symbol
                                         end]))
        as ((raised & Hraised & Hsound & _ & Hquiet) & Hlast).
      split.
      * destruct flag.
        -- exists raised. split; [exact Hraised|]. split.
           { eapply Forall_impl; [exact Hsound|]. intros alert [? ?]. split; [by right | done]. }
           split; [done|]. intros _ Hnone.
           apply Forall_cons in Hnone as [_ Hnone]. by apply Hquiet.
        -- eexists (_ :: raised). split.
           { rewrite Hraised, <- app_assoc. reflexivity. }
           split.
           { constructor.
             - assert (Hname : alertSymbol
                                 match lastTrailingStopCheck s !! symbol with
                                 | Some lastCheck =>
                                     if truthyZ lastCheck
                                     then ChecksFailed symbol
                                            ((now - lastCheck + 30000) / 60000)%Z
                                     else NeverChecked symbol
                                 | None => NeverChecked symbol
                                 end = symbol).
               { destruct (lastTrailingStopCheck s !! symbol) as [lastCheck|];
                   [destruct (truthyZ lastCheck)|]; reflexivity. }
               rewrite Hname. split; [left | exact Hbad].
             - eapply Forall_impl; [exact Hsound|].
               intros alert [? ?]. split; [by right | done]. }
           split; [done | done].
      * intros earlier last Heq Hrecent.
        destruct earlier as [|first earlier]; cbn in Heq.
        -- injection Heq as Hs He. subst last. unfold unprotected, recentlyChecked in *.
           destruct (lastTrailingStopCheck s !! symbol) as [lastCheck|]; [|done].
           destruct (truthyZ lastCheck); [|done].
           destruct (STALE_THRESHOLD_MS <? now - lastCheck)%Z; done.
        -- injection Heq as _ ->. by apply (Hlast earlier last).
    + destruct (IH false alerts) as ((raised & Hraised & Hsound & Hloud & _) & Hlast).
      split.
      * exists raised. split; [exact Hraised|]. split.
        { eapply Forall_impl; [exact Hsound|]. intros alert [? ?]. split; [by right | done]. }
        split.
        -- intros _ (bad & Hin & Hbad). apply Hloud; [reflexivity|].
           apply elem_of_cons in Hin as [->|Hin]; [congruence|]. eauto.
        -- intros _ Hnone. apply Forall_cons in Hnone as [Hnone _]. congruence.
      * intros earlier last Heq Hrecent'.
        destruct earlier as [|first earlier]; cbn in Heq.
        -- injection Heq as Hs He. subst entries. reflexivity.
        -- injection Heq as _ ->. by apply (Hlast earlier last).
    + destruct (IH flag alerts) as ((raised & Hraised & Hsound & Hloud & Hquiet) & Hlast).
      split.
      * exists raised. split; [exact Hraised|]. split.
        { eapply Forall_impl; [exact Hsound|]. intros alert [? ?]. split; [by right | done]. }
        split.
        -- intros Hflag (bad & Hin & Hbad). apply Hloud; [exact Hflag|].
           apply elem_of_cons in Hin as [->|Hin]; [congruence|]. eauto.
        -- intros Hflag Hnone. apply Forall_cons in Hnone as [_ Hnone]. by apply Hquiet.
      * intros earlier last Heq Hrecent'.
        destruct earlier as [|first earlier]; cbn in Heq.
        -- injection Heq as Hs He. subst last. congruence.
        -- injection Heq as _ ->. by apply (Hlast earlier last).
Qed.

(** X22: the health check reads the clock once and changes nothing.  Every
    alert it raises names an instrument of the loop that is unprotected at
    that time (last check more than a minute old, or never checked and past
    the 30 s grace period).  With the alert flag down, an unprotected
    instrument makes it raise at least one alert; with the flag up and no
    instrument checked within the last minute it stays silent and keeps the
    flag up.  An instrument checked within the last minute that comes last
    in the loop leaves the flag down, so alerts raised before it in the same
    round are raised again by the next call. *)
Theorem checkTrailingStopHealth_alerts env entries flag w :
  exists newFlag raised,
    checkTrailingStopHealth env entries flag w
    = (Ok (newFlag, raised),
       {| bot := bot w; disk := disk w; effects := S (effects w);
          journal := journal w |})
    /\ Forall (fun alert =>
                 alertSymbol alert ∈ entries
                 /\ unprotected (dateNow env (effects w)) (bot w) (alertSymbol alert) = true)
              raised
    /\ (flag = false ->
        (exists symbol,
            symbol ∈ entries
            /\ unprotected (dateNow env (effects w)) (bot w) symbol = true) ->
        raised <> [])
    /\ (flag = true ->
        Forall (fun symbol =>
                  recentlyChecked (dateNow env (effects w)) (bot w) symbol = false)
               entries ->
        raised = [] /\ newFlag = true)
    /\ (forall earlier symbol,
          entries = earlier ++ [symbol] ->
          recentlyChecked (dateNow env (effects w)) (bot w) symbol = true ->
          newFlag = false).
Proof.
  unfold checkTrailingStopHealth. run_monad.
  destruct (health_fold (dateNow env (effects w)) (bot w) entries flag [])
    as ((raised & Hraised & Hsound & Hloud & Hquiet) & Hlast).
  cbv zeta in *. cbn [app] in Hraised.
  destruct (fold_left _ entries (flag, [])) as [newFlag alerts] eqn:Hfold.
  cbn [fst snd] in *. subst alerts.
  exists newFlag, raised. split; [reflexivity|]. auto.
Qed.

End HealthCheck.


(** ** updatePriceHistory and clearHistory *)

Section PriceHistory.

Import BreakoutStrategy.

(** X23: [updatePriceHistory] never throws.  When the market data cannot
    be had, the bot is left as it is.  Otherwise the candle made of the 24 h
    high and low, the last price and the 24 h volume is appended and the
    history is cut to its most recent [2 * lookbackPeriod] entries; other
    instruments are not touched.  With a look-back period below 100 the
    history then has fewer than 200 candles, and the next call of the signal
    generator for that instrument answers [null]. *)
Theorem updatePriceHistory_caps_the_history getMarketData lookbackPeriod symbol w :
  (updatePriceHistory getMarketData lookbackPeriod symbol w).1 = Ok tt
  /\ (isOk (getMarketData (effects w)) = false ->
      bot (updatePriceHistory getMarketData lookbackPeriod symbol w).2 = bot w)
  /\ (forall marketData,
        getMarketData (effects w) = Ok marketData ->
        exists history,
          priceHistory (bot (updatePriceHistory getMarketData lookbackPeriod symbol w).2)
          = <[symbol := history]> (priceHistory (bot w))
          /\ (exists dropped,
                default [] (priceHistory (bot w) !! symbol) ++ [candleOf marketData]
                = dropped ++ history)
          /\ length history
             = Nat.min (length (default [] (priceHistory (bot w) !! symbol)) + 1)
                       (lookbackPeriod * 2)
          /\ activeSignals (bot (updatePriceHistory getMarketData lookbackPeriod symbol w).2)
             = activeSignals (bot w)
          /\ trailingStops (bot (updatePriceHistory getMarketData lookbackPeriod symbol w).2)
             = trailingStops (bot w)
          /\ ((lookbackPeriod < 100)%nat ->
              forall env,
                (generateSignal env symbol
                   (updatePriceHistory getMarketData lookbackPeriod symbol w).2).1
                = Ok None)).
Proof.
  unfold updatePriceHistory. run_monad.
  destruct (getMarketData (effects w)) as [marketData|] eqn:Hdata; run_monad.
  2:{ split; [reflexivity|]. split; [done|]. intros ? [=]. }
  split; [reflexivity|]. split; [done|]. intros ? [= <-].
  fold (candleOf marketData).
  set (old := default [] (priceHistory (bot w) !! symbol)).
  set (grown := old ++ [candleOf marketData]).
  eexists. split; [reflexivity|].
  assert (Hgrown : length grown = (length old + 1)%nat).
  { unfold grown. rewrite length_app. reflexivity. }
  split; [|split; [|split; [reflexivity|split; [reflexivity|]]]].
  - destruct (Nat.ltb_spec (lookbackPeriod * 2) (length grown)).
    + exists (take (length grown - lookbackPeriod * 2) grown). by rewrite take_drop.
    + by exists [].
  - destruct (Nat.ltb_spec (lookbackPeriod * 2) (length grown)).
    + rewrite length_drop. lia.
    + lia.
  - intros Hlookback env. unfold generateSignal. run_binds.
    cbn [priceHistory withPriceHistory bot]. rewrite lookup_insert_eq.
    match goal with |- context [(length ?h <? 200)%nat] =>
      assert (Hshort : (length h < 200)%nat) end.
    { destruct (Nat.ltb_spec (lookbackPeriod * 2) (length grown)).
      - rewrite length_drop. lia.
      - lia. }
    apply Nat.ltb_lt in Hshort. rewrite Hshort. reflexivity.
Qed.

(** X24: [clearHistory] forgets every price history, active signal and
    trailing stop without sending anything to the exchange and without
    touching the file, the cooldowns and the profit flags.  Afterwards the
    generator answers [null] for every instrument and a monitoring tick does
    nothing, not even ask the gateway, while the file still describes the
    stops that were held. *)
Theorem clearHistory_forgets_in_memory_only w :
  (clearHistory w).1 = Ok tt
  /\ disk (clearHistory w).2 = disk w
  /\ journal (clearHistory w).2 = journal w
  /\ effects (clearHistory w).2 = effects w
  /\ lossCooldowns (bot (clearHistory w).2) = lossCooldowns (bot w)
  /\ failedSignalCooldowns (bot (clearHistory w).2) = failedSignalCooldowns (bot w)
  /\ partialProfitTaken (bot (clearHistory w).2) = partialProfitTaken (bot w)
  /\ (forall symbol,
        priceHistory (bot (clearHistory w).2) !! symbol = None
        /\ activeSignals (bot (clearHistory w).2) !! symbol = None
        /\ trailingStops (bot (clearHistory w).2) !! symbol = None)
  /\ (forall env symbol,
        generateSignal env symbol (clearHistory w).2 = (Ok None, (clearHistory w).2)
        /\ updateTrailingStops env symbol (clearHistory w).2
           = (Ok tt, (clearHistory w).2)).
Proof.
  unfold clearHistory. run_monad. repeat (split; [reflexivity|]). split.
  - intros symbol. rewrite !lookup_empty. done.
  - intros env symbol. split.
    + unfold generateSignal. run_binds. cbn. rewrite lookup_empty. reflexivity.
    + unfold updateTrailingStops. run_binds. cbn. rewrite lookup_empty. reflexivity.
Qed.

End PriceHistory.


(** ** The exchange client *)

Section Reconnection.

Import EnclaveClient.

Lemma reconnect_cases (reconnectAttempts : nat) :
  ((maxReconnectAttempts <= reconnectAttempts)%nat
   /\ reconnect reconnectAttempts = (reconnectAttempts, None))
  \/ ((reconnectAttempts < maxReconnectAttempts)%nat
      /\ exists delay,
          reconnect reconnectAttempts = (S reconnectAttempts, Some delay)
          /\ delay = Z.min (1000 * 2 ^ Z.of_nat (S reconnectAttempts)) 30000
          /\ (2000 <= delay <= 30000)%Z
          /\ ((4 <= reconnectAttempts)%nat -> delay = 30000%Z)).
Proof.
  unfold reconnect.
  destruct (Nat.leb_spec maxReconnectAttempts reconnectAttempts); [by left|].
  right. split; [done|]. eexists. split; [reflexivity|]. split; [reflexivity|].
  assert (Hpow : (2 <= 2 ^ Z.of_nat (S reconnectAttempts))%Z).
  { rewrite Nat2Z.inj_succ, Z.pow_succ_r by lia.
    pose proof (Z.pow_pos_nonneg 2 (Z.of_nat reconnectAttempts)). lia. }
  split; [lia|]. intros Hmany.
  assert (Hbig : (2 ^ 5 <= 2 ^ Z.of_nat (S reconnectAttempts))%Z).
  { apply Z.pow_le_mono_r; lia. }
  change (2 ^ 5)%Z with 32%Z in Hbig. lia.
Qed.

Lemma socketRun_bounds events reconnectAttempts :
  (reconnectAttempts <= maxReconnectAttempts)%nat ->
  ((socketRun events reconnectAttempts).1 <= maxReconnectAttempts)%nat
  /\ Forall (fun delay => (2000 <= delay <= 30000)%Z) (socketRun events reconnectAttempts).2.
Proof.
  revert reconnectAttempts.
  induction events as [|event events IH]; intros attempts Hle; [by split; [|constructor]|].
  cbn [socketRun].
  destruct event; cbn [onSocketEvent].
  - destruct (IH 0%nat) as [Hfinal Htimers]; [unfold maxReconnectAttempts; lia|].
    destruct (socketRun events 0) as [final timers]. by split.
  - destruct (reconnect_cases attempts) as [[_ ->]|(Hlt & delay & -> & _ & Hdelay & _)].
    + destruct (IH attempts Hle) as [Hfinal Htimers].
      destruct (socketRun events attempts) as [final timers]. by split.
    + destruct (IH (S attempts)) as [Hfinal Htimers]; [lia|].
      destruct (socketRun events (S attempts)) as [final timers].
      split; [done | by constructor].
Qed.

Lemma socketRun_closes (closes reconnectAttempts : nat) :
  (reconnectAttempts <= maxReconnectAttempts)%nat ->
  length (socketRun (repeat SocketClose closes) reconnectAttempts).2
  = Nat.min closes (maxReconnectAttempts - reconnectAttempts)
  /\ (socketRun (repeat SocketClose closes) reconnectAttempts).1
     = Nat.min (reconnectAttempts + closes) maxReconnectAttempts.
Proof.
  revert reconnectAttempts.
  induction closes as [|closes IH]; intros attempts Hle.
  - cbn. lia.
  - cbn [repeat socketRun onSocketEvent].
    destruct (reconnect_cases attempts) as [[Hmax ->]|(Hlt & delay & -> & _)].
    + destruct (IH attempts Hle) as [Hcount Hfinal].
      destruct (socketRun (repeat SocketClose closes) attempts) as [final timers].
      cbn [fst snd] in *. lia.
    + destruct (IH (S attempts)) as [Hcount Hfinal]; [lia|].
      destruct (socketRun (repeat SocketClose closes) (S attempts)) as [final timers].
      cbn [fst snd length] in *. lia.
Qed.

(** X25: reconnection backs off and gives up.  Each ['close'] of the
    socket sets one timer whose delay doubles from 2 s (never 1 s) and is
    capped at 30 s from the fifth attempt on; the counter never exceeds 100,
    and once it has reached 100 without an ['open'] in between a further
    ['close'] sets no timer: of any number of consecutive closes only
    [100 - reconnectAttempts] are answered. *)
Theorem reconnection_backs_off_and_gives_up :
  (forall events reconnectAttempts,
      (reconnectAttempts <= maxReconnectAttempts)%nat ->
      ((socketRun events reconnectAttempts).1 <= maxReconnectAttempts)%nat
      /\ Forall (fun delay => (2000 <= delay <= 30000)%Z)
                (socketRun events reconnectAttempts).2)
  /\ (forall closes reconnectAttempts,
        (reconnectAttempts <= maxReconnectAttempts)%nat ->
        length (socketRun (repeat SocketClose closes) reconnectAttempts).2
        = Nat.min closes (maxReconnectAttempts - reconnectAttempts)
        /\ (socketRun (repeat SocketClose closes) reconnectAttempts).1
           = Nat.min (reconnectAttempts + closes) maxReconnectAttempts)
  /\ (forall reconnectAttempts,
        (maxReconnectAttempts <= reconnectAttempts)%nat ->
        reconnect reconnectAttempts = (reconnectAttempts, None))
  /\ (forall reconnectAttempts,
        (4 <= reconnectAttempts < maxReconnectAttempts)%nat ->
        reconnect reconnectAttempts = (S reconnectAttempts, Some 30000%Z))
  /\ socketRun (repeat SocketClose 6) 0 = (6%nat, [2000; 4000; 8000; 16000; 30000; 30000]%Z)
  /\ (forall reconnectAttempts, onSocketEvent reconnectAttempts SocketOpen = (0%nat, None)).
Proof.
  split; [exact socketRun_bounds|]. split; [exact socketRun_closes|].
  split; [|split; [|split; [reflexivity | reflexivity]]].
  - intros attempts Hmax.
    destruct (reconnect_cases attempts) as [[_ ->]|(Hlt & _)]; [reflexivity | lia].
  - intros attempts [Hmany Hlt].
    destruct (reconnect_cases attempts) as [[Hmax _]|(_ & delay & -> & _ & _ & Hcap)];
      [lia|]. by rewrite Hcap.
Qed.

End Reconnection.


Section OpenOrders.

Import EnclaveClient.

Lemma mapOrderStatus_open status :
  (mapOrderStatus status).1 = OPEN -> isOneOf (normalizeStatus status) statusOpen = true.
Proof.
  unfold mapOrderStatus.
  destruct (isOneOf _ statusOpen); [done|].
  destruct (isOneOf _ statusFilled); [done|].
  destruct (isOneOf _ statusPartiallyFilled); [done|].
  destruct (isOneOf _ statusCancelled); [done|].
  destruct (isOneOf _ statusRejected); done.
Qed.

Lemma mapOrderStatus_partial status :
  (mapOrderStatus status).1 = PARTIALLY_FILLED ->
  isOneOf (normalizeStatus status) statusPartiallyFilled = true.
Proof.
  unfold mapOrderStatus.
  destruct (isOneOf _ statusOpen); [done|].
  destruct (isOneOf _ statusFilled); [done|].
  destruct (isOneOf _ statusPartiallyFilled); [done|].
  destruct (isOneOf _ statusCancelled); [done|].
  destruct (isOneOf _ statusRejected); done.
Qed.

Lemma mapOrderStatus_never_pending status : (mapOrderStatus status).1 <> PENDING.
Proof.
  unfold mapOrderStatus.
  destruct (isOneOf _ statusOpen); [done|].
  destruct (isOneOf _ statusFilled); [done|].
  destruct (isOneOf _ statusPartiallyFilled); [done|].
  destruct (isOneOf _ statusCancelled); [done|].
  destruct (isOneOf _ statusRejected); done.
Qed.

Lemma parseOrder_status data order :
  parseOrder data = Ok order ->
  Parsed.status order = (mapOrderStatus (RawOrder.status data)).1
  /\ Parsed.symbol order = RawOrder.market data
  /\ Parsed.id order = RawOrder.orderId data.
Proof.
  unfold parseOrder.
  destruct (optionalDecimal (RawOrder.price data)); [|done].
  cbn [mbind Result_bind].
  destruct (RawOrder.size data) as [[size|]|]; try done;
    cbn [mbind Result_bind];
    (destruct (optionalDecimal (RawOrder.filledSize data)); [|done]);
    cbn [mbind Result_bind];
    (destruct (optionalDecimal (RawOrder.averagePrice data)); [|done]);
    cbn [mbind Result_bind]; intros [= <-]; done.
Qed.

Lemma mapR_throws {A B} (f : A -> Result B) (xs : list A) (x : A) :
  x ∈ xs -> isOk (f x) = false -> isOk (mapR f xs) = false.
Proof.
  induction 1 as [x xs|x y xs Hin IH]; intros Hthrow; cbn [mapR].
  - destruct (f x); done.
  - destruct (f y); [|done]. cbn [mbind Result_bind].
    specialize (IH Hthrow). destruct (mapR f xs); done.
Qed.

(** X26: [getOpenOrders] passes on a failed request and answers the empty
    list when the gateway does not report success.  Every order it returns
    comes from an element of the answer whose status, lower-cased, is one of
    open, new, pending, partiallyfilled, partially_filled or partial, and is
    for the requested instrument when one is given; its status is OPEN or
    PARTIALLY_FILLED, never PENDING.  An order with an unrecognised status
    is therefore never returned as open.  A single element with a malformed
    number makes the whole call throw. *)
Theorem getOpenOrders_returns_open_orders_only response symbol :
  (forall e, response = Throw e -> getOpenOrders response symbol = Throw e)
  /\ (response = Ok None -> getOpenOrders response symbol = Ok [])
  /\ (forall result orders order,
        response = Ok (Some result) ->
        getOpenOrders response symbol = Ok orders ->
        order ∈ orders ->
        (Parsed.status order = OPEN \/ Parsed.status order = PARTIALLY_FILLED)
        /\ (forall requested, symbol = Some requested -> requested <> "" ->
              Parsed.symbol order = requested)
        /\ exists data,
            data ∈ result
            /\ parseOrder data = Ok order
            /\ isOneOf (normalizeStatus (RawOrder.status data))
                 (statusOpen ++ statusPartiallyFilled) = true
            /\ recognisedStatus (normalizeStatus (RawOrder.status data)) = true)
  /\ (forall result data,
        response = Ok (Some result) ->
        data ∈ result ->
        isOk (parseOrder data) = false ->
        isOk (getOpenOrders response symbol) = false).
Proof.
  split; [|split; [|split]].
  - intros e ->. reflexivity.
  - intros ->. unfold getOpenOrders. cbn [mbind Result_bind].
    destruct symbol as [requested|]; [destruct (String.eqb requested "")|]; reflexivity.
  - intros result orders order -> Hget Hin. unfold getOpenOrders in Hget.
    cbn [mbind Result_bind] in Hget.
    destruct (mapR parseOrder result) as [parsed|] eqn:Hparsed; [|done].
    cbn [mbind Result_bind] in Hget. injection Hget as <-.
    apply list_elem_of_In, List.filter_In in Hin as [Hin Hopen].
    assert (Horigin : order ∈ parsed
                      /\ forall requested, symbol = Some requested -> requested <> "" ->
                           Parsed.symbol order = requested).
    { destruct symbol as [requested|].
      - destruct (String.eqb_spec requested "") as [->|Hne].
        + split; [by apply list_elem_of_In|]. intros ? [= <-]. done.
        + apply List.filter_In in Hin as [Hin Hsame]. split; [by apply list_elem_of_In|].
          intros ? [= <-] _. by apply String.eqb_eq.
      - split; [by apply list_elem_of_In | done]. }
    destruct Horigin as [Hparsedin Hsymbol].
    pose proof (mapR_Forall parseOrder
                  (fun order => exists data, data ∈ result /\ parseOrder data = Ok order)
                  result parsed Hparsed) as Hfrom.
    assert (Hdata : exists data, data ∈ result /\ parseOrder data = Ok order).
    { assert (Hall : Forall (fun order => exists data,
                                  data ∈ result /\ parseOrder data = Ok order) parsed).
      { apply Hfrom. intros x y Hx Hy. exists x. by split. }
      apply (proj1 (Forall_forall _ _) Hall order Hparsedin). }
    destruct Hdata as (data & Hdata & Hparse).
    destruct (parseOrder_status data order Hparse) as (Hstatus & _ & _).
    unfold trulyOpen in Hopen.
    assert (Hkind : Parsed.status order = OPEN \/ Parsed.status order = PARTIALLY_FILLED).
    { rewrite Hstatus in *.
      destruct (mapOrderStatus (RawOrder.status data)).1 eqn:E; try done;
        [by apply mapOrderStatus_never_pending in E | by left | by right]. }
    split; [exact Hkind|]. split; [exact Hsymbol|].
    exists data. split; [exact Hdata|]. split; [exact Hparse|].
    assert (Hlisted : isOneOf (normalizeStatus (RawOrder.status data))
                        (statusOpen ++ statusPartiallyFilled) = true).
    { unfold isOneOf. rewrite existsb_app. apply orb_true_iff.
      rewrite Hstatus in Hkind. destruct Hkind as [Hk|Hk].
      - left. by apply mapOrderStatus_open.
      - right. by apply mapOrderStatus_partial. }
    split; [exact Hlisted|].
    unfold recognisedStatus, isOneOf in *. rewrite !existsb_app in *.
    apply orb_true_iff in Hlisted as [->| ->]; cbn; by rewrite ?orb_true_r.
  - intros result data -> Hin Hthrow. unfold getOpenOrders.
    cbn [mbind Result_bind].
    pose proof (mapR_throws parseOrder result data Hin Hthrow) as Hall.
    destruct (mapR parseOrder result); done.
Qed.

End OpenOrders.

Section MarketDataCache.

Import EnclaveClient.

Lemma withoutRange_insert cache symbol marketData :
  withoutRange cache ->
  MarketData.symbol marketData = symbol ->
  MarketData.high24h marketData = Dec.Fin 0 ->
  MarketData.low24h marketData = Dec.Fin 0 ->
  withoutRange (<[symbol := marketData]> cache).
Proof.
  intros Hcache Hsymbol Hhigh Hlow other md Hlookup.
  unfold MarketDataCache in *.
  destruct (decide (other = symbol)) as [->|Hne].
  - rewrite lookup_insert_eq in Hlookup. injection Hlookup as <-. done.
  - rewrite lookup_insert_ne in Hlookup by done. by apply Hcache.
Qed.

Lemma handleTopOfBookUpdate_withoutRange data cache :
  withoutRange cache -> withoutRange (handleTopOfBookUpdate data cache).
Proof.
  revert cache. induction data as [|item rest IH]; intros cache Hcache; [exact Hcache|].
  cbn [handleTopOfBookUpdate].
  destruct (bestOrZero (bestBid item)) as [bid|] eqn:Hbid; [|exact Hcache].
  cbn [mbind Result_bind].
  destruct (bestOrZero (bestAsk item)) as [ask|]; [|exact Hcache].
  cbn [mbind Result_bind].
  destruct (cache !! itemMarket item) as [existing|] eqn:Hexisting.
  - cbn [mbind Result_bind from_option]. apply IH.
    destruct (Hcache _ _ Hexisting) as (_ & Hhigh & Hlow).
    by apply withoutRange_insert.
  - cbn [mbind Result_bind from_option]. apply IH.
    by apply withoutRange_insert.
Qed.

Lemma handleTradesUpdate_withoutRange data cache :
  withoutRange cache -> withoutRange (handleTradesUpdate data cache).
Proof.
  revert cache. induction data as [|trade rest IH]; intros cache Hcache; [exact Hcache|].
  cbn [handleTradesUpdate].
  destruct (cache !! tradeMarket trade) as [existing|] eqn:Hexisting; [|by apply IH].
  destruct (Hcache _ _ Hexisting) as (Hsymbol & Hhigh & Hlow).
  destruct (tradePrice trade) as [price|]; [|exact Hcache].
  destruct (tradeSize trade) as [size|].
  - apply IH. by apply withoutRange_insert.
  - by apply withoutRange_insert.
Qed.

Lemma handleTradesUpdate_unknown data cache :
  Forall (fun trade => cache !! tradeMarket trade = None) data ->
  handleTradesUpdate data cache = cache.
Proof.
  induction 1 as [|trade rest Hunknown _ IH]; [reflexivity|].
  cbn [handleTradesUpdate]. by rewrite Hunknown.
Qed.

Lemma feed_withoutRange messages cache :
  withoutRange cache -> withoutRange (feed messages cache).
Proof.
  unfold feed. revert cache.
  induction messages as [|message rest IH]; intros cache Hcache; [exact Hcache|].
  cbn [fold_left]. apply IH. destruct message; cbn [handleMessage].
  - exact Hcache.
  - by apply handleTopOfBookUpdate_withoutRange.
  - by apply handleTradesUpdate_withoutRange.
  - exact Hcache.
Qed.

(** X27: whatever messages the WebSocket delivers, every entry of the
    market-data cache is filed under its own symbol and has a 24 h high and
    low of zero: nothing ever writes them.  A candle that
    [updatePriceHistory] makes from cached market data therefore has high
    and low zero and a non-zero close.  Trades of a market that has no entry
    yet are dropped. *)
Theorem cached_market_data_has_no_range messages :
  withoutRange (feed messages ∅)
  /\ (forall symbol marketData,
        cachedMarketData (feed messages ∅) symbol = Some marketData ->
        MarketData.symbol marketData = symbol
        /\ high (candleOf marketData) = Dec.Fin 0
        /\ low (candleOf marketData) = Dec.Fin 0
        /\ Dec.isZero (close (candleOf marketData)) = false)
  /\ (forall data cache,
        Forall (fun trade => cache !! tradeMarket trade = None) data ->
        handleMessage (TradesUpdate data) cache = cache).
Proof.
  assert (Hfeed : withoutRange (feed messages ∅)).
  { apply feed_withoutRange. intros symbol md Hlookup.
    unfold MarketDataCache in *. by rewrite lookup_empty in Hlookup. }
  split; [exact Hfeed|]. split.
  - intros symbol marketData. unfold cachedMarketData.
    destruct (feed messages ∅ !! symbol) as [cached|] eqn:Hcached; [|done].
    destruct (Dec.isZero (MarketData.last cached)) eqn:Hzero; [done|].
    cbn [negb]. intros [= <-].
    destruct (Hfeed _ _ Hcached) as (Hsymbol & Hhigh & Hlow).
    cbn [candleOf high low close]. done.
  - intros data cache Hunknown. cbn [handleMessage].
    by apply handleTradesUpdate_unknown.
Qed.

End MarketDataCache.


(** ** Risk manager *)

Section PositionSizing.

Import RiskManager.

(** X28: the size of a position.  For a non-negative configured size, a
    numeric balance and stop and a non-zero numeric entry price the result
    is a number between a tenth of the configured size and twice that size;
    it is the configured size itself when the stop equals the entry.  An
    entry price of zero gives [NaN]. *)
Theorem calculatePositionSize_is_clamped rm balance (configured funds entry stop : Q) :
  positionSize (config rm) = Dec.Fin configured ->
  total balance = Dec.Fin funds ->
  0 <= configured ->
  (~ entry == 0 ->
     exists size,
       calculatePositionSize rm balance (Dec.Fin entry) (Dec.Fin stop) = Dec.Fin size
       /\ 0.1 * configured <= size <= 2 * configured)
  /\ (~ entry == 0 ->
      calculatePositionSize rm balance (Dec.Fin entry) (Dec.Fin entry)
      = Dec.Fin configured)
  /\ calculatePositionSize rm balance (Dec.Fin 0) (Dec.Fin stop) = Dec.NaN.
Proof.
  intros Hconfigured Hfunds Hnonneg.
  unfold calculatePositionSize. rewrite Hconfigured, Hfunds.
  cbn [Dec.times Dec.minus Dec.plus Dec.negated Dec.abs].
  split; [|split].
  - intros Hentry. rewrite dividedBy_fin by exact Hentry.
    cbn [Dec.isZero]. unfold Qzerob.
    destruct (Qeq_bool (Qred (Qred (Qabs (Qred (entry + Qred (- stop)))) / entry)) 0)
      eqn:Hzero.
    { exists configured. split; [reflexivity | lra]. }
    qbool. rewrite dividedBy_fin by exact Hzero.
    rewrite dividedBy_fin by exact Hentry.
    cbn [Dec.greaterThan Dec.lessThan].
    pose proof (Qred_eq (configured * 2)). pose proof (Qred_eq (configured * 0.1)).
    destruct (Qltb (Qred (configured * 2)) _) eqn:Hmax.
    { eexists. split; [reflexivity | lra]. }
    destruct (Qltb _ (Qred (configured * 0.1))) eqn:Hmin.
    { eexists. split; [reflexivity | lra]. }
    qbool. eexists. split; [reflexivity | lra].
  - intros Hentry. rewrite dividedBy_fin by exact Hentry.
    cbn [Dec.isZero]. unfold Qzerob.
    assert (Hzero : Qeq_bool (Qred (Qred (Qabs (Qred (entry + Qred (- entry)))) / entry)) 0
                    = true).
    { apply Qeq_bool_iff. rewrite !Qred_eq.
      assert (Hdiff : entry + - entry == 0) by lra.
      rewrite Hdiff. change (Qabs 0) with 0. unfold Qdiv. lra. }
    rewrite Hzero. reflexivity.
  - cbn [Dec.dividedBy]. unfold Qzerob.
    change (Qeq_bool 0 0) with true. cbn iota.
    destruct (Qeq_bool (Qred (Qabs (Qred (0 + Qred (- stop))))) 0); cbn; reflexivity.
Qed.

End PositionSizing.

Section EmergencyStop.

Import RiskManager.

Lemma min_atMost (x : Decimal) (cap : Q) : atMost cap (JsNumber.min x (Dec.Fin cap)).
Proof.
  destruct x as [q| |[]]; cbn; try done.
  - destruct (Qltb cap q) eqn:E; cbn; qbool; lra.
  - lra.
Qed.

Lemma plus_atMost (a b : Q) (x y : Decimal) :
  atMost a x -> atMost b y -> atMost (a + b) (Dec.plus x y).
Proof.
  destruct x as [p| |[]], y as [q| |[]]; cbn; try done.
  intros Hp Hq. rewrite Qred_eq. lra.
Qed.

Lemma round_atMost (bound : Z) (x : Decimal) :
  atMost (inject_Z bound) x -> atMost (inject_Z bound) (JsNumber.round x).
Proof.
  destruct x as [q| |[]]; cbn [JsNumber.round atMost]; try done.
  intros Hq. rewrite <- Zle_Qle.
  assert (Hfloor : (Qfloor (q + (1 # 2)) < bound + 1)%Z).
  { rewrite Zlt_Qlt, inject_Z_plus. change (inject_Z 1) with 1.
    pose proof (Qfloor_le (q + (1 # 2))). lra. }
  lia.
Qed.

Lemma atMost_not_greater (bound limit : Q) (x : Decimal) :
  atMost bound x -> bound <= limit -> Dec.greaterThan x (Dec.Fin limit) = false.
Proof.
  destruct x as [q| |[]]; cbn; try done.
  intros Hq Hlimit. apply Qltb_false. lra.
Qed.

Lemma idle_ratio_atMost (denominator : Decimal) :
  atMost 0 (Dec.times (Dec.dividedBy (Dec.Fin 0) denominator) (Dec.Fin 25)).
Proof.
  destruct denominator as [d| |[]]; cbn; try done.
  destruct (Qzerob d); [done|].
  cbn [Dec.times atMost]. rewrite !Qred_eq. unfold Qdiv. lra.
Qed.

(** X29: in [shouldStopTrading] the risk score is computed for no open
    position, so that it is at most 75 (or not a number) and the test
    [riskScore > 80] never fires: the answer is [true] exactly when the
    daily loss has reached the limit, read before the daily reset. *)
Theorem shouldStopTrading_is_the_daily_loss_limit nextDay now rm :
  (shouldStopTrading nextDay now rm).1
  = Dec.lessThanOrEqualTo (dailyPnl rm) (Dec.negated (maxDailyLoss (config rm)))
  /\ (forall rm' balance,
        atMost 75 (calculateRiskScore rm' [] balance)
        /\ Dec.greaterThan (calculateRiskScore rm' [] balance) (Dec.Fin 80) = false).
Proof.
  assert (Hscore : forall rm' balance, atMost 75 (calculateRiskScore rm' [] balance)).
  { intros rm' balance. unfold calculateRiskScore. cbv zeta.
    apply (round_atMost 75).
    change (inject_Z 75) with 75.
    assert (Hfirst : atMost (0 + 0)
                       (Dec.plus (Dec.Fin 0)
                          (Dec.times
                             (Dec.dividedBy (Dec.ofNat (length (@nil Position.t)))
                                (Dec.ofNat (maxPositions (config rm'))))
                             (Dec.Fin 25)))).
    { apply plus_atMost; [cbn; lra | apply idle_ratio_atMost]. }
    assert (Hsecond : forall x, atMost (0 + 0 + 25)
                                  (Dec.plus
                                     (Dec.plus (Dec.Fin 0)
                                        (Dec.times
                                           (Dec.dividedBy
                                              (Dec.ofNat (length (@nil Position.t)))
                                              (Dec.ofNat (maxPositions (config rm'))))
                                           (Dec.Fin 25)))
                                     (JsNumber.min x (Dec.Fin 25)))).
    { intros x. apply plus_atMost; [exact Hfirst | apply min_atMost]. }
    assert (Hwiden : forall x, atMost (0 + 0 + 25) x -> atMost (0 + 0 + 25 + 25) x).
    { intros [q| |[]]; cbn [atMost]; try done; lra. }
    assert (Hfinal : forall x y, atMost (0 + 0 + 25 + 25) x ->
                                 atMost 75 (Dec.plus x (JsNumber.min y (Dec.Fin 25)))).
    { intros x y Hx.
      pose proof (plus_atMost _ _ _ _ Hx (min_atMost y 25)) as Hsum.
      destruct (Dec.plus x (JsNumber.min y (Dec.Fin 25))) as [q| |[]];
        cbn [atMost] in *; try done; lra. }
    apply Hfinal.
    destruct (Dec.lessThan (dailyPnl rm') (Dec.Fin 0)).
    - apply plus_atMost; [apply Hsecond | apply min_atMost].
    - apply Hwiden, Hsecond. }
  split.
  - unfold shouldStopTrading.
    destruct (Dec.lessThanOrEqualTo (dailyPnl rm) _); [reflexivity|].
    unfold getRiskMetrics. cbn [fst riskScore].
    rewrite (atMost_not_greater 75 80 _ (Hscore _ _)) by lra. reflexivity.
  - intros rm' balance. split; [apply Hscore|].
    apply (atMost_not_greater 75 80); [apply Hscore | lra].
Qed.

End EmergencyStop.


(** ** The further properties, evaluated *)

(** [Forall P l] on a list that evaluates to its elements. *)
Ltac each_element tac :=
  match goal with
  | |- Forall ?P ?l =>
      let l' := eval vm_compute in l in
      change (Forall P l');
      repeat (constructor 2; [cbv beta; tac|]); constructor 1
  end.

Ltac is_finite := eexists; reflexivity.

Ltac is_finite_candle := repeat split; is_finite.

Ltac is_well_formed_candle :=
  do 3 eexists; split; [reflexivity|split; [reflexivity|split; [reflexivity|lra]]].

Ltac is_priced_candle := split; [is_well_formed_candle | reflexivity].

Ltac evaluates := reflexivity.

Section IndicatorScenarios.

Import TechnicalIndicators Scenario.

(** Five candles are too few for a lookback of 10; on the breakout window
    the support of the last 10 candles lies below their resistance. *)
Lemma support_and_resistance_bound_the_window_witness :
  calculateResistance (take 5 breakoutWindow) 10 = Throw (InsufficientData "periods")
  /\ exists resistance support,
       calculateResistance breakoutWindow 10 = Ok resistance
       /\ calculateSupport breakoutWindow 10 = Ok support
       /\ Dec.lessThanOrEqualTo support resistance = true.
Proof.
  split.
  - apply (proj1 (support_and_resistance_bound_the_window (take 5 breakoutWindow) 10)).
    vm_compute. lia.
  - destruct (proj2 (support_and_resistance_bound_the_window breakoutWindow 10))
      as (resistance & support & Hr & Hs & _ & _ & _ & _ & Hle).
    + vm_compute. lia.
    + each_element is_finite_candle.
    + exists resistance, support. split; [exact Hr|]. split; [exact Hs|].
      apply Hle. exists (candle 106 1). split; [|reflexivity].
      vm_compute. repeat constructor.
Defined.

(** The close 106 of the last candle against the resistance 110 and the
    support 100 of the last 10 candles, which include it. *)
Lemma breakout_never_fires_inside_window_witness :
  detectBreakout (close (candle 106 1)) (Dec.Fin 110) (Dec.Fin 100) 0.001 = None.
Proof.
  apply (breakout_never_fires_inside_window recentCandles 10 0.001
           (Dec.Fin 110) (Dec.Fin 100) (candle 106 1)).
  - lra.
  - apply Forall_forall.
    each_element is_priced_candle.
  - vm_compute. reflexivity.
  - vm_compute. reflexivity.
  - vm_compute. repeat constructor.
Defined.

(** The average true range of the last 14 of 20 candles, and of too few. *)
Lemma calculateATR_is_nonnegative_witness :
  calculateATR (take 5 recentCandles) 14 = Throw (InsufficientData "ATR")
  /\ exists atr, calculateATR recentCandles 14 = Ok (Dec.Fin atr) /\ 0 <= atr.
Proof.
  split.
  - apply (proj1 (calculateATR_is_nonnegative (take 5 recentCandles) 14)).
    vm_compute. lia.
  - apply (proj2 (calculateATR_is_nonnegative recentCandles 14)).
    + lia.
    + vm_compute. lia.
    + each_element is_finite_candle.
Defined.

(** The RSI of 20 candles lies in [0, 100]; the RSI of rising closes is
    100. *)
Lemma calculateRSI_range_witness :
  (exists rsi, calculateRSI recentCandles 14 = Ok (Dec.Fin rsi) /\ 0 <= rsi <= 100)
  /\ calculateRSI rising 3 = Ok (Dec.Fin 100).
Proof.
  split.
  - apply (calculateRSI_range recentCandles 14).
    + lia.
    + vm_compute. lia.
    + each_element is_finite.
  - apply (calculateRSI_range rising 3).
    + lia.
    + vm_compute. lia.
    + each_element is_finite.
    + each_element evaluates.
Defined.

(** The bands of the closes 101, 102, 103 at two standard deviations. *)
Lemma bollinger_bands_are_ordered_witness :
  exists u m l,
    calculateBollingerBands (map close rising) 3 (Dec.Fin 2)
    = Ok {| upper := Dec.Fin u; middle := Dec.Fin m; lower := Dec.Fin l |}
    /\ calculateSMA (map close rising) 3 = Ok (Dec.Fin m)
    /\ l <= m <= u.
Proof.
  apply (bollinger_bands_are_ordered (map close rising) 3 2).
  - vm_compute. lia.
  - lra.
  - each_element is_finite.
Defined.

(** The stochastic oscillator of 20 candles. *)
Lemma calculateStochastic_range_witness :
  exists s,
    calculateStochastic recentCandles 14 3 = Ok s
    /\ within 0 100 (k s) /\ within 0 100 (d s).
Proof.
  apply (calculateStochastic_range recentCandles 14 3).
  - lia.
  - lia.
  - vm_compute. lia.
  - each_element is_well_formed_candle.
Defined.

(** Four candles give no trend and confirm none; a short period above the
    number of candles throws; the breakout window confirms the uptrend and
    therefore not the downtrend. *)
Lemma trend_confirmation_is_total_and_exclusive_witness :
  detectTrend rising 20 50 = Ok Trend.SIDEWAYS
  /\ detectTrend rising 5 3 = Throw (InsufficientData "SMA")
  /\ isTrendConfirmed rising Trend.UPTREND = Ok false
  /\ isTrendConfirmed breakoutWindow Trend.DOWNTREND = Ok false.
Proof.
  split; [|split; [|split]].
  - apply (proj1 (trend_confirmation_is_total_and_exclusive rising)).
    vm_compute. lia.
  - apply (proj1 (proj2 (proj2 (trend_confirmation_is_total_and_exclusive rising)))).
    vm_compute. lia.
  - apply (proj1 (proj2 (proj2 (proj2 (proj2
             (trend_confirmation_is_total_and_exclusive rising)))))).
    vm_compute. lia.
  - apply (proj2 (proj2 (proj2 (proj2 (proj2
             (trend_confirmation_is_total_and_exclusive breakoutWindow)))))).
    vm_compute. reflexivity.
Defined.

End IndicatorScenarios.

Section GeneratorScenarios.

Import TechnicalIndicators BreakoutStrategy Scenario.

(** Five hundred milliseconds after the rejected order: the generator
    leaves the cooldowns of another instrument alone, and the failed-order
    cooldown it leaves for the instrument is the one it found. *)
Lemma generateSignal_only_expires_cooldowns_witness :
  (lossCooldowns (bot (generateSignal (quietGateway 2000500) sol coolingDown).2)
     !! "BTC-USD.P"
   = lossCooldowns (bot coolingDown) !! "BTC-USD.P"
   /\ failedSignalCooldowns (bot (generateSignal (quietGateway 2000500) sol coolingDown).2)
        !! "BTC-USD.P"
      = failedSignalCooldowns (bot coolingDown) !! "BTC-USD.P")
  /\ failedSignalCooldowns (bot coolingDown) !! sol = Some 2000000%Z.
Proof.
  pose proof (generateSignal_only_expires_cooldowns (quietGateway 2000500) sol coolingDown)
    as (_ & _ & _ & _ & _ & _ & _ & Hother & _ & Hfailed).
  split.
  - apply Hother. vm_compute. discriminate.
  - apply Hfailed. vm_compute. reflexivity.
Defined.

(** The signal emitted on the breakout window. *)
Lemma emitted_signal_passed_every_gate_witness :
  exists history ms,
    priceHistory (bot watching) !! sol = Some history
    /\ (200 <= length history)%nat
    /\ calculateMomentumScore history LONG = Ok ms
    /\ Signal.confidence emitted = score ms
    /\ detectEMAStack (map close history) = Ok BULLISH
    /\ detectPriceStructure history 10 = Ok HIGHER_HIGHS.
Proof.
  destruct (emitted_signal_passed_every_gate (quietGateway 5000) sol watching emitted)
    as (history & entry & ms & Hhistory & Hlen & _ & _ & _ & _ & Hms & Hconfidence & _
        & (Hstack & Hstructure & _) & _).
  { vm_compute. reflexivity. }
  exists history, ms. repeat split; assumption.
Defined.

(** At time 2 000 000 the loss cooldown that started at time 1 has run
    out: the generator answers from the window. *)
Lemma generateSignal_after_cooldowns_witness :
  (generateSignal (quietGateway 2000000) sol stoppedOut).1
  = Ok (match signalFromWindow sol breakoutWindow with
        | Ok answer => answer
        | Throw _ => None
        end).
Proof.
  apply (generateSignal_after_cooldowns (quietGateway 2000000) sol stoppedOut
           breakoutWindow).
  - vm_compute. reflexivity.
  - vm_compute. lia.
  - vm_compute. reflexivity.
  - intros since i Hsince. vm_compute in Hsince. injection Hsince as <-.
    vm_compute. discriminate.
  - intros since i Hsince. vm_compute in Hsince. discriminate Hsince.
Defined.

End GeneratorScenarios.

Section PersistenceScenarios.

Import BreakoutStrategy Scenario.

(** The recovered position, saved and loaded: its profit flag comes back
    with its trailing stop. *)
Lemma saved_trailing_stops_load_back_witness :
  partialProfitTaken (bot recovered) !! sol = Some true
  /\ is_Some (trailingStops (bot recovered) !! sol).
Proof.
  apply (proj2 (saved_trailing_stops_load_back cfg (bot recovered)) sol).
  vm_compute. reflexivity.
Defined.

(** An entry and a tick at 110, with a file system that accepts every
    write. *)
Lemma restart_recovers_the_trailing_stops_witness :
  restorable
    (performAll [(quietGateway 1000, ExecuteSignal generated None);
                 (gatewayAt 110 2000, UpdateTrailingStops sol)] fresh).
Proof.
  apply (restart_recovers_the_trailing_stops cfg NoFile
           [(quietGateway 1000, ExecuteSignal generated None);
            (gatewayAt 110 2000, UpdateTrailingStops sol)]).
  intros env operation n Hin.
  apply elem_of_cons in Hin as [Hin|Hin]; [injection Hin as -> _; reflexivity|].
  apply elem_of_cons in Hin as [Hin|Hin]; [injection Hin as -> _; reflexivity|].
  by apply elem_of_nil in Hin.
Defined.

End PersistenceScenarios.

Section ExecutionScenarios.

Import BreakoutStrategy Scenario.

(** The entry from the generated signal on a quiet gateway. *)
Lemma executeSignal_tracks_the_position_witness :
  activeSignals (bot (executeSignal (quietGateway 1000) generated None fresh).2)
  = <[sol := generated]> (activeSignals (bot fresh))
  /\ journal (executeSignal (quietGateway 1000) generated None fresh).2
     = [OrderPlaced sol BUY (Dec.Fin 1) MARKET None;
        OrderPlaced sol SELL (Dec.Fin 1) LIMIT
          (Some (roundToIncrement (Dec.Fin (Qred 101.3)) sol))].
Proof.
  destruct (executeSignal_tracks_the_position (quietGateway 1000) generated None
              (Dec.Fin 1) [] fresh)
    as (Hactive & _ & _ & _ & _ & _ & Hjournal);
    try (vm_compute; reflexivity).
  split; [exact Hactive | exact Hjournal].
Defined.

(** A second signal for the open position changes nothing; a signal for a
    position that exists on the exchange registers it instead of entering. *)
Lemma executeSignal_sends_no_entry_order_witness :
  executeSignal (quietGateway 3000) generated None opened = (Ok tt, opened)
  /\ exists registered,
       activeSignals (bot (executeSignal (gatewayAt 100 1000) generated None fresh).2)
         !! sol = Some registered
       /\ Signal.reason registered = ExistingPositionOnRestart.
Proof.
  split.
  - apply (proj1 (executeSignal_sends_no_entry_order (quietGateway 3000) generated None
                    opened)).
    vm_compute. eexists. reflexivity.
  - destruct (proj2 (proj2 (executeSignal_sends_no_entry_order (gatewayAt 100 1000)
                               generated None fresh))
                [longPosition 100] (longPosition 100))
      as (_ & registered & Hregistered & _ & _ & Hreason);
      try (vm_compute; reflexivity).
    exists registered. split; [exact Hregistered | exact Hreason].
Defined.

(** The exchange still reports the position and rejects the closing order:
    the strategy keeps tracking it. *)
Lemma closePosition_is_all_or_nothing_witness :
  bot (closePosition (stuckGateway 94 2000) sol "Stop Loss Hit" opened).2 = bot opened
  /\ disk (closePosition (stuckGateway 94 2000) sol "Stop Loss Hit" opened).2
     = disk opened.
Proof.
  apply (proj2 (proj2 (closePosition_is_all_or_nothing (stuckGateway 94 2000) sol
                         "Stop Loss Hit" opened))
           generated).
  - vm_compute. reflexivity.
  - intros i. exists [longPosition 94], (longPosition 94).
    split; reflexivity.
  - intros i. reflexivity.
Defined.

(** A tick while the position request fails, and a tick while the open
    orders cannot be listed. *)
Lemma updateTrailingStops_survives_gateway_failure_witness :
  ((updateTrailingStops (downGateway 2000) sol opened).1 = Ok tt
   /\ bot (updateTrailingStops (downGateway 2000) sol opened).2 = bot opened
   /\ disk (updateTrailingStops (downGateway 2000) sol opened).2 = disk opened
   /\ journal (updateTrailingStops (downGateway 2000) sol opened).2 = journal opened)
  /\ ((updateTrailingStops (ordersDownGateway 2000) sol opened).1 = Ok tt
      /\ bot (updateTrailingStops (ordersDownGateway 2000) sol opened).2 = bot opened
      /\ disk (updateTrailingStops (ordersDownGateway 2000) sol opened).2 = disk opened
      /\ journal (updateTrailingStops (ordersDownGateway 2000) sol opened).2
         = journal opened).
Proof.
  split.
  - apply (proj1 (updateTrailingStops_survives_gateway_failure (downGateway 2000) sol
                    opened)).
    reflexivity.
  - apply (proj2 (updateTrailingStops_survives_gateway_failure (ordersDownGateway 2000)
                    sol opened) []);
      reflexivity.
Defined.

(** The partial exit of the long position at 110: rejected, it leaves no
    trace; accepted, it sets the flag. *)
Lemma closePartialPosition_flags_only_accepted_exits_witness :
  journal (closePartialPosition (rejectingGateway 2000) sol (longPosition 110)
             (Dec.Fin 10) opened).2
  = journal opened
  /\ partialProfitTaken
       (bot (closePartialPosition (quietGateway 2000) sol (longPosition 110)
               (Dec.Fin 10) opened).2)
     = <[sol := true]> (partialProfitTaken (bot opened)).
Proof.
  split.
  - apply (proj1 (proj2 (closePartialPosition_flags_only_accepted_exits
                           (rejectingGateway 2000) sol (longPosition 110) (Dec.Fin 10)
                           opened)));
      reflexivity.
  - apply (proj2 (proj2 (closePartialPosition_flags_only_accepted_exits
                           (quietGateway 2000) sol (longPosition 110) (Dec.Fin 10)
                           opened)));
      reflexivity.
Defined.


(** A position opened at time 1000 and never checked, looked at a day
    later. *)
Lemma checkTrailingStopHealth_alerts_witness :
  exists newFlag raised,
    (checkTrailingStopHealth (quietGateway 86400000) [sol] false opened).1
    = Ok (newFlag, raised)
    /\ raised <> [].
Proof.
  destruct (checkTrailingStopHealth_alerts (quietGateway 86400000) [sol] false opened)
    as (newFlag & raised & Hrun & _ & Hraised & _).
  exists newFlag, raised. split.
  - rewrite Hrun. reflexivity.
  - apply Hraised; [reflexivity|].
    exists sol. split; [repeat constructor | vm_compute; reflexivity].
Defined.

(** One tick of market data with the default lookback period 10 cuts the
    200-candle window to 20 candles, and no signal can follow. *)
Lemma updatePriceHistory_caps_the_history_witness :
  (generateSignal (quietGateway 5000) sol
     (updatePriceHistory (fun _ => Ok tick) 10 sol watching).2).1
  = Ok None.
Proof.
  destruct (proj2 (proj2 (updatePriceHistory_caps_the_history (fun _ => Ok tick) 10 sol
                             watching))
              tick eq_refl)
    as (history & _ & _ & _ & _ & _ & Hsilent).
  apply Hsilent. lia.
Defined.

End ExecutionScenarios.

Section ClientScenarios.

Import EnclaveClient Scenario.

(** Close, open, close: two timers, of 2 and 2 seconds. *)
Lemma reconnection_backs_off_and_gives_up_witness :
  ((socketRun [SocketClose; SocketOpen; SocketClose] 0).1 <= maxReconnectAttempts)%nat
  /\ Forall (fun delay => (2000 <= delay <= 30000)%Z)
            (socketRun [SocketClose; SocketOpen; SocketClose] 0).2.
Proof.
  apply (proj1 reconnection_backs_off_and_gives_up
           [SocketClose; SocketOpen; SocketClose] 0%nat).
  vm_compute. lia.
Defined.

(** Of a resting and a filled order the resting one is returned. *)
Lemma getOpenOrders_returns_open_orders_only_witness :
  (Parsed.status restingOrderParsed = OPEN
   \/ Parsed.status restingOrderParsed = PARTIALLY_FILLED)
  /\ Parsed.symbol restingOrderParsed = sol.
Proof.
  destruct (proj1 (proj2 (proj2 (getOpenOrders_returns_open_orders_only
                                   (Ok (Some [restingOrder; filledOrder])) (Some sol))))
              [restingOrder; filledOrder] [restingOrderParsed] restingOrderParsed)
    as (Hstatus & Hsymbol & _).
  - reflexivity.
  - vm_compute. reflexivity.
  - repeat constructor.
  - split; [exact Hstatus|]. apply (Hsymbol sol); [reflexivity | discriminate].
Defined.

(** After a book update and a trade the cache answers with [tick], whose
    24 h range is zero. *)
Lemma cached_market_data_has_no_range_witness :
  MarketData.symbol tick = sol
  /\ high (candleOf tick) = Dec.Fin 0
  /\ low (candleOf tick) = Dec.Fin 0
  /\ Dec.isZero (close (candleOf tick)) = false.
Proof.
  apply (proj1 (proj2 (cached_market_data_has_no_range [bookUpdate; tradeUpdate])) sol).
  vm_compute. reflexivity.
Defined.

End ClientScenarios.

Section RiskScenarios.

Import RiskManager Scenario.

(** An entry at 100 with the stop at 95, on an account of 1000. *)
Lemma calculatePositionSize_is_clamped_witness :
  exists size,
    calculatePositionSize riskManager account (Dec.Fin 100) (Dec.Fin 95) = Dec.Fin size
    /\ 0.1 * 1 <= size <= 2 * 1.
Proof.
  apply (proj1 (calculatePositionSize_is_clamped riskManager account 1 1000 100 95
                  eq_refl eq_refl ltac:(lra))).
  lra.
Defined.

End RiskScenarios.
